(** * Exercise synchronisation engine of the CS Learning Platform extension

    A shallow embedding of the parts of the VS Code extension that decide
    what is written to an exercise file when a lesson is opened
    ([WorkspaceManager.createExerciseFile]), how edits are classified
    ([InputMetricsTracker]), how saves are debounced and pushed
    ([FileSyncManager]) and how a push reaches the answer collection
    ([FirebaseService.saveStudentAnswer]).

    Conventions of the embedding.
    - A JavaScript string is a [string]: a sequence of 8-bit characters read
      as the UTF-16 code units 0..255 (Latin-1). [String.length] is the
      [.length] of the source.
    - A value tested for truthiness ([x || d], [if (x)]) is an [option string]
      and is falsy when it is [None] or the empty string.
    - [Date] values are milliseconds since the epoch, in [Z].
    - Maps and sets of the source ([Map], [Set]) are [gmap] and [gset].
    - The lookup tables [extensions] and [syntax] are read as plain tables;
      language names that are members of [Object.prototype] (such as
      [constructor]) are outside the model. *)

From Stdlib Require Import ZArith NArith Ascii String List Lia Bool Sorted.
From stdpp Require Import base option list strings gmap pretty.

Local Open Scope string_scope.

(** ** JavaScript string primitives *)

Module Js.

Definition code (c : ascii) : N := N_of_ascii c.

Definition in_range (lo hi : N) (c : ascii) : bool :=
  ((lo <=? code c)%N && (code c <=? hi)%N)%bool.

(** Characters with a distinct lower-case form among the code units 0..255:
    [A-Z], and the Latin-1 capitals U+00C0..U+00DE except the sign U+00D7. *)
Definition is_upper (c : ascii) : bool :=
  (in_range 65 90 c
   || (in_range 192 222 c && negb (code c =? 215)%N))%bool.

Definition lower_char (c : ascii) : ascii :=
  if is_upper c then ascii_of_N (code c + 32) else c.

(** [String.prototype.toLowerCase]. *)
Fixpoint toLowerCase (s : string) : string :=
  match s with
  | EmptyString => EmptyString
  | String c r => String (lower_char c) (toLowerCase r)
  end.

(** The character class [[a-z0-9]]. *)
Definition is_alnum (c : ascii) : bool :=
  (in_range 97 122 c || in_range 48 57 c)%bool.

(** The class [\s] restricted to the code units 0..255:
    TAB, LF, VT, FF, CR, SPACE and NBSP. *)
Definition is_space (c : ascii) : bool :=
  (in_range 9 13 c || (code c =? 32)%N || (code c =? 160)%N)%bool.

Definition underscore : ascii := "_"%char.

Definition is_us (c : ascii) : bool := (code c =? 95)%N.

(** [s.replace(/[^a-z0-9]+/g, '_')]: every maximal run of characters
    outside the class becomes one underscore. [in_run] tells that the
    previous character belonged to the run being replaced. *)
Fixpoint replace_non_alnum_runs (in_run : bool) (s : string) : string :=
  match s with
  | EmptyString => EmptyString
  | String c r =>
      if is_alnum c then String c (replace_non_alnum_runs false r)
      else if in_run then replace_non_alnum_runs true r
      else String underscore (replace_non_alnum_runs true r)
  end.

Fixpoint all_us (s : string) : bool :=
  match s with
  | EmptyString => true
  | String c r => (is_us c && all_us r)%bool
  end.

(** The alternative [^_+]: the underscores the string starts with. *)
Fixpoint drop_leading_us (s : string) : string :=
  match s with
  | EmptyString => EmptyString
  | String c r => if is_us c then drop_leading_us r else s
  end.

(** The alternative [_+$]: the first position from which only underscores
    follow up to the end of the string. *)
Fixpoint drop_trailing_us (s : string) : string :=
  match s with
  | EmptyString => EmptyString
  | String c r => if all_us s then EmptyString else String c (drop_trailing_us r)
  end.

(** [s.replace(/^_+|_+$/g, '')]. *)
Definition trim_us (s : string) : string :=
  drop_trailing_us (drop_leading_us s).

Fixpoint all_space (s : string) : bool :=
  match s with
  | EmptyString => true
  | String c r => (is_space c && all_space r)%bool
  end.

(** [/^\r?\n\s*$/.test(s)]. *)
Definition newline_then_spaces (s : string) : bool :=
  match s with
  | String c r =>
      if (code c =? 10)%N then all_space r
      else if (code c =? 13)%N then
        match r with
        | String d r' => ((code d =? 10)%N && all_space r')%bool
        | EmptyString => false
        end
      else false
  | EmptyString => false
  end.

(** Truthiness of a possibly missing string. *)
Definition truthy (o : option string) : option string :=
  match o with
  | Some EmptyString => None
  | _ => o
  end.

(** [o || d] for a possibly missing string [o]. *)
Definition or_else (o : option string) (d : string) : string :=
  default d (truthy o).

(** [s.includes(t)]. *)
Fixpoint includes (s t : string) : bool :=
  if String.prefix t s then true
  else match s with
       | EmptyString => false
       | String _ r => includes r t
       end.

End Js.

(** ** Data model ([models.ts]) *)

Inductive SectionType := TypeText | TypeCode | TypeVideo | TypeInteractive.

Record LessonSection := {
  sec_id : string;
  sec_lessonId : string;
  sec_title : string;
  sec_content : string;
  sec_type : SectionType;
  sec_orderIndex : Z;
  sec_language : option string;
  sec_starterValue : option string;
}.

Record InputMetrics := {
  im_keystrokeCount : Z;
  im_pasteCount : Z;
  im_pasteCharCount : Z;
  im_editDurationMs : Z;
  im_charCount : Z;
  im_firstInputAt : Z;
  im_lastInputAt : Z;
}.

(** ** Exercise paths ([sanitizeFileName], [getFileExtension]) *)

Module Paths.

Definition sanitizeFileName (name : string) : string :=
  Js.trim_us (Js.replace_non_alnum_runs false (Js.toLowerCase name)).

(** A lookup in the table of a [Record<string, string>] literal, for a key
    that is not the name of a member inherited from [Object.prototype]. *)
Fixpoint table_get (t : list (string * string)) (k : string) : option string :=
  match t with
  | [] => None
  | (k', v) :: t' => if decide (k' = k) then Some v else table_get t' k
  end.

Definition extensions : list (string * string) :=
  [("python", "py"); ("java", "java"); ("csharp", "cs");
   ("typescript", "ts"); ("javascript", "js")].

Definition getFileExtension (language : string) : string :=
  Js.or_else (table_get extensions (Js.toLowerCase language)) "txt".

(** The template literal
    [exercise_${section.orderIndex}_${sanitizeFileName(section.title)}.${ext}]
    with [language = section.language || 'python']. *)
Definition exerciseFileName (s : LessonSection) : string :=
  let language := Js.or_else (sec_language s) "python" in
  let ext := getFileExtension language in
  "exercise_" +:+ pretty (sec_orderIndex s) +:+ "_"
    +:+ sanitizeFileName (sec_title s) +:+ "." +:+ ext.

(** [path.join(dir, file)] for a normalised directory and a file name of one
    segment. *)
Definition path_join (dir file : string) : string := dir +:+ "/" +:+ file.

Definition exerciseFilePath (exercisesPath : string) (s : LessonSection) : string :=
  path_join exercisesPath (exerciseFileName s).

End Paths.

(** ** The answer collection ([FirebaseService]) *)

Module Firebase.

Inductive AnswerType := AnswerCode | AnswerInteractive.

(** A document of the [studentAnswers] collection. Documents are schemaless:
    [answer] is missing from a document created by grading, [courseId] is
    written only when one is given, and [inputMetrics] is a field that no
    write of this service sets. *)
Record AnswerDoc := {
  ans_sectionId : string;
  ans_userId : string;
  ans_lessonId : string;
  ans_answer : option string;
  ans_type : AnswerType;
  ans_courseId : option string;
  ans_createdAt : Z;
  ans_updatedAt : Z;
  ans_inputMetrics : option InputMetrics;
}.

(** The collection, in the order in which a query returns its documents. *)
Definition Collection := list AnswerDoc.

(** [where('sectionId', '==', sectionId), where('userId', '==', userId)]. *)
Definition matches (sectionId userId : string) (d : AnswerDoc) : bool :=
  (bool_decide (ans_sectionId d = sectionId)
   && bool_decide (ans_userId d = userId))%bool.

Definition query (db : Collection) (sectionId userId : string) : list AnswerDoc :=
  List.filter (matches sectionId userId) db.

(** [snapshot.empty ? null : snapshot.docs[0]]. *)
Definition getStudentAnswer (db : Collection) (sectionId userId : string)
  : option AnswerDoc :=
  head (query db sectionId userId).

(** [updateDoc(snapshot.docs[0].ref, fields)]: the first matching document
    of the collection is changed where it stands. *)
Fixpoint updateDoc (sectionId userId : string) (f : AnswerDoc -> AnswerDoc)
    (db : Collection) : Collection :=
  match db with
  | [] => []
  | d :: r =>
      if matches sectionId userId d then f d :: r
      else d :: updateDoc sectionId userId f r
  end.

Definition addDoc (d : AnswerDoc) (db : Collection) : Collection :=
  (db ++ [d])%list.

(** [saveStudentAnswer(sectionId, userId, lessonId, content, type, courseId)];
    [now] is the value of [serverTimestamp()]. The function declares six
    parameters: a seventh argument of a call is not read. *)
Definition saveStudentAnswer (now : Z) (sectionId userId lessonId content : string)
    (type : AnswerType) (courseId : option string) (db : Collection) : Collection :=
  match query db sectionId userId with
  | _ :: _ =>
      updateDoc sectionId userId
        (fun d => {| ans_sectionId := ans_sectionId d;
                     ans_userId := ans_userId d;
                     ans_lessonId := ans_lessonId d;
                     ans_answer := Some content;
                     ans_type := ans_type d;
                     ans_courseId := ans_courseId d;
                     ans_createdAt := ans_createdAt d;
                     ans_updatedAt := now;
                     ans_inputMetrics := ans_inputMetrics d |}) db
  | [] =>
      addDoc {| ans_sectionId := sectionId;
                ans_userId := userId;
                ans_lessonId := lessonId;
                ans_answer := Some content;
                ans_type := type;
                ans_courseId := Js.truthy courseId;
                ans_createdAt := now;
                ans_updatedAt := now;
                ans_inputMetrics := None |} db
  end.

End Firebase.

(** ** Materialisation of exercise files ([WorkspaceManager]) *)

Module Workspace.

Import Firebase.

(** The local files: path to content. *)
Abbreviation Files := (gmap string string).

Definition nl : string := String (ascii_of_N 10) EmptyString.

Definition syntax : list (string * string) :=
  [("python", "#"); ("java", "//"); ("csharp", "//");
   ("typescript", "//"); ("javascript", "//")].

Definition getCommentSyntax (language : string) : string :=
  Js.or_else (Paths.table_get syntax (Js.toLowerCase language)) "#".

Definition getDefaultBoilerplate (language title : string) : string :=
  let comment := getCommentSyntax language in
  comment +:+ " Exercise: " +:+ title +:+ nl
    +:+ comment +:+ " TODO: Implement your solution here" +:+ nl +:+ nl.

(** [fs.access(filePath)] succeeds. *)
Definition fileExists (fs : Files) (filePath : string) : bool :=
  bool_decide (is_Some (fs !! filePath)).

(** The line [createExerciseFile] logs. *)
Inductive Outcome := SyncedFromRemote | CreatedWithStarter | PreservedLocal.

(** [createExerciseFile(section, exercisesPath, userId)] on the local files
    [fs], reading the collection [db]. *)
Definition createExerciseFile (db : Collection) (fs : Files)
    (section : LessonSection) (exercisesPath : string) (userId : option string)
  : Files * Outcome :=
  let language := Js.or_else (sec_language section) "python" in
  let filePath := Paths.exerciseFilePath exercisesPath section in
  let exists_ := fileExists fs filePath in
  let studentAnswer :=
    match Js.truthy userId with
    | Some u =>
        match getStudentAnswer db (sec_id section) u with
        | Some answer => Js.truthy (ans_answer answer)
        | None => None
        end
    | None => None
    end in
  match studentAnswer with
  | Some a => (<[filePath := a]> fs, SyncedFromRemote)
  | None =>
      if negb exists_ then
        let starterCode := Js.or_else (sec_starterValue section) "" in
        let content :=
          Js.or_else (Some starterCode)
            (getDefaultBoilerplate language (sec_title section)) in
        (<[filePath := content]> fs, CreatedWithStarter)
      else (fs, PreservedLocal)
  end.

End Workspace.

(** ** Input classification ([InputMetricsTracker]) *)

Module Metrics.

Definition PASTE_CHAR_THRESHOLD : nat := 2.

Record FileMetrics := {
  keystrokeCount : Z;
  pasteCount : Z;
  pasteCharCount : Z;
  firstInputAt : option Z;
  lastInputAt : option Z;
}.

Abbreviation Tracker := (gmap string FileMetrics).

Definition fresh : FileMetrics :=
  {| keystrokeCount := 0; pasteCount := 0; pasteCharCount := 0;
     firstInputAt := None; lastInputAt := None |}.

Inductive Kind := Keystroke | Paste.

(** The body of the loop over [e.contentChanges]: what one inserted text
    counts as. *)
Definition classify (insertedText : string) : Kind :=
  if (String.length insertedText =? 0)%nat then Keystroke
  else
    let isNewlineWithIndent := Js.newline_then_spaces insertedText in
    if ((String.length insertedText <=? PASTE_CHAR_THRESHOLD)%nat
        || isNewlineWithIndent)%bool
    then Keystroke
    else Paste.

Definition count_change (m : FileMetrics) (insertedText : string) : FileMetrics :=
  match classify insertedText with
  | Keystroke =>
      {| keystrokeCount := keystrokeCount m + 1;
         pasteCount := pasteCount m;
         pasteCharCount := pasteCharCount m;
         firstInputAt := firstInputAt m;
         lastInputAt := lastInputAt m |}
  | Paste =>
      {| keystrokeCount := keystrokeCount m;
         pasteCount := pasteCount m + 1;
         pasteCharCount :=
           pasteCharCount m + Z.of_nat (String.length insertedText);
         firstInputAt := firstInputAt m;
         lastInputAt := lastInputAt m |}
  end.

(** The entry [getOrCreate] returns; the caller stores what it makes of it
    under the lower-cased path. *)
Definition getOrCreate (t : Tracker) (filePath : string) : FileMetrics :=
  default fresh (t !! Js.toLowerCase filePath).

Definition stamp (now : Z) (m : FileMetrics) : FileMetrics :=
  {| keystrokeCount := keystrokeCount m;
     pasteCount := pasteCount m;
     pasteCharCount := pasteCharCount m;
     firstInputAt := Some (default now (firstInputAt m));
     lastInputAt := Some now |}.

(** [handleDocumentChange(e)] for the document at [filePath] with the
    inserted texts [contentChanges], at time [now]. *)
Definition handleDocumentChange (now : Z) (filePath : string)
    (contentChanges : list string) (t : Tracker) : Tracker :=
  if negb (Js.includes filePath "exercise_") then t
  else match contentChanges with
       | [] => t
       | _ =>
           let m := stamp now (getOrCreate t filePath) in
           <[Js.toLowerCase filePath := fold_left count_change contentChanges m]> t
       end.

(** [getAndReset(filePath, charCount)] at time [now]: the snapshot and the
    tracker without the entry. *)
Definition getAndReset (now : Z) (filePath : string) (charCount : Z)
    (t : Tracker) : InputMetrics * Tracker :=
  let key := Js.toLowerCase filePath in
  let m := t !! key in
  let duration :=
    match m with
    | Some {| firstInputAt := Some f; lastInputAt := Some l |} =>
        Z.max 0 (l - f)
    | _ => 0%Z
    end in
  ({| im_keystrokeCount := default 0%Z (keystrokeCount <$> m);
      im_pasteCount := default 0%Z (pasteCount <$> m);
      im_pasteCharCount := default 0%Z (pasteCharCount <$> m);
      im_editDurationMs := duration;
      im_charCount := charCount;
      im_firstInputAt := default now (m ≫= firstInputAt);
      im_lastInputAt := default now (m ≫= lastInputAt) |},
   delete key t).

End Metrics.

(** ** Debounced pushes ([FileSyncManager]) on the event loop

    The manager runs on one event loop. A state holds the fields of the
    manager and the part of the environment its callbacks read: the clock,
    the armed timers of the runtime, the [syncFile] calls suspended at an
    [await], the signed-in user, the workspace folder, the local files and
    the answer collection. An event is one callback run to its next
    suspension point. *)

Module Sync.

Import Firebase.

Record Timer := {
  tm_path : string;
  tm_courseId : string;
  tm_due : Z;
}.

(** Where a [syncFile] call is suspended. *)
Inductive Stage :=
  | AwaitRead
  | AwaitSave (content : string) (inputMetrics : InputMetrics).

(** Who awaits the call: the timer callback of [queueSync], which deletes
    the [pendingSaves] entry of the path afterwards, or [syncCurrentFile]. *)
Inductive Caller := TimerCallback | ManualCall.

Record Task := {
  tk_path : string;
  tk_courseId : string;
  tk_section : LessonSection;
  tk_userId : string;
  tk_stage : Stage;
  tk_caller : Caller;
}.

(** A call of [saveStudentAnswer] as [syncFile] writes it, with its seven
    arguments. *)
Record UpsertCall := {
  up_path : string;
  up_sectionId : string;
  up_userId : string;
  up_lessonId : string;
  up_content : string;
  up_courseId : string;
  up_inputMetrics : InputMetrics;
  up_at : Z;
}.

(** The fields of [FileSyncManager]. [fileWatcher] holds the workspace
    folder the watcher was created for and the [courseId] its callback
    closes over. *)
Record Manager := {
  fileWatcher : option (string * string);
  pendingSaves : gmap string nat;
  syncInProgress : gset string;
  fileToSectionMap : gmap string LessonSection;
  trackedLessons : gset string;
  currentCourseId : option string;
  metricsTracker : gmap string Metrics.FileMetrics;
}.

Record Env := {
  clock : Z;
  timers : gmap nat Timer;
  nextTimer : nat;
  tasks : list Task;
  userId : option string;
  workspaceRoot : option string;
  files : gmap string string;
  db : Collection;
  upserts : list UpsertCall;
}.

Record State := { mgr : Manager; env : Env }.

Definition set_fileWatcher (v : option (string * string)) (m : Manager) : Manager :=
  {| fileWatcher := v; pendingSaves := pendingSaves m;
     syncInProgress := syncInProgress m; fileToSectionMap := fileToSectionMap m;
     trackedLessons := trackedLessons m; currentCourseId := currentCourseId m;
     metricsTracker := metricsTracker m |}.

Definition set_pendingSaves (v : gmap string nat) (m : Manager) : Manager :=
  {| fileWatcher := fileWatcher m; pendingSaves := v;
     syncInProgress := syncInProgress m; fileToSectionMap := fileToSectionMap m;
     trackedLessons := trackedLessons m; currentCourseId := currentCourseId m;
     metricsTracker := metricsTracker m |}.

Definition set_syncInProgress (v : gset string) (m : Manager) : Manager :=
  {| fileWatcher := fileWatcher m; pendingSaves := pendingSaves m;
     syncInProgress := v; fileToSectionMap := fileToSectionMap m;
     trackedLessons := trackedLessons m; currentCourseId := currentCourseId m;
     metricsTracker := metricsTracker m |}.

Definition set_fileToSectionMap (v : gmap string LessonSection) (m : Manager) : Manager :=
  {| fileWatcher := fileWatcher m; pendingSaves := pendingSaves m;
     syncInProgress := syncInProgress m; fileToSectionMap := v;
     trackedLessons := trackedLessons m; currentCourseId := currentCourseId m;
     metricsTracker := metricsTracker m |}.

Definition set_trackedLessons (v : gset string) (m : Manager) : Manager :=
  {| fileWatcher := fileWatcher m; pendingSaves := pendingSaves m;
     syncInProgress := syncInProgress m; fileToSectionMap := fileToSectionMap m;
     trackedLessons := v; currentCourseId := currentCourseId m;
     metricsTracker := metricsTracker m |}.

Definition set_currentCourseId (v : option string) (m : Manager) : Manager :=
  {| fileWatcher := fileWatcher m; pendingSaves := pendingSaves m;
     syncInProgress := syncInProgress m; fileToSectionMap := fileToSectionMap m;
     trackedLessons := trackedLessons m; currentCourseId := v;
     metricsTracker := metricsTracker m |}.

Definition set_metricsTracker (v : gmap string Metrics.FileMetrics) (m : Manager) : Manager :=
  {| fileWatcher := fileWatcher m; pendingSaves := pendingSaves m;
     syncInProgress := syncInProgress m; fileToSectionMap := fileToSectionMap m;
     trackedLessons := trackedLessons m; currentCourseId := currentCourseId m;
     metricsTracker := v |}.

Definition set_clock (v : Z) (e : Env) : Env :=
  {| clock := v; timers := timers e; nextTimer := nextTimer e; tasks := tasks e;
     userId := userId e; workspaceRoot := workspaceRoot e; files := files e;
     db := db e; upserts := upserts e |}.

Definition set_timers (v : gmap nat Timer) (e : Env) : Env :=
  {| clock := clock e; timers := v; nextTimer := nextTimer e; tasks := tasks e;
     userId := userId e; workspaceRoot := workspaceRoot e; files := files e;
     db := db e; upserts := upserts e |}.

Definition set_nextTimer (v : nat) (e : Env) : Env :=
  {| clock := clock e; timers := timers e; nextTimer := v; tasks := tasks e;
     userId := userId e; workspaceRoot := workspaceRoot e; files := files e;
     db := db e; upserts := upserts e |}.

Definition set_tasks (v : list Task) (e : Env) : Env :=
  {| clock := clock e; timers := timers e; nextTimer := nextTimer e; tasks := v;
     userId := userId e; workspaceRoot := workspaceRoot e; files := files e;
     db := db e; upserts := upserts e |}.

Definition set_userId (v : option string) (e : Env) : Env :=
  {| clock := clock e; timers := timers e; nextTimer := nextTimer e; tasks := tasks e;
     userId := v; workspaceRoot := workspaceRoot e; files := files e;
     db := db e; upserts := upserts e |}.

Definition set_workspaceRoot (v : option string) (e : Env) : Env :=
  {| clock := clock e; timers := timers e; nextTimer := nextTimer e; tasks := tasks e;
     userId := userId e; workspaceRoot := v; files := files e;
     db := db e; upserts := upserts e |}.

Definition set_files (v : gmap string string) (e : Env) : Env :=
  {| clock := clock e; timers := timers e; nextTimer := nextTimer e; tasks := tasks e;
     userId := userId e; workspaceRoot := workspaceRoot e; files := v;
     db := db e; upserts := upserts e |}.

Definition set_db (v : Collection) (e : Env) : Env :=
  {| clock := clock e; timers := timers e; nextTimer := nextTimer e; tasks := tasks e;
     userId := userId e; workspaceRoot := workspaceRoot e; files := files e;
     db := v; upserts := upserts e |}.

Definition set_upserts (v : list UpsertCall) (e : Env) : Env :=
  {| clock := clock e; timers := timers e; nextTimer := nextTimer e; tasks := tasks e;
     userId := userId e; workspaceRoot := workspaceRoot e; files := files e;
     db := db e; upserts := v |}.

Definition on_mgr (f : Manager -> Manager) (st : State) : State :=
  {| mgr := f (mgr st); env := env st |}.

Definition on_env (f : Env -> Env) (st : State) : State :=
  {| mgr := mgr st; env := f (env st) |}.

(** The manager after its constructor. *)
Definition new_manager : Manager :=
  {| fileWatcher := None; pendingSaves := ∅; syncInProgress := ∅;
     fileToSectionMap := ∅; trackedLessons := ∅; currentCourseId := None;
     metricsTracker := ∅ |}.

(** A state in which the manager has just been constructed. *)
Definition initial (now : Z) (user root : option string)
    (fs : gmap string string) (answers : Collection) : State :=
  {| mgr := new_manager;
     env := {| clock := now; timers := ∅; nextTimer := 0; tasks := [];
               userId := user; workspaceRoot := root; files := fs;
               db := answers; upserts := [] |} |}.

(** [stopWatching()]. The maps are cleared; [clearTimeout] is not called, so
    the timers of the runtime stay armed, and [syncInProgress] is kept. *)
Definition stopWatching (m : Manager) : Manager :=
  {| fileWatcher := None; pendingSaves := ∅;
     syncInProgress := syncInProgress m; fileToSectionMap := ∅;
     trackedLessons := ∅; currentCourseId := None;
     metricsTracker := metricsTracker m |}.

(** [startCourseWatcher(courseId)], with [root] the first workspace folder. *)
Definition startCourseWatcher (root : option string) (courseId : string)
    (m : Manager) : Manager :=
  match Js.truthy root with
  | None => m
  | Some r => set_fileWatcher (Some (r, courseId)) m
  end.

(** The body of the loop of [trackLesson] over [sections]. *)
Definition track_section (exercisesPath : string)
    (map : gmap string LessonSection) (section : LessonSection)
  : gmap string LessonSection :=
  match sec_type section with
  | TypeCode =>
      <[Js.toLowerCase (Paths.exerciseFilePath exercisesPath section) := section]> map
  | _ => map
  end.

(** [trackLesson(exercisesPath, lessonId, sections, courseId)]. *)
Definition trackLesson (root : option string) (exercisesPath lessonId : string)
    (sections : list LessonSection) (courseId : string) (m : Manager) : Manager :=
  let m1 :=
    match Js.truthy (currentCourseId m) with
    | Some c => if decide (c = courseId) then m else stopWatching m
    | None => m
    end in
  let m2 := set_currentCourseId (Some courseId) m1 in
  let m3 := set_trackedLessons ({[lessonId]} ∪ trackedLessons m2) m2 in
  let m4 :=
    set_fileToSectionMap
      (fold_left (track_section exercisesPath) sections (fileToSectionMap m3)) m3 in
  match fileWatcher m4 with
  | None => startCourseWatcher root courseId m4
  | Some _ => m4
  end.

Definition DEFAULT_DELAY_MS : Z := 2000.

(** [queueSync(filePath, _, courseId, delayMs)]: [clearTimeout] on the handle
    recorded for the path, then [setTimeout] and the new handle recorded. *)
Definition queueSync (filePath courseId : string) (delayMs : Z) (st : State) : State :=
  let armed :=
    match pendingSaves (mgr st) !! filePath with
    | Some existingTimeout => delete existingTimeout (timers (env st))
    | None => timers (env st)
    end in
  let h := nextTimer (env st) in
  let timeout :=
    {| tm_path := filePath; tm_courseId := courseId;
       tm_due := clock (env st) + delayMs |} in
  on_mgr (set_pendingSaves (<[filePath := h]> (pendingSaves (mgr st))))
    (on_env (fun e => set_nextTimer (S h) (set_timers (<[h := timeout]> armed) e)) st).

(** What runs when the promise of [syncFile] is settled: the timer callback
    resumes with [pendingSaves.delete(filePath)]. *)
Definition resume_caller (caller : Caller) (filePath : string) (st : State) : State :=
  match caller with
  | TimerCallback =>
      on_mgr (fun m => set_pendingSaves (delete filePath (pendingSaves m)) m) st
  | ManualCall => st
  end.

(** The [finally] block of [syncFile]. *)
Definition unmark (filePath : string) (st : State) : State :=
  on_mgr (fun m => set_syncInProgress (syncInProgress m ∖ {[filePath]}) m) st.

(** [syncFile(filePath, courseId)] up to its first [await]. *)
Definition syncFile (caller : Caller) (filePath courseId : string) (st : State) : State :=
  match fileToSectionMap (mgr st) !! Js.toLowerCase filePath with
  | None => resume_caller caller filePath st
  | Some section =>
      if decide (filePath ∈ syncInProgress (mgr st)) then
        resume_caller caller filePath st
      else
        let st1 :=
          on_mgr (fun m => set_syncInProgress ({[filePath]} ∪ syncInProgress m) m) st in
        match Js.truthy (userId (env st1)) with
        | None => resume_caller caller filePath (unmark filePath st1)
        | Some u =>
            let task :=
              {| tk_path := filePath; tk_courseId := courseId;
                 tk_section := section; tk_userId := u;
                 tk_stage := AwaitRead; tk_caller := caller |} in
            on_env (fun e => set_tasks (tasks e ++ [task])%list e) st1
        end
  end.

(** The end of a suspended call: the task is gone, [finally] runs and the
    caller resumes. *)
Definition settle (i : nat) (k : Task) (st : State) : State :=
  resume_caller (tk_caller k) (tk_path k)
    (unmark (tk_path k) (on_env (fun e => set_tasks (delete i (tasks e)) e) st)).

(** [fs.readFile] of the task at [i] is served: on success [getAndReset] and
    the call of [saveStudentAnswer]; on failure [catch] and [finally]. *)
Definition readDone (i : nat) (st : State) : option State :=
  match tasks (env st) !! i with
  | Some k =>
      match tk_stage k with
      | AwaitRead =>
          match files (env st) !! tk_path k with
          | None => Some (settle i k st)
          | Some content =>
              let '(inputMetrics, tracker) :=
                Metrics.getAndReset (clock (env st)) (tk_path k)
                  (Z.of_nat (String.length content)) (metricsTracker (mgr st)) in
              let call :=
                {| up_path := tk_path k; up_sectionId := sec_id (tk_section k);
                   up_userId := tk_userId k;
                   up_lessonId := sec_lessonId (tk_section k);
                   up_content := content; up_courseId := tk_courseId k;
                   up_inputMetrics := inputMetrics; up_at := clock (env st) |} in
              let k' :=
                {| tk_path := tk_path k; tk_courseId := tk_courseId k;
                   tk_section := tk_section k; tk_userId := tk_userId k;
                   tk_stage := AwaitSave content inputMetrics;
                   tk_caller := tk_caller k |} in
              Some (on_mgr (set_metricsTracker tracker)
                      (on_env (fun e =>
                                 set_upserts (upserts e ++ [call])%list
                                   (set_tasks (<[i := k']> (tasks e)) e)) st))
          end
      | AwaitSave _ _ => None
      end
  | None => None
  end.

(** [saveStudentAnswer] of the task at [i] is settled: fulfilled ([ok]) with
    the collection written, or rejected with the collection as it was. The
    query and the write of [saveStudentAnswer] are one step here: no other
    writer of the collection is modelled between them (calls that overlap
    are taken apart in [Overlap]). *)
Definition saveDone (i : nat) (ok : bool) (st : State) : option State :=
  match tasks (env st) !! i with
  | Some k =>
      match tk_stage k with
      | AwaitSave content _ =>
          let st1 :=
            if ok then
              on_env (fun e =>
                set_db (saveStudentAnswer (clock e) (sec_id (tk_section k))
                          (tk_userId k) (sec_lessonId (tk_section k)) content
                          AnswerCode (Some (tk_courseId k)) (db e)) e) st
            else st in
          Some (settle i k st1)
      | AwaitRead => None
      end
  | None => None
  end.

(** [syncCurrentFile(filePath)]. *)
Definition syncCurrentFile (filePath : string) (st : State) : State :=
  match Js.truthy (currentCourseId (mgr st)) with
  | Some c =>
      if (size (fileToSectionMap (mgr st)) =? 0)%nat then st
      else syncFile ManualCall filePath c st
  | None => st
  end.

Fixpoint ends_with (s suffix : string) : bool :=
  if decide (s = suffix) then true
  else match s with
       | EmptyString => false
       | String _ r => ends_with r suffix
       end.

(** The pattern [topics/**/*.{py,java,cs,ts,js}] relative to [root]. *)
Definition watched (root fsPath : string) : bool :=
  (String.prefix (root +:+ "/topics/") fsPath
   && existsb (ends_with fsPath) [".py"; ".java"; ".cs"; ".ts"; ".js"])%bool.

Inductive Event :=
  | TrackLesson (exercisesPath lessonId : string)
      (sections : list LessonSection) (courseId : string)
  | StopWatching
  | FileChanged (fsPath : string)
  | TimerFires (h : nat)
  | ReadDone (i : nat)
  | SaveDone (i : nat) (ok : bool)
  | SyncCurrentFile (filePath : string)
  | DocumentChanged (fsPath : string) (contentChanges : list string)
  | FileWritten (fsPath content : string)
  | Elapse (ms : Z)
  | UserChanged (user : option string)
  | FolderChanged (root : option string).

(** One callback. [None] when the event cannot happen in the state: a file
    event the watcher does not deliver, a timer that is not armed or not due,
    a promise that is not pending, a clock running backwards. *)
Definition step (ev : Event) (st : State) : option State :=
  match ev with
  | TrackLesson exercisesPath lessonId sections courseId =>
      Some (on_mgr (trackLesson (workspaceRoot (env st)) exercisesPath lessonId
                      sections courseId) st)
  | StopWatching => Some (on_mgr stopWatching st)
  | FileChanged fsPath =>
      match fileWatcher (mgr st) with
      | Some (root, courseId) =>
          if watched root fsPath
          then Some (queueSync fsPath courseId DEFAULT_DELAY_MS st)
          else None
      | None => None
      end
  | TimerFires h =>
      match timers (env st) !! h with
      | Some t =>
          if (tm_due t <=? clock (env st))%Z then
            Some (syncFile TimerCallback (tm_path t) (tm_courseId t)
                    (on_env (fun e => set_timers (delete h (timers e)) e) st))
          else None
      | None => None
      end
  | ReadDone i => readDone i st
  | SaveDone i ok => saveDone i ok st
  | SyncCurrentFile filePath => Some (syncCurrentFile filePath st)
  | DocumentChanged fsPath contentChanges =>
      Some (on_mgr (fun m =>
              set_metricsTracker
                (Metrics.handleDocumentChange (clock (env st)) fsPath
                   contentChanges (metricsTracker m)) m) st)
  | FileWritten fsPath content =>
      Some (on_env (fun e => set_files (<[fsPath := content]> (files e)) e) st)
  | Elapse ms =>
      if (0 <=? ms)%Z then Some (on_env (fun e => set_clock (clock e + ms) e) st)
      else None
  | UserChanged user => Some (on_env (set_userId user) st)
  | FolderChanged root => Some (on_env (set_workspaceRoot root) st)
  end.

Fixpoint run (evs : list Event) (st : State) : option State :=
  match evs with
  | [] => Some st
  | ev :: rest =>
      match step ev st with
      | Some st' => run rest st'
      | None => None
      end
  end.

(** The suspended [syncFile] calls of a path. *)
Definition pushing (filePath : string) (st : State) : list Task :=
  List.filter (fun k => bool_decide (tk_path k = filePath)) (tasks (env st)).

(** The armed timers of a path. *)
Definition armed (filePath : string) (st : State) : list (nat * Timer) :=
  List.filter (fun ht => bool_decide (tm_path ht.2 = filePath))
    (map_to_list (timers (env st))).

End Sync.

(** ** Definitions used to state the properties *)

Module Spec.

(** The slug in the words of the specification: the lower-cased title is cut
    into its maximal runs of characters of [[a-z0-9]]; the runs are joined
    with one underscore between two of them, none in front and none behind. *)
Fixpoint take_word (s : string) : string :=
  match s with
  | EmptyString => EmptyString
  | String c r => if Js.is_alnum c then String c (take_word r) else EmptyString
  end.

Fixpoint words (in_word : bool) (s : string) : list string :=
  match s with
  | EmptyString => []
  | String c r =>
      if Js.is_alnum c then
        if in_word then words true r else take_word s :: words true r
      else words false r
  end.

Fixpoint join_us (ws : list string) : string :=
  match ws with
  | [] => EmptyString
  | w :: rest =>
      match rest with
      | [] => w
      | _ :: _ => w +:+ "_" +:+ join_us rest
      end
  end.

Definition slug (title : string) : string :=
  join_us (words false (Js.toLowerCase title)).

Fixpoint all_chars (P : ascii -> bool) (s : string) : bool :=
  match s with
  | EmptyString => true
  | String c r => (P c && all_chars P r)%bool
  end.

(** No underscore occurs in the string. *)
Definition free_of_us (s : string) : bool :=
  all_chars (fun c => negb (Js.is_us c)) s.

(** Lower-casing leaves every character of the string as it is. *)
Definition lower_stable (s : string) : bool :=
  all_chars (fun c => bool_decide (Js.lower_char c = c)) s.

(** Single characters typed one event at a time, each at its own time. *)
Definition type_chars (filePath : string) (keys : list (Z * ascii))
    (t : gmap string Metrics.FileMetrics) : gmap string Metrics.FileMetrics :=
  fold_left
    (fun t key =>
       Metrics.handleDocumentChange key.1 filePath [String key.2 EmptyString] t)
    keys t.

(** The marks of [syncInProgress] and the suspended [syncFile] calls agree:
    no two calls are suspended for one path, and a path is marked exactly
    when a call is suspended for it. *)
Definition exclusive (st : Sync.State) : Prop :=
  NoDup (Sync.tk_path <$> Sync.tasks (Sync.env st))
  /\ forall p, p ∈ Sync.syncInProgress (Sync.mgr st)
              <-> p ∈ (Sync.tk_path <$> Sync.tasks (Sync.env st)).

(** Every armed timer of the path is the one [pendingSaves] records for it,
    and the handles in use are below the next handle. *)
Definition recorded (p : string) (st : Sync.State) : Prop :=
  forall h t,
    Sync.timers (Sync.env st) !! h = Some t ->
    (h < Sync.nextTimer (Sync.env st))%nat
    /\ (Sync.tm_path t = p -> Sync.pendingSaves (Sync.mgr st) !! p = Some h).

(** At most one record of the collection for a section and a user. *)
Definition single_record (db : Firebase.Collection) : Prop :=
  forall sectionId userId, (length (Firebase.query db sectionId userId) <= 1)%nat.

End Spec.

(** ** Sample data *)

Module Examples.

Import Firebase.

Definition root : string := "/home/ada/cs-platform-workspace/ada/algorithms".

Definition exercises : string := root +:+ "/topics/loops/lesson-1/exercises".

Definition intro_loops : LessonSection :=
  {| sec_id := "sec-loops"; sec_lessonId := "lesson-1";
     sec_title := "Intro to Loops!!"; sec_content := "";
     sec_type := TypeCode; sec_orderIndex := 3;
     sec_language := Some "python"; sec_starterValue := None |}.

Definition arrays : LessonSection :=
  {| sec_id := "sec-arrays"; sec_lessonId := "lesson-1";
     sec_title := "Arrays"; sec_content := "";
     sec_type := TypeCode; sec_orderIndex := 4;
     sec_language := Some "java"; sec_starterValue := Some "class Main {}" |}.

(** The same exercise as a later fetch returns it, its text edited. *)
Definition intro_loops_again : LessonSection :=
  {| sec_id := "sec-loops"; sec_lessonId := "lesson-1";
     sec_title := "Intro to Loops!!"; sec_content := "Write a loop.";
     sec_type := TypeCode; sec_orderIndex := 3;
     sec_language := Some "python"; sec_starterValue := None |}.

Definition intro_loops_path : string :=
  exercises +:+ "/exercise_3_intro_to_loops.py".

(** A saved answer of the user [ada] for [intro_loops]. *)
Definition saved (content : string) : AnswerDoc :=
  {| ans_sectionId := "sec-loops"; ans_userId := "ada";
     ans_lessonId := "lesson-1"; ans_answer := Some content;
     ans_type := AnswerCode; ans_courseId := Some "algorithms";
     ans_createdAt := 1000; ans_updatedAt := 1000;
     ans_inputMetrics := None |}.

(** An exercise in a language without an entry in the tables. *)
Definition pseudocode : LessonSection :=
  {| sec_id := "sec-pseudo"; sec_lessonId := "lesson-1";
     sec_title := "Plan it first"; sec_content := "";
     sec_type := TypeCode; sec_orderIndex := 5;
     sec_language := Some "pseudocode"; sec_starterValue := None |}.

Definition lesson_folder : string := root +:+ "/topics/loops/lesson-1".

(** A block of 50 characters. *)
Definition fifty : string :=
  "for i in range(10):  print(i)  # ten lines of text".

Definition half_finished : gmap string string :=
  {[ intro_loops_path := "for i in range(" ]}.

(** The manager just constructed: [ada] signed in, the course folder open,
    the exercise file on disk. *)
Definition start : Sync.State :=
  Sync.initial 0 (Some "ada") (Some root) {[ intro_loops_path := "a" ]} [].

Definition open_lesson : Sync.Event :=
  Sync.TrackLesson exercises "lesson-1" [intro_loops] "algorithms".

(** The state after the lesson has been opened. *)
Definition opened : Sync.State :=
  Sync.on_mgr
    (Sync.trackLesson (Some root) exercises "lesson-1" [intro_loops] "algorithms")
    start.

(** A save is requested twice before the file has been read. *)
Definition two_triggers : list Sync.Event :=
  [open_lesson;
   Sync.SyncCurrentFile intro_loops_path;
   Sync.SyncCurrentFile intro_loops_path].

(** A first save is pushed. While its write is pending the file is saved
    again (time 2000); the write completes (2100); the file is saved once
    more (2800), 800 ms after the previous save. *)
Definition race_window : list Sync.Event :=
  [open_lesson;
   Sync.FileChanged intro_loops_path;
   Sync.Elapse 2000;
   Sync.TimerFires 0;
   Sync.ReadDone 0;
   Sync.FileWritten intro_loops_path "ab";
   Sync.FileChanged intro_loops_path;
   Sync.Elapse 100;
   Sync.SaveDone 0 true;
   Sync.Elapse 700;
   Sync.FileWritten intro_loops_path "abc";
   Sync.FileChanged intro_loops_path].

(** Both timers of the window come due and push. *)
Definition race_pushes : list Sync.Event :=
  [Sync.Elapse 1200;
   Sync.TimerFires 1;
   Sync.ReadDone 0;
   Sync.SaveDone 0 true;
   Sync.Elapse 800;
   Sync.TimerFires 2;
   Sync.ReadDone 0;
   Sync.SaveDone 0 true].

(** A section of another course whose exercise file has the same name. *)
Definition loops_sql : LessonSection :=
  {| sec_id := "sec-sql-loops"; sec_lessonId := "lesson-7";
     sec_title := "Intro to loops"; sec_content := "";
     sec_type := TypeCode; sec_orderIndex := 3;
     sec_language := Some "python"; sec_starterValue := None |}.

Definition exercises_sql : string :=
  "/home/ada/cs-platform-workspace/ada/databases/topics/sql/lesson-7/exercises".

(** An edit in the course [algorithms], then a lesson of the course
    [databases] is opened, then the first lesson again. *)
Definition switch_and_back : list Sync.Event :=
  [open_lesson;
   Sync.FileChanged intro_loops_path;
   Sync.Elapse 500;
   Sync.TrackLesson exercises_sql "lesson-7" [loops_sql] "databases";
   Sync.Elapse 500;
   open_lesson].

(** An edit in the course [algorithms], then a lesson of the course
    [databases] is opened whose exercises are in the same folder. *)
Definition switch_same_folder : list Sync.Event :=
  [open_lesson;
   Sync.FileChanged intro_loops_path;
   Sync.Elapse 500;
   Sync.TrackLesson exercises "lesson-7" [loops_sql] "databases"].

(** The timer armed before the switch comes due and its push completes. *)
Definition stale_timer_pushes : list Sync.Event :=
  [Sync.Elapse 1500;
   Sync.TimerFires 0;
   Sync.ReadDone 0;
   Sync.SaveDone 0 true].

(** The user types one character and pastes a line, saves, and the push of
    the save completes; an answer was saved before. *)
Definition push_with_metrics : list Sync.Event :=
  [open_lesson;
   Sync.DocumentChanged intro_loops_path ["p"];
   Sync.Elapse 300;
   Sync.DocumentChanged intro_loops_path ["rint(2)"];
   Sync.FileWritten intro_loops_path "print(2)";
   Sync.Elapse 200;
   Sync.SyncCurrentFile intro_loops_path;
   Sync.ReadDone 0;
   Sync.Elapse 50;
   Sync.SaveDone 0 true].

Definition start_saved : Sync.State :=
  Sync.initial 5000 (Some "ada") (Some root)
    {[ intro_loops_path := "print(1)" ]} [saved "print(1)"].

End Examples.

(** ** Shapes of strings used to state the properties of the slug *)

Module Slug.

Definition starts_us (s : string) : bool :=
  match s with
  | EmptyString => false
  | String c _ => Js.is_us c
  end.

Fixpoint ends_us (s : string) : bool :=
  match s with
  | EmptyString => false
  | String c r =>
      match r with
      | EmptyString => Js.is_us c
      | String _ _ => ends_us r
      end
  end.

(** Two underscores stand side by side somewhere in the string. *)
Fixpoint double_us (s : string) : bool :=
  match s with
  | EmptyString => false
  | String c r => ((Js.is_us c && starts_us r) || double_us r)%bool
  end.

(** The strings made of [a-z], [0-9] and single underscores between them. *)
Definition is_slug (s : string) : bool :=
  (Spec.all_chars (fun c => (Js.is_alnum c || Js.is_us c)%bool) s
   && negb (starts_us s) && negb (ends_us s) && negb (double_us s))%bool.

End Slug.

(** ** Further definitions used to state properties *)

Module Props.

Fixpoint last_char (s : string) : option ascii :=
  match s with
  | EmptyString => None
  | String c r =>
      match r with
      | EmptyString => Some c
      | String _ _ => last_char r
      end
  end.

(** The language of a section as [trackLesson] and [createExerciseFile]
    read it. *)
Definition language_of (s : LessonSection) : string :=
  Js.or_else (sec_language s) "python".

(** The language has an entry in the table of extensions. *)
Definition known_language (s : LessonSection) : bool :=
  bool_decide (is_Some (Paths.table_get Paths.extensions
                          (Js.toLowerCase (language_of s)))).

(** What [createExerciseFile] does to the file of a section, read off the
    collection alone: the saved answer replaces the file, or the starter
    (or the template) fills a missing file. *)
Inductive Action :=
  | Overwrite (content : string)
  | CreateIfMissing (content : string).

Definition action_of (db : Firebase.Collection) (section : LessonSection)
    (userId : option string) : Action :=
  match
    match Js.truthy userId with
    | Some u =>
        match Firebase.getStudentAnswer db (sec_id section) u with
        | Some answer => Js.truthy (Firebase.ans_answer answer)
        | None => None
        end
    | None => None
    end
  with
  | Some a => Overwrite a
  | None =>
      CreateIfMissing
        (Js.or_else (sec_starterValue section)
           (Workspace.getDefaultBoilerplate (language_of section)
              (sec_title section)))
  end.

(** The content of one path after an action on it. *)
Definition act_at (a : Action) (o : option string) : option string :=
  match a with
  | Overwrite c => Some c
  | CreateIfMissing c => Some (default c o)
  end.

(** A function on the content of a path that leaves it, sets it, or fills
    it when missing. *)
Definition settling (f : option string -> option string) : Prop :=
  (forall o, f o = o)
  \/ (exists c, forall o, f o = Some c)
  \/ (exists c, forall o, f o = Some (default c o)).

(** The arguments of one call of [saveStudentAnswer]. *)
Record Save := {
  sv_now : Z;
  sv_sectionId : string;
  sv_userId : string;
  sv_lessonId : string;
  sv_content : string;
  sv_type : Firebase.AnswerType;
  sv_courseId : option string;
}.

Definition apply_save (db : Firebase.Collection) (s : Save) : Firebase.Collection :=
  Firebase.saveStudentAnswer (sv_now s) (sv_sectionId s) (sv_userId s)
    (sv_lessonId s) (sv_content s) (sv_type s) (sv_courseId s) db.

(** Two versions of a document that differ in content and update time at
    most. *)
Definition same_identity (d d' : Firebase.AnswerDoc) : Prop :=
  Firebase.ans_sectionId d' = Firebase.ans_sectionId d
  /\ Firebase.ans_userId d' = Firebase.ans_userId d
  /\ Firebase.ans_lessonId d' = Firebase.ans_lessonId d
  /\ Firebase.ans_type d' = Firebase.ans_type d
  /\ Firebase.ans_courseId d' = Firebase.ans_courseId d
  /\ Firebase.ans_createdAt d' = Firebase.ans_createdAt d
  /\ Firebase.ans_inputMetrics d' = Firebase.ans_inputMetrics d.

End Props.

(** ** The files of a lesson ([WorkspaceManager.setupLessonFiles]) *)

Module Lesson.

Import Firebase Workspace.

(** The body of the loop of [createLessonReadme] over the sections. The
    template of the exercise line spells the file name out as
    [createExerciseFile] does. *)
Definition readme_entry (readmeContent : string) (section : LessonSection) : string :=
  let titled := readmeContent +:+ "## " +:+ sec_title section +:+ nl +:+ nl in
  let body :=
    match sec_type section with
    | TypeText => titled +:+ sec_content section +:+ nl +:+ nl
    | TypeCode =>
        let referred :=
          titled +:+ "**Exercise:** See `exercises/"
            +:+ Paths.exerciseFileName section +:+ "`" +:+ nl +:+ nl in
        match Js.truthy (Some (sec_content section)) with
        | Some content => referred +:+ content +:+ nl +:+ nl
        | None => referred
        end
    | TypeVideo => titled +:+ "**Video:** " +:+ sec_content section +:+ nl +:+ nl
    | TypeInteractive =>
        titled +:+ "**Interactive Content**" +:+ nl +:+ nl
          +:+ sec_content section +:+ nl +:+ nl
    end in
  body +:+ "---" +:+ nl +:+ nl.

Definition readme_content (sections : list LessonSection) : string :=
  fold_left readme_entry sections ("# Lesson Content" +:+ nl +:+ nl).

(** [createLessonReadme(lessonId, lessonPath, sections)]. *)
Definition createLessonReadme (lessonPath : string)
    (sections : list LessonSection) (fs : Files) : Files :=
  <[Paths.path_join lessonPath "README.md" := readme_content sections]> fs.

Definition is_code (s : LessonSection) : bool :=
  match sec_type s with
  | TypeCode => true
  | _ => false
  end.

(** [setupLessonFiles(lessonId, lessonPath, exercisesPath)], with [sections]
    what [getSections(lessonId)] returned and [userId] the signed-in user.
    The collection is the same at every read, and no other writer of the
    local files runs between the writes. *)
Definition setupLessonFiles (db : Collection) (fs : Files)
    (lessonPath exercisesPath : string) (sections : list LessonSection)
    (userId : option string) : Files :=
  let fs1 := createLessonReadme lessonPath sections fs in
  let codeSections := List.filter is_code sections in
  fold_left
    (fun fs section => (createExerciseFile db fs section exercisesPath userId).1)
    codeSections fs1.

(** [getExerciseFilePath(section)], with [currentWorkspace] the exercises
    path of the workspace that is set up, if any. *)
Definition getExerciseFilePath (currentWorkspace : option string)
    (section : LessonSection) : option string :=
  match currentWorkspace with
  | None => None
  | Some exercisesPath => Some (Paths.exerciseFilePath exercisesPath section)
  end.

(** [syncExerciseFile(section)]: the local files afterwards and the path
    returned. *)
Definition syncExerciseFile (db : Collection) (fs : Files)
    (currentWorkspace : option string) (section : LessonSection)
    (userId : option string) : Files * option string :=
  match currentWorkspace with
  | None => (fs, None)
  | Some exercisesPath =>
      ((createExerciseFile db fs section exercisesPath userId).1,
       getExerciseFilePath currentWorkspace section)
  end.

End Lesson.

(** ** The writes of [setupLessonFiles], path by path *)

Module LessonProps.

Import Props.

(** The content of the path [q] after the action [op.2] on the path [op.1]. *)
Definition op_at (q : string) (o : option string) (op : string * Action)
  : option string :=
  if decide (q = op.1) then act_at op.2 o else o.

Definition exercise_op (db : Firebase.Collection) (exercisesPath : string)
    (userId : option string) (s : LessonSection) : string * Action :=
  (Paths.exerciseFilePath exercisesPath s, action_of db s userId).

(** The writes of [setupLessonFiles], in order. *)
Definition ops (db : Firebase.Collection) (lessonPath exercisesPath : string)
    (sections : list LessonSection) (userId : option string)
  : list (string * Action) :=
  (Paths.path_join lessonPath "README.md",
   Overwrite (Lesson.readme_content sections))
  :: map (exercise_op db exercisesPath userId)
       (List.filter Lesson.is_code sections).

End LessonProps.

(** ** Counting the changes of a series of edit events *)

Module MetricsProps.

Definition is_paste (insertedText : string) : bool :=
  match Metrics.classify insertedText with
  | Metrics.Paste => true
  | Metrics.Keystroke => false
  end.

Definition keystrokes (changes : list string) : nat :=
  length (List.filter (fun t => negb (is_paste t)) changes).

Definition pastes (changes : list string) : nat :=
  length (List.filter is_paste changes).

Definition pasted_chars (changes : list string) : nat :=
  list_sum (map String.length (List.filter is_paste changes)).

(** Edit events of one document: the time of each and its inserted texts. *)
Definition handle_all (filePath : string) (events : list (Z * list string))
    (t : gmap string Metrics.FileMetrics) : gmap string Metrics.FileMetrics :=
  fold_left (fun t e => Metrics.handleDocumentChange e.1 filePath e.2 t) events t.

Definition has_changes (e : Z * list string) : bool :=
  match e.2 with
  | [] => false
  | _ :: _ => true
  end.

(** The times of the events that carry a change. *)
Definition stamps (events : list (Z * list string)) : list Z :=
  map fst (List.filter has_changes events).

End MetricsProps.

(** ** Definitions for the properties of the tracked-file map and the pushes *)

Module SyncProps.

(** The key of a section in [fileToSectionMap]. *)
Definition key_of (exercisesPath : string) (s : LessonSection) : string :=
  Js.toLowerCase (Paths.exerciseFilePath exercisesPath s).

(** A file path is the exercise file of the section in some folder, up to
    letter case. *)
Definition file_of (filePath : string) (s : LessonSection) : Prop :=
  exists exercisesPath, Js.toLowerCase filePath = key_of exercisesPath s.

(** Every entry of the map is a code section under the key of its file. *)
Definition map_ok (map : gmap string LessonSection) : Prop :=
  forall key s, map !! key = Some s ->
    sec_type s = TypeCode /\ exists exercisesPath, key = key_of exercisesPath s.

Definition task_ok (k : Sync.Task) : Prop :=
  Sync.tk_userId k <> ""
  /\ sec_type (Sync.tk_section k) = TypeCode
  /\ file_of (Sync.tk_path k) (Sync.tk_section k).

Definition upsert_ok (c : Sync.UpsertCall) : Prop :=
  Sync.up_userId c <> ""
  /\ exists s,
       sec_type s = TypeCode /\ file_of (Sync.up_path c) s
       /\ Sync.up_sectionId c = sec_id s /\ Sync.up_lessonId c = sec_lessonId s.

(** What holds of the pushes in every state the manager reaches. *)
Definition pushes_ok (st : Sync.State) : Prop :=
  map_ok (Sync.fileToSectionMap (Sync.mgr st))
  /\ Forall task_ok (Sync.tasks (Sync.env st))
  /\ Forall upsert_ok (Sync.upserts (Sync.env st)).

(** The handle recorded for the path, if armed, is a timer of the path. *)
Definition handle_of_path (p : string) (st : Sync.State) : Prop :=
  forall e t,
    Sync.pendingSaves (Sync.mgr st) !! p = Some e ->
    Sync.timers (Sync.env st) !! e = Some t -> Sync.tm_path t = p.

(** A burst on one file: saves of the file and time passing, nothing else. *)
Definition burst_event (p : string) (ev : Sync.Event) : Prop :=
  ev = Sync.FileChanged p \/ exists ms, ev = Sync.Elapse ms.

(** What a burst keeps, relative to the state [st0] it started in. *)
Definition burst_inv (p root courseId : string) (st0 st : Sync.State) : Prop :=
  Sync.fileWatcher (Sync.mgr st) = Some (root, courseId)
  /\ Spec.recorded p st
  /\ handle_of_path p st
  /\ (forall h t, Sync.tm_path t <> p ->
                  Sync.timers (Sync.env st0) !! h = Some t ->
                  Sync.timers (Sync.env st) !! h = Some t)
  /\ Sync.tasks (Sync.env st) = Sync.tasks (Sync.env st0)
  /\ Sync.upserts (Sync.env st) = Sync.upserts (Sync.env st0).

(** No lesson is tracked in the trace. *)
Definition no_tracking (evs : list Sync.Event) : Prop :=
  forall ev, In ev evs ->
    match ev with
    | Sync.TrackLesson _ _ _ _ => False
    | _ => True
    end.

End SyncProps.

(** ** Code submissions and the sections of a lesson ([FirebaseService]) *)

Module Catalog.

(** A document of the [codeSubmissions] collection. *)
Record CodeSubmission := {
  sub_userId : string;
  sub_lessonId : string;
  sub_exerciseId : string;
  sub_code : string;
  sub_language : string;
  sub_submittedAt : Z;
  sub_source : string;
}.

(** The document id [`${userId}_${lessonId}_${exerciseId}`]. *)
Definition submissionId (userId lessonId exerciseId : string) : string :=
  userId +:+ "_" +:+ lessonId +:+ "_" +:+ exerciseId.

(** [submitExerciseCode(userId, lessonId, exerciseId, code, language)] at
    time [now]: [setDoc] with [merge] of all the fields of the document. *)
Definition submitExerciseCode (now : Z)
    (userId lessonId exerciseId code language : string)
    (submissions : gmap string CodeSubmission) : gmap string CodeSubmission :=
  <[submissionId userId lessonId exerciseId :=
      {| sub_userId := userId; sub_lessonId := lessonId;
         sub_exerciseId := exerciseId; sub_code := code;
         sub_language := language; sub_submittedAt := now;
         sub_source := "vscode" |}]> submissions.

(** [sections.sort((a, b) => a.orderIndex - b.orderIndex)]: the sort of
    arrays is stable, so the result is the one of an insertion sort that puts
    a section before the sections of the same order index that followed
    it. *)
Fixpoint insert_section (s : LessonSection) (sorted : list LessonSection)
  : list LessonSection :=
  match sorted with
  | [] => [s]
  | x :: rest =>
      if (sec_orderIndex s <=? sec_orderIndex x)%Z then s :: sorted
      else x :: insert_section s rest
  end.

Definition sort_sections (sections : list LessonSection) : list LessonSection :=
  fold_right insert_section [] sections.

(** [getSections(lessonId)] on the [sections] collection, in the order in
    which the query returns its documents. *)
Definition getSections (sections : list LessonSection) (lessonId : string)
  : list LessonSection :=
  sort_sections
    (List.filter (fun s => bool_decide (sec_lessonId s = lessonId)) sections).

(** The order of the sections of a lesson. *)
Definition by_index (a b : LessonSection) : Prop :=
  (sec_orderIndex a <= sec_orderIndex b)%Z.

End Catalog.

(** ** Counting triggers and pushes *)

Module CountProps.

Definition is_reading (k : Sync.Task) : bool :=
  match Sync.tk_stage k with
  | Sync.AwaitRead => true
  | Sync.AwaitSave _ _ => false
  end.

(** The suspended calls that have not read their file yet. *)
Definition reading (st : Sync.State) : nat :=
  length (List.filter is_reading (Sync.tasks (Sync.env st))).

(** The calls of [syncFile] in a trace: a timer that fires, a manual sync. *)
Definition triggers (evs : list Sync.Event) : nat :=
  length (List.filter
            (fun ev =>
               match ev with
               | Sync.TimerFires _ | Sync.SyncCurrentFile _ => true
               | _ => false
               end) evs).

Definition pushed (st : Sync.State) : nat := length (Sync.upserts (Sync.env st)).

End CountProps.

(** ** Paths as the watcher sees them *)

Module Watch.

(** The names every object literal inherits from [Object.prototype]. An
    index of the tables of [getFileExtension] and [getCommentSyntax] with
    one of them finds the inherited member and not [undefined], so the
    fallback after [||] is not taken: [Paths.table_get] stands for the index
    with every other key. *)
Definition object_members : list string :=
  ["constructor"; "__proto__"; "hasOwnProperty"; "isPrototypeOf";
   "propertyIsEnumerable"; "toLocaleString"; "toString"; "valueOf";
   "__defineGetter__"; "__defineSetter__"; "__lookupGetter__";
   "__lookupSetter__"].

Definition inherited_key (k : string) : bool :=
  existsb (fun m => bool_decide (m = k)) object_members.

Definition not_separator (c : ascii) : bool := negb (bool_decide (c = "/"%char)).

(** A segment that [path.join] leaves as it is: not empty, not [.] or [..],
    and without a separator. *)
Definition plain_segment (s : string) : bool :=
  (negb (bool_decide (s = "")) && negb (bool_decide (s = "."))
   && negb (bool_decide (s = "..")) && negb (Js.includes s "/"))%bool.

(** The normalised absolute path of the segments, as the [fsPath] of a
    file the watcher reports. *)
Fixpoint of_segments (segs : list string) : string :=
  match segs with
  | [] => EmptyString
  | s :: rest => "/" +:+ s +:+ of_segments rest
  end.

End Watch.

(** ** Calls of [saveStudentAnswer] that overlap

    [saveStudentAnswer] awaits [getDocs] and then [updateDoc] or [addDoc];
    other calls can be served in between. Here a call takes its two steps
    apart: its query is served and it decides, and later its write is
    served. *)

Module Overlap.

Import Firebase Props.

(** What a call has decided when its [getDocs] has been served: to update
    [snapshot.docs[0]], kept by its place in the collection, or to add a
    document. *)
Inductive Decision := Update (ref : nat) | Add.

(** The place of the first document of the query. *)
Fixpoint first_match (sectionId userId : string) (db : Collection) : option nat :=
  match db with
  | [] => None
  | d :: r =>
      if matches sectionId userId d then Some 0%nat
      else S <$> first_match sectionId userId r
  end.

Definition served (db : Collection) (s : Save) : Decision :=
  match first_match (sv_sectionId s) (sv_userId s) db with
  | Some ref => Update ref
  | None => Add
  end.

(** The write of a call on the collection as it is when the write is
    served; [sv_now] is the value of [serverTimestamp()] then. *)
Definition written (s : Save) (d : Decision) (db : list AnswerDoc)
  : list AnswerDoc :=
  match d with
  | Update ref =>
      alter (fun d => {| ans_sectionId := ans_sectionId d;
                         ans_userId := ans_userId d;
                         ans_lessonId := ans_lessonId d;
                         ans_answer := Some (sv_content s);
                         ans_type := ans_type d;
                         ans_courseId := ans_courseId d;
                         ans_createdAt := ans_createdAt d;
                         ans_updatedAt := sv_now s;
                         ans_inputMetrics := ans_inputMetrics d |}) ref db
  | Add =>
      addDoc {| ans_sectionId := sv_sectionId s;
                ans_userId := sv_userId s;
                ans_lessonId := sv_lessonId s;
                ans_answer := Some (sv_content s);
                ans_type := sv_type s;
                ans_courseId := Js.truthy (sv_courseId s);
                ans_createdAt := sv_now s;
                ans_updatedAt := sv_now s;
                ans_inputMetrics := None |} db
  end.

(** The collection and the calls between their query and their write. *)
Record State := {
  docs : Collection;
  pending : list (Save * Decision);
}.

Inductive Event :=
  | GetDocsServed (s : Save)
  | WriteServed (i : nat).

Definition step (ev : Event) (st : State) : option State :=
  match ev with
  | GetDocsServed s =>
      Some {| docs := docs st;
              pending := (pending st ++ [(s, served (docs st) s)])%list |}
  | WriteServed i =>
      match pending st !! i with
      | Some (s, d) =>
          Some {| docs := written s d (docs st);
                  pending := delete i (pending st) |}
      | None => None
      end
  end.

Fixpoint run (evs : list Event) (st : State) : option State :=
  match evs with
  | [] => Some st
  | ev :: rest =>
      match step ev st with
      | Some st' => run rest st'
      | None => None
      end
  end.

(** The section and the user of a call. *)
Definition key (s : Save) : string * string := (sv_sectionId s, sv_userId s).

(** No query is served while another call for the same section and user is
    between its query and its write. *)
Fixpoint apart (evs : list Event) (st : State) : bool :=
  match evs with
  | [] => true
  | ev :: rest =>
      (match ev with
       | GetDocsServed s =>
           forallb (fun p => negb (bool_decide (key p.1 = key s))) (pending st)
       | WriteServed _ => true
       end
       && match step ev st with
          | Some st' => apart rest st'
          | None => true
          end)%bool
  end.

(** The collection holds one answer at most for a section and a user, the
    pending calls are for different sections and users, and a call that
    will add a document has none in the collection yet. *)
Definition settled_apart (st : State) : Prop :=
  Spec.single_record (docs st)
  /\ NoDup ((fun p => key p.1) <$> pending st)
  /\ forall s, (s, Add) ∈ pending st ->
               query (docs st) (sv_sectionId s) (sv_userId s) = [].

(** Nothing pending. *)
Definition quiet (db : Collection) : State := {| docs := db; pending := [] |}.

End Overlap.

(** ** Exercise paths *)

Section PathFacts.

Import Js Paths Spec.

Lemma alnum_not_us c : is_alnum c = true -> is_us c = false.
Proof. destruct c as [[] [] [] [] [] [] [] []]; vm_compute; congruence. Qed.

Lemma lower_char_us c : is_us (lower_char c) = is_us c.
Proof. destruct c as [[] [] [] [] [] [] [] []]; reflexivity. Qed.

Lemma toLowerCase_app s t : toLowerCase (s +:+ t) = toLowerCase s +:+ toLowerCase t.
Proof. induction s as [|c s IH]; simpl; [reflexivity | now rewrite IH]. Qed.

Lemma free_of_us_lower s : free_of_us (toLowerCase s) = free_of_us s.
Proof.
  unfold free_of_us. induction s as [|c s IH]; simpl; [reflexivity|].
  now rewrite lower_char_us, IH.
Qed.

Lemma lower_stable_eq s : lower_stable s = true -> toLowerCase s = s.
Proof.
  unfold lower_stable. induction s as [|c s IH]; simpl; [reflexivity|].
  intros [Hc Hs]%andb_prop. apply bool_decide_eq_true in Hc.
  now rewrite Hc, IH.
Qed.

(** After a run has been entered, the replacement yields nothing or starts
    with a character of the class. *)
Lemma replace_in_run_head s :
  drop_leading_us (replace_non_alnum_runs true s) = replace_non_alnum_runs true s.
Proof.
  induction s as [|c s IH]; simpl; [reflexivity|].
  destruct (is_alnum c) eqn:Hc; [|exact IH].
  simpl. now rewrite (alnum_not_us _ Hc).
Qed.

Lemma drop_leading_replace s :
  drop_leading_us (replace_non_alnum_runs false s) = replace_non_alnum_runs true s.
Proof.
  destruct s as [|c s]; simpl; [reflexivity|].
  destruct (is_alnum c) eqn:Hc; simpl.
  - now rewrite (alnum_not_us _ Hc).
  - apply replace_in_run_head.
Qed.

Lemma words_nil_replace s :
  words false s = [] -> replace_non_alnum_runs true s = EmptyString.
Proof.
  induction s as [|c s IH]; simpl; [reflexivity|].
  destruct (is_alnum c); [discriminate | exact IH].
Qed.

Lemma words_cons_replace s :
  words false s <> [] -> all_us (replace_non_alnum_runs true s) = false.
Proof.
  induction s as [|c s IH]; simpl; [congruence|].
  destruct (is_alnum c) eqn:Hc; [|exact IH].
  intros _. simpl. now rewrite (alnum_not_us _ Hc).
Qed.

Lemma join_us_cons_char c w ws :
  join_us (String c w :: ws) = String c (join_us (w :: ws)).
Proof. destruct ws; reflexivity. Qed.

(** The two replacements of [sanitizeFileName] against the words of the
    string: outside a word, and inside one. *)
Lemma trailing_replace_words s :
  drop_trailing_us (replace_non_alnum_runs true s) = join_us (words false s)
  /\ drop_trailing_us (replace_non_alnum_runs false s)
     = join_us (take_word s :: words true s).
Proof.
  induction s as [|c s [IH1 IH2]]; [split; reflexivity|].
  simpl replace_non_alnum_runs. simpl words. simpl take_word.
  destruct (is_alnum c) eqn:Hc.
  - assert (Hstep : drop_trailing_us (String c (replace_non_alnum_runs false s))
                    = String c (join_us (take_word s :: words true s))).
    { simpl. rewrite (alnum_not_us _ Hc). simpl. now rewrite IH2. }
    split; rewrite Hstep; now rewrite join_us_cons_char.
  - split; [exact IH1|].
    destruct (words false s) as [|w ws] eqn:Hw.
    + rewrite (words_nil_replace _ Hw). reflexivity.
    + assert (Hall : all_us (replace_non_alnum_runs true s) = false).
      { apply words_cons_replace. rewrite Hw. discriminate. }
      change (drop_trailing_us (String underscore (replace_non_alnum_runs true s)))
        with (if (is_us underscore && all_us (replace_non_alnum_runs true s))%bool
              then EmptyString
              else String underscore
                     (drop_trailing_us (replace_non_alnum_runs true s))).
      rewrite Hall, IH1. reflexivity.
Qed.

(** [sanitizeFileName] computes the slug of the specification. *)
Lemma sanitizeFileName_slug name : sanitizeFileName name = slug name.
Proof.
  unfold sanitizeFileName, slug, trim_us.
  rewrite drop_leading_replace.
  apply trailing_replace_words.
Qed.

(** The decimal numeral of an integer is made of digits and a sign. *)
Section Numerals.

Variable P : ascii -> bool.
Hypothesis P_digit : forall x, P (pretty_N_char x) = true.
Hypothesis P_minus : P "-"%char = true.

Lemma pretty_N_go_all x s :
  all_chars P s = true -> all_chars P (pretty_N_go x s) = true.
Proof using P_digit.
  revert s. induction (N.lt_wf_0 x) as [x _ IH]; intros s Hs.
  destruct (decide (x = 0%N)) as [->|Hx]; [exact Hs|].
  rewrite pretty_N_go_step by lia.
  apply IH; [apply N.div_lt; lia|].
  simpl. now rewrite P_digit, Hs.
Qed.

Lemma pretty_Z_all (z : Z) : all_chars P (pretty z) = true.
Proof using P_digit P_minus.
  destruct z as [|p|p]; unfold pretty, pretty_Z.
  - simpl. now rewrite (P_digit 0 : P "0"%char = true).
  - unfold pretty, pretty_positive, pretty, pretty_N.
    case_decide; [discriminate | now apply pretty_N_go_all].
  - unfold pretty, pretty_positive, pretty, pretty_N.
    case_decide; [discriminate|].
    change (all_chars P (String "-" (pretty_N_go (N.pos p) "")) = true).
    simpl. rewrite P_minus. now apply pretty_N_go_all.
Qed.

End Numerals.

Lemma pretty_Z_free (z : Z) : free_of_us (pretty z) = true.
Proof.
  apply pretty_Z_all; [|reflexivity].
  intros x. unfold pretty_N_char. repeat case_match; reflexivity.
Qed.

Lemma pretty_Z_lower (z : Z) : toLowerCase (pretty z) = pretty z.
Proof.
  apply lower_stable_eq, pretty_Z_all; [|reflexivity].
  intros x. unfold pretty_N_char. repeat case_match; reflexivity.
Qed.

(** Two strings cut at their first underscore agree on the part before it. *)
Lemma first_us_split a b x y :
  free_of_us a = true -> free_of_us b = true ->
  a +:+ String underscore x = b +:+ String underscore y -> a = b.
Proof.
  unfold free_of_us.
  revert b. induction a as [|c a IH]; intros [|d b] Ha Hb H; simpl in *.
  - reflexivity.
  - injection H as <- _. simpl in Hb. discriminate.
  - injection H as -> _. simpl in Ha. discriminate.
  - injection H as <- H.
    apply andb_prop in Ha as [_ Ha]. apply andb_prop in Hb as [_ Hb].
    f_equal. now apply IH.
Qed.

Lemma exerciseFileName_index s1 s2 :
  exerciseFileName s1 = exerciseFileName s2 -> sec_orderIndex s1 = sec_orderIndex s2.
Proof.
  unfold exerciseFileName. intros H.
  apply (inj (String.append "exercise_")) in H.
  apply first_us_split in H; [|apply pretty_Z_free..].
  now apply (inj pretty) in H.
Qed.

Lemma exerciseFileKey_index dir s1 s2 :
  toLowerCase (exerciseFilePath dir s1) = toLowerCase (exerciseFilePath dir s2) ->
  sec_orderIndex s1 = sec_orderIndex s2.
Proof.
  unfold exerciseFilePath, path_join, exerciseFileName.
  rewrite !toLowerCase_app. intros H.
  apply (inj (String.append (toLowerCase dir))) in H.
  apply (inj (String.append (toLowerCase "/"))) in H.
  apply (inj (String.append (toLowerCase "exercise_"))) in H.
  change (toLowerCase "_") with (String underscore EmptyString) in H.
  apply first_us_split in H; [|rewrite free_of_us_lower; apply pretty_Z_free..].
  rewrite !pretty_Z_lower in H. now apply (inj pretty) in H.
Qed.

End PathFacts.

Example sanitize_intro : Paths.sanitizeFileName "Intro to Loops!!" = "intro_to_loops".
Proof. reflexivity. Qed.

Example sanitize_only_symbols : Paths.sanitizeFileName "!!!" = "".
Proof. reflexivity. Qed.

Example intro_loops_path_ok :
  Paths.exerciseFilePath Examples.exercises Examples.intro_loops
  = Examples.intro_loops_path.
Proof. reflexivity. Qed.

(** C7. The file name of an exercise is
    [exercise_{orderIndex}_{slug(title)}.{ext(language)}], with the slug of
    the specification (lower-case, every run of characters outside [a-z0-9]
    collapsed to one underscore, no underscore in front or behind); the path
    depends on the order index, the title and the language only; and two
    sections of one exercises folder with different order indexes have
    different paths, also as keys of the tracked-file map, which are
    lower-cased. *)
Theorem exercise_path_function_injective :
  (forall s,
      Paths.exerciseFileName s
      = "exercise_" +:+ pretty (sec_orderIndex s) +:+ "_"
          +:+ Spec.slug (sec_title s) +:+ "."
          +:+ Paths.getFileExtension (Js.or_else (sec_language s) "python"))
  /\ (forall dir s1 s2,
        sec_orderIndex s1 = sec_orderIndex s2 ->
        sec_title s1 = sec_title s2 ->
        sec_language s1 = sec_language s2 ->
        Paths.exerciseFilePath dir s1 = Paths.exerciseFilePath dir s2)
  /\ (forall dir s1 s2,
        sec_orderIndex s1 <> sec_orderIndex s2 ->
        Paths.exerciseFilePath dir s1 <> Paths.exerciseFilePath dir s2
        /\ Js.toLowerCase (Paths.exerciseFilePath dir s1)
           <> Js.toLowerCase (Paths.exerciseFilePath dir s2)).
Proof.
  split; [|split].
  - intros s. unfold Paths.exerciseFileName.
    now rewrite sanitizeFileName_slug.
  - intros dir s1 s2 Hi Ht Hl.
    unfold Paths.exerciseFilePath, Paths.exerciseFileName.
    now rewrite Hi, Ht, Hl.
  - intros dir s1 s2 Hne. split; intros Heq; apply Hne.
    + unfold Paths.exerciseFilePath, Paths.path_join in Heq.
      apply (inj (String.append dir)) in Heq.
      apply (inj (String.append "/")) in Heq.
      now apply exerciseFileName_index.
    + now apply (exerciseFileKey_index dir).
Qed.

Lemma exercise_path_function_injective_witness :
  Paths.exerciseFilePath Examples.exercises Examples.intro_loops
  = Paths.exerciseFilePath Examples.exercises Examples.intro_loops_again
  /\ Paths.exerciseFilePath Examples.exercises Examples.intro_loops
     <> Paths.exerciseFilePath Examples.exercises Examples.arrays.
Proof.
  split.
  - apply (proj1 (proj2 exercise_path_function_injective)
             Examples.exercises Examples.intro_loops Examples.intro_loops_again);
      reflexivity.
  - apply (proj2 (proj2 exercise_path_function_injective)
             Examples.exercises Examples.intro_loops Examples.arrays).
    simpl. lia.
Defined.

(** ** Materialisation *)

Section Materialisation.

Import Firebase Workspace.

Lemma query_head db sectionId userId :
  query db sectionId userId = [] -> getStudentAnswer db sectionId userId = None.
Proof. unfold getStudentAnswer. now intros ->. Qed.

(** Without a saved answer that is read, the outcome depends on the local
    file only. *)
Lemma createExerciseFile_no_answer db fs section dir user :
  (forall u, Js.truthy user = Some u -> query db (sec_id section) u = []) ->
  createExerciseFile db fs section dir user
  = if fileExists fs (Paths.exerciseFilePath dir section)
    then (fs, PreservedLocal)
    else (<[Paths.exerciseFilePath dir section :=
              Js.or_else (sec_starterValue section)
                (getDefaultBoilerplate (Js.or_else (sec_language section) "python")
                   (sec_title section))]> fs,
          CreatedWithStarter).
Proof.
  intros Hnone. unfold createExerciseFile.
  destruct (Js.truthy user) as [u|] eqn:Hu.
  - rewrite (query_head _ _ _ (Hnone u eq_refl)).
    destruct (fileExists fs _); simpl; [reflexivity|].
    destruct (sec_starterValue section) as [[|c v]|]; reflexivity.
  - destruct (fileExists fs _); simpl; [reflexivity|].
    destruct (sec_starterValue section) as [[|c v]|]; reflexivity.
Qed.

End Materialisation.

(** C1, as the code has it. For a signed-in user the record that decides is
    the one [getStudentAnswer] returns: the first document of the query,
    which is the record of the section and the user when the collection
    holds at most one for them. When its content [C] is not empty,
    [createExerciseFile] writes exactly [C] to the path of the exercise,
    whatever the local file held, and touches no other file. When its
    content is the empty string, or it has no content, [createExerciseFile]
    does what it does on a collection without any record. *)
Theorem createExerciseFile_remote_overwrites
    db (fs : gmap string string) section dir u :
  u <> "" ->
  (forall answer C,
      Firebase.getStudentAnswer db (sec_id section) u = Some answer ->
      Firebase.ans_answer answer = Some C -> C <> "" ->
      Workspace.createExerciseFile db fs section dir (Some u)
      = (<[Paths.exerciseFilePath dir section := C]> fs,
         Workspace.SyncedFromRemote))
  /\ (forall answer,
        Firebase.getStudentAnswer db (sec_id section) u = Some answer ->
        Firebase.ans_answer answer = Some ""
        \/ Firebase.ans_answer answer = None ->
        Workspace.createExerciseFile db fs section dir (Some u)
        = Workspace.createExerciseFile [] fs section dir (Some u))
  /\ (Spec.single_record db ->
      forall record,
        In record db ->
        Firebase.ans_sectionId record = sec_id section ->
        Firebase.ans_userId record = u ->
        Firebase.getStudentAnswer db (sec_id section) u = Some record).
Proof.
  intros Hu. destruct u as [|c u]; [congruence|]. split; [|split].
  - intros answer C Hget Hans HC. unfold Workspace.createExerciseFile.
    destruct C as [|d C]; [congruence|].
    cbv zeta. cbn [Js.truthy]. rewrite Hget, Hans. reflexivity.
  - intros answer Hget Hans. unfold Workspace.createExerciseFile.
    cbv zeta. cbn [Js.truthy]. rewrite Hget.
    assert (Hfalsy : Js.truthy (Firebase.ans_answer answer) = None)
      by (destruct Hans as [-> | ->]; reflexivity).
    rewrite Hfalsy. reflexivity.
  - intros Hsingle record Hin Hsec Huser.
    specialize (Hsingle (sec_id section) (String c u)).
    unfold Firebase.getStudentAnswer.
    assert (Hfound : In record
                       (Firebase.query db (sec_id section) (String c u))).
    { unfold Firebase.query. apply filter_In. split; [exact Hin|].
      unfold Firebase.matches. rewrite Hsec, Huser.
      rewrite !bool_decide_eq_true_2 by reflexivity. reflexivity. }
    destruct (Firebase.query db (sec_id section) (String c u))
      as [|x [|y l]]; simpl in *.
    + destruct Hfound.
    + destruct Hfound as [->|[]]. reflexivity.
    + lia.
Qed.

Lemma createExerciseFile_remote_overwrites_witness :
  Workspace.createExerciseFile [Examples.saved "print(1)"] Examples.half_finished
    Examples.intro_loops Examples.exercises (Some "ada")
  = (<[Paths.exerciseFilePath Examples.exercises Examples.intro_loops := "print(1)"]>
       Examples.half_finished,
     Workspace.SyncedFromRemote)
  /\ Workspace.createExerciseFile [Examples.saved ""] Examples.half_finished
       Examples.intro_loops Examples.exercises (Some "ada")
     = Workspace.createExerciseFile [] Examples.half_finished
         Examples.intro_loops Examples.exercises (Some "ada")
  /\ Firebase.getStudentAnswer [Examples.saved "print(1)"]
       (sec_id Examples.intro_loops) "ada"
     = Some (Examples.saved "print(1)").
Proof.
  assert (Hu : "ada" <> "") by discriminate.
  split; [|split].
  - apply (proj1 (createExerciseFile_remote_overwrites
                    [Examples.saved "print(1)"] Examples.half_finished
                    Examples.intro_loops Examples.exercises "ada" Hu)
             (Examples.saved "print(1)") "print(1)");
      [reflexivity | reflexivity | discriminate].
  - apply (proj1 (proj2 (createExerciseFile_remote_overwrites
                           [Examples.saved ""] Examples.half_finished
                           Examples.intro_loops Examples.exercises "ada" Hu))
             (Examples.saved "")); [reflexivity | left; reflexivity].
  - apply (proj2 (proj2 (createExerciseFile_remote_overwrites
                           [Examples.saved "print(1)"] Examples.half_finished
                           Examples.intro_loops Examples.exercises "ada" Hu)));
      [|left; reflexivity | reflexivity | reflexivity].
    intros s v. unfold Firebase.query. simpl.
    destruct (Firebase.matches s v _); simpl; lia.
Defined.

(** C1, as stated, fails: a saved answer whose content is the empty string
    does not replace the local file. *)
Lemma createExerciseFile_empty_answer_keeps_local :
  ~ (forall db (fs : gmap string string) section dir u answer C,
        Firebase.getStudentAnswer db (sec_id section) u = Some answer ->
        Firebase.ans_answer answer = Some C ->
        (Workspace.createExerciseFile db fs section dir (Some u)).1
          !! Paths.exerciseFilePath dir section = Some C).
Proof.
  intros H.
  specialize (H [Examples.saved ""] Examples.half_finished Examples.intro_loops
                Examples.exercises "ada" (Examples.saved "") ""
                eq_refl eq_refl).
  vm_compute in H. discriminate H.
Qed.

(** C6. With no saved answer and no local file, [createExerciseFile] writes
    the starter value when the section has a non-empty one and the default
    template of the language otherwise: a header line with the title and a
    TODO line, commented with [#] for python and with [//] for java, csharp,
    typescript and javascript. The exercise "Intro to Loops!!" at index 3 in
    python gets the file [exercise_3_intro_to_loops.py] with the two python
    comment lines and an empty line. *)
Theorem createExerciseFile_starter_or_default :
  (forall db (fs : gmap string string) section dir user,
      (forall u, Js.truthy user = Some u ->
                 Firebase.query db (sec_id section) u = []) ->
      fs !! Paths.exerciseFilePath dir section = None ->
      Workspace.createExerciseFile db fs section dir user
      = (<[Paths.exerciseFilePath dir section :=
             match Js.truthy (sec_starterValue section) with
             | Some starterValue => starterValue
             | None =>
                 Workspace.getDefaultBoilerplate
                   (Js.or_else (sec_language section) "python") (sec_title section)
             end]> fs,
         Workspace.CreatedWithStarter))
  /\ (forall language title,
        Workspace.getDefaultBoilerplate language title
        = Workspace.getCommentSyntax language +:+ " Exercise: " +:+ title
            +:+ Workspace.nl
            +:+ Workspace.getCommentSyntax language
            +:+ " TODO: Implement your solution here"
            +:+ Workspace.nl +:+ Workspace.nl)
  /\ (forall language,
        Js.toLowerCase language = "python" ->
        Workspace.getCommentSyntax language = "#")
  /\ (forall language,
        In (Js.toLowerCase language) ["java"; "csharp"; "typescript"; "javascript"] ->
        Workspace.getCommentSyntax language = "//")
  /\ (forall db (fs : gmap string string) section dir user,
        sec_title section = "Intro to Loops!!" ->
        sec_orderIndex section = 3%Z ->
        sec_language section = Some "python" ->
        sec_starterValue section = None ->
        (forall u, Js.truthy user = Some u ->
                   Firebase.query db (sec_id section) u = []) ->
        fs !! (dir +:+ "/exercise_3_intro_to_loops.py") = None ->
        Workspace.createExerciseFile db fs section dir user
        = (<[dir +:+ "/exercise_3_intro_to_loops.py" :=
               "# Exercise: Intro to Loops!!" +:+ Workspace.nl
                 +:+ "# TODO: Implement your solution here" +:+ Workspace.nl
                 +:+ Workspace.nl]> fs,
           Workspace.CreatedWithStarter)).
Proof.
  assert (Hgen : forall db (fs : gmap string string) section dir user,
      (forall u, Js.truthy user = Some u ->
                 Firebase.query db (sec_id section) u = []) ->
      fs !! Paths.exerciseFilePath dir section = None ->
      Workspace.createExerciseFile db fs section dir user
      = (<[Paths.exerciseFilePath dir section :=
             match Js.truthy (sec_starterValue section) with
             | Some starterValue => starterValue
             | None =>
                 Workspace.getDefaultBoilerplate
                   (Js.or_else (sec_language section) "python") (sec_title section)
             end]> fs,
         Workspace.CreatedWithStarter)).
  { intros db fs section dir user Hnone Hfile.
    rewrite createExerciseFile_no_answer by exact Hnone.
    unfold Workspace.fileExists. rewrite Hfile.
    rewrite bool_decide_eq_false_2 by (intros [? ?]; discriminate).
    unfold Js.or_else. now destruct (Js.truthy (sec_starterValue section)). }
  split; [exact Hgen|]. split; [reflexivity|]. split; [|split].
  - intros language Hl. unfold Workspace.getCommentSyntax. now rewrite Hl.
  - intros language Hl. unfold Workspace.getCommentSyntax.
    simpl in Hl. destruct Hl as [<-|[<-|[<-|[<-|[]]]]]; reflexivity.
  - intros db fs section dir user Ht Hi Hl Hs Hnone Hfile.
    assert (Hpath : Paths.exerciseFilePath dir section
                    = dir +:+ "/exercise_3_intro_to_loops.py").
    { unfold Paths.exerciseFilePath, Paths.exerciseFileName.
      now rewrite Ht, Hi, Hl. }
    rewrite <- Hpath in Hfile.
    rewrite (Hgen db fs section dir user Hnone Hfile), Hpath, Ht, Hl, Hs.
    reflexivity.
Qed.

Lemma createExerciseFile_starter_or_default_witness :
  Workspace.createExerciseFile [] ∅ Examples.intro_loops Examples.exercises (Some "ada")
  = (<[Examples.exercises +:+ "/exercise_3_intro_to_loops.py" :=
         "# Exercise: Intro to Loops!!" +:+ Workspace.nl
           +:+ "# TODO: Implement your solution here" +:+ Workspace.nl
           +:+ Workspace.nl]> ∅,
     Workspace.CreatedWithStarter)
  /\ Workspace.getCommentSyntax "Python" = "#"
  /\ Workspace.getCommentSyntax "TypeScript" = "//".
Proof.
  split; [|split].
  - apply (proj2 (proj2 (proj2 (proj2 createExerciseFile_starter_or_default)))
             [] ∅ Examples.intro_loops Examples.exercises (Some "ada"));
      reflexivity.
  - apply (proj1 (proj2 (proj2 createExerciseFile_starter_or_default)) "Python").
    reflexivity.
  - apply (proj1 (proj2 (proj2 (proj2 createExerciseFile_starter_or_default)))
             "TypeScript").
    simpl. tauto.
Defined.

(** C9. With a local file at the path of the exercise and no saved answer,
    [createExerciseFile] leaves every local file as it is; opening the
    exercise a second time leaves them as they are again. *)
Theorem createExerciseFile_preserves_local
    db (fs : gmap string string) section dir user content :
  (forall u, Js.truthy user = Some u ->
             Firebase.query db (sec_id section) u = []) ->
  fs !! Paths.exerciseFilePath dir section = Some content ->
  Workspace.createExerciseFile db fs section dir user = (fs, Workspace.PreservedLocal)
  /\ (Workspace.createExerciseFile db
        (Workspace.createExerciseFile db fs section dir user).1 section dir user).1
     = fs.
Proof.
  intros Hnone Hfile.
  assert (H1 : Workspace.createExerciseFile db fs section dir user
               = (fs, Workspace.PreservedLocal)).
  { rewrite createExerciseFile_no_answer by exact Hnone.
    unfold Workspace.fileExists. rewrite Hfile.
    now rewrite bool_decide_eq_true_2 by (eexists; reflexivity). }
  split; [exact H1|]. rewrite H1. simpl. now rewrite H1.
Qed.

Lemma createExerciseFile_preserves_local_witness :
  Workspace.createExerciseFile [] Examples.half_finished Examples.intro_loops
    Examples.exercises (Some "ada")
  = (Examples.half_finished, Workspace.PreservedLocal).
Proof.
  apply (createExerciseFile_preserves_local [] Examples.half_finished
           Examples.intro_loops Examples.exercises (Some "ada") "for i in range(").
  - intros u _. reflexivity.
  - vm_compute. reflexivity.
Defined.

(** ** Input metrics *)

Section MetricsFacts.

Import Metrics.

Lemma classify_short text :
  (String.length text <= 2)%nat -> classify text = Keystroke.
Proof.
  intros H. unfold classify, PASTE_CHAR_THRESHOLD.
  destruct (String.length text =? 0)%nat; [reflexivity|].
  now rewrite (proj2 (Nat.leb_le _ _) H).
Qed.

Lemma classify_indent text :
  Js.newline_then_spaces text = true -> classify text = Keystroke.
Proof.
  intros H. unfold classify. rewrite H, orb_true_r.
  now destruct (String.length text =? 0)%nat.
Qed.

Lemma classify_long text :
  (2 < String.length text)%nat -> Js.newline_then_spaces text = false ->
  classify text = Paste.
Proof.
  intros Hlen Hnl. unfold classify, PASTE_CHAR_THRESHOLD. rewrite Hnl.
  rewrite (proj2 (Nat.eqb_neq _ _)) by lia.
  now rewrite (proj2 (Nat.leb_gt _ _) Hlen).
Qed.

(** The counters of the entry of a path, zero when there is none. *)
Lemma snapshot_counts now filePath charCount (t : gmap string FileMetrics) :
  let snapshot := (getAndReset now filePath charCount t).1 in
  im_keystrokeCount snapshot = keystrokeCount (getOrCreate t filePath)
  /\ im_pasteCount snapshot = pasteCount (getOrCreate t filePath)
  /\ im_pasteCharCount snapshot = pasteCharCount (getOrCreate t filePath).
Proof.
  unfold getAndReset, getOrCreate. simpl.
  destruct (t !! Js.toLowerCase filePath); simpl; auto.
Qed.

Lemma handleDocumentChange_entry now filePath change changes
    (t : gmap string FileMetrics) :
  Js.includes filePath "exercise_" = true ->
  getOrCreate (handleDocumentChange now filePath (change :: changes) t) filePath
  = fold_left count_change (change :: changes) (stamp now (getOrCreate t filePath)).
Proof.
  intros Hinc. unfold handleDocumentChange. rewrite Hinc. simpl negb. cbv iota.
  unfold getOrCreate at 1. now rewrite lookup_insert_eq.
Qed.

Lemma type_chars_counts filePath keys (t : gmap string FileMetrics) :
  Js.includes filePath "exercise_" = true ->
  keystrokeCount (getOrCreate (Spec.type_chars filePath keys t) filePath)
  = (keystrokeCount (getOrCreate t filePath) + Z.of_nat (length keys))%Z
  /\ pasteCount (getOrCreate (Spec.type_chars filePath keys t) filePath)
     = pasteCount (getOrCreate t filePath)
  /\ pasteCharCount (getOrCreate (Spec.type_chars filePath keys t) filePath)
     = pasteCharCount (getOrCreate t filePath).
Proof.
  intros Hinc. revert t.
  induction keys as [|[now c] keys IH]; intros t.
  - simpl. split; [lia | split; reflexivity].
  - change (Spec.type_chars filePath ((now, c) :: keys) t)
      with (Spec.type_chars filePath keys
              (handleDocumentChange now filePath [String c EmptyString] t)).
    destruct (IH (handleDocumentChange now filePath [String c EmptyString] t))
      as (Hk & Hp & Hc).
    rewrite Hk, Hp, Hc, handleDocumentChange_entry by exact Hinc.
    simpl fold_left. unfold count_change.
    rewrite classify_short by (simpl; lia). simpl.
    split; [lia | split; reflexivity].
Qed.

End MetricsFacts.

(** C5. An inserted text that is empty, has at most two characters, or is a
    line break followed by white space only adds one keystroke and nothing
    else; any other inserted text adds one paste and its length to the
    pasted characters. Five single characters typed into a file with no
    entry give a snapshot with 5 keystrokes and no paste; one text of 50
    characters that is not an indented line break gives no keystroke, 1 paste
    and 50 pasted characters. *)
Theorem input_classification :
  (forall m text,
      text = "" \/ (String.length text <= 2)%nat
      \/ Js.newline_then_spaces text = true ->
      Metrics.count_change m text
      = {| Metrics.keystrokeCount := Metrics.keystrokeCount m + 1;
           Metrics.pasteCount := Metrics.pasteCount m;
           Metrics.pasteCharCount := Metrics.pasteCharCount m;
           Metrics.firstInputAt := Metrics.firstInputAt m;
           Metrics.lastInputAt := Metrics.lastInputAt m |})
  /\ (forall m text,
        (2 < String.length text)%nat ->
        Js.newline_then_spaces text = false ->
        Metrics.count_change m text
        = {| Metrics.keystrokeCount := Metrics.keystrokeCount m;
             Metrics.pasteCount := Metrics.pasteCount m + 1;
             Metrics.pasteCharCount :=
               Metrics.pasteCharCount m + Z.of_nat (String.length text);
             Metrics.firstInputAt := Metrics.firstInputAt m;
             Metrics.lastInputAt := Metrics.lastInputAt m |})
  /\ (forall filePath (t : gmap string Metrics.FileMetrics) keys now charCount,
        Js.includes filePath "exercise_" = true ->
        t !! Js.toLowerCase filePath = None ->
        length keys = 5%nat ->
        let snapshot :=
          (Metrics.getAndReset now filePath charCount
             (Spec.type_chars filePath keys t)).1 in
        im_keystrokeCount snapshot = 5%Z /\ im_pasteCount snapshot = 0%Z
        /\ im_pasteCharCount snapshot = 0%Z)
  /\ (forall filePath (t : gmap string Metrics.FileMetrics) text at_ now charCount,
        Js.includes filePath "exercise_" = true ->
        t !! Js.toLowerCase filePath = None ->
        String.length text = 50%nat ->
        Js.newline_then_spaces text = false ->
        let snapshot :=
          (Metrics.getAndReset now filePath charCount
             (Metrics.handleDocumentChange at_ filePath [text] t)).1 in
        im_keystrokeCount snapshot = 0%Z /\ im_pasteCount snapshot = 1%Z
        /\ im_pasteCharCount snapshot = 50%Z).
Proof.
  split; [|split; [|split]].
  - intros m text H. unfold Metrics.count_change.
    assert (Hk : Metrics.classify text = Metrics.Keystroke).
    { destruct H as [->|[H|H]];
        [reflexivity | now apply classify_short | now apply classify_indent]. }
    now rewrite Hk.
  - intros m text Hlen Hnl. unfold Metrics.count_change.
    now rewrite classify_long.
  - intros filePath t keys now charCount Hinc Hnone Hlen.
    destruct (snapshot_counts now filePath charCount (Spec.type_chars filePath keys t))
      as (Hk & Hp & Hc).
    destruct (type_chars_counts filePath keys t Hinc) as (Hk' & Hp' & Hc').
    cbv zeta. rewrite Hk, Hp, Hc, Hk', Hp', Hc', Hlen.
    unfold Metrics.getOrCreate. rewrite Hnone. simpl. auto.
  - intros filePath t text at_ now charCount Hinc Hnone Hlen Hnl.
    destruct (snapshot_counts now filePath charCount
                (Metrics.handleDocumentChange at_ filePath [text] t))
      as (Hk & Hp & Hc).
    cbv zeta. rewrite Hk, Hp, Hc, handleDocumentChange_entry by exact Hinc.
    simpl fold_left. unfold Metrics.count_change.
    rewrite classify_long by (try exact Hnl; lia).
    unfold Metrics.getOrCreate. rewrite Hnone, Hlen. simpl. auto.
Qed.

Lemma input_classification_witness :
  (let snapshot :=
     (Metrics.getAndReset 9000 Examples.intro_loops_path 5
        (Spec.type_chars Examples.intro_loops_path
           [(1000, "p"); (1200, "r"); (1400, "i"); (1600, "n"); (1800, "t")]%Z%char
           ∅)).1 in
   im_keystrokeCount snapshot = 5%Z /\ im_pasteCount snapshot = 0%Z
   /\ im_pasteCharCount snapshot = 0%Z)
  /\ (let snapshot :=
        (Metrics.getAndReset 9000 Examples.intro_loops_path 50
           (Metrics.handleDocumentChange 1000 Examples.intro_loops_path
              [Examples.fifty] ∅)).1 in
      im_keystrokeCount snapshot = 0%Z /\ im_pasteCount snapshot = 1%Z
      /\ im_pasteCharCount snapshot = 50%Z)
  /\ Metrics.keystrokeCount
       (Metrics.count_change Metrics.fresh (Workspace.nl +:+ "    ")) = 1%Z.
Proof.
  split; [|split].
  - apply (proj1 (proj2 (proj2 input_classification))
             Examples.intro_loops_path ∅ _ 9000%Z 5%Z);
      [reflexivity | apply lookup_empty | reflexivity].
  - apply (proj2 (proj2 (proj2 input_classification))
             Examples.intro_loops_path ∅ Examples.fifty 1000%Z 9000%Z 50%Z);
      [reflexivity | apply lookup_empty | reflexivity | reflexivity].
  - rewrite (proj1 input_classification Metrics.fresh (Workspace.nl +:+ "    "));
      [reflexivity | right; right; reflexivity].
Defined.

(** C10. [getAndReset] removes the entry of the path. A second call, or a
    call for a path without an entry, returns zero keystrokes, pastes, pasted
    characters and duration, the character count it was given, and the time
    of the call as first and last input. *)
Theorem getAndReset_consumes :
  (forall now filePath charCount (t : gmap string Metrics.FileMetrics),
      (Metrics.getAndReset now filePath charCount t).2
        !! Js.toLowerCase filePath = None)
  /\ (forall now filePath charCount (t : gmap string Metrics.FileMetrics),
        t !! Js.toLowerCase filePath = None ->
        Metrics.getAndReset now filePath charCount t
        = ({| im_keystrokeCount := 0; im_pasteCount := 0;
              im_pasteCharCount := 0; im_editDurationMs := 0;
              im_charCount := charCount;
              im_firstInputAt := now; im_lastInputAt := now |}, t))
  /\ (forall now1 now2 filePath charCount1 charCount2
             (t : gmap string Metrics.FileMetrics),
        Metrics.getAndReset now2 filePath charCount2
          (Metrics.getAndReset now1 filePath charCount1 t).2
        = ({| im_keystrokeCount := 0; im_pasteCount := 0;
              im_pasteCharCount := 0; im_editDurationMs := 0;
              im_charCount := charCount2;
              im_firstInputAt := now2; im_lastInputAt := now2 |},
           (Metrics.getAndReset now1 filePath charCount1 t).2)).
Proof.
  assert (Hnone : forall now filePath charCount (t : gmap string Metrics.FileMetrics),
      t !! Js.toLowerCase filePath = None ->
      Metrics.getAndReset now filePath charCount t
      = ({| im_keystrokeCount := 0; im_pasteCount := 0;
            im_pasteCharCount := 0; im_editDurationMs := 0;
            im_charCount := charCount;
            im_firstInputAt := now; im_lastInputAt := now |}, t)).
  { intros now filePath charCount t H. unfold Metrics.getAndReset.
    rewrite H. simpl. now rewrite delete_id. }
  split; [|split; [exact Hnone|]].
  - intros. apply lookup_delete_eq.
  - intros. apply Hnone. apply lookup_delete_eq.
Qed.

Lemma getAndReset_consumes_witness :
  Metrics.getAndReset 7000 Examples.intro_loops_path 12 ∅
  = ({| im_keystrokeCount := 0; im_pasteCount := 0;
        im_pasteCharCount := 0; im_editDurationMs := 0;
        im_charCount := 12;
        im_firstInputAt := 7000; im_lastInputAt := 7000 |}, ∅).
Proof.
  apply (proj1 (proj2 getAndReset_consumes) 7000%Z Examples.intro_loops_path 12%Z ∅).
  apply lookup_empty.
Defined.

(** ** Pushes on the event loop *)

Section SyncFacts.

Import Sync Spec.

Lemma trackLesson_marks root exercisesPath lessonId sections courseId m :
  syncInProgress (trackLesson root exercisesPath lessonId sections courseId m)
  = syncInProgress m.
Proof.
  unfold trackLesson, startCourseWatcher. cbv zeta.
  repeat case_match; reflexivity.
Qed.

Lemma resume_caller_marks caller p st :
  syncInProgress (mgr (resume_caller caller p st)) = syncInProgress (mgr st).
Proof. now destruct caller. Qed.

Lemma resume_caller_env caller p st : env (resume_caller caller p st) = env st.
Proof. now destruct caller. Qed.

Lemma exclusive_ext st st' :
  syncInProgress (mgr st') = syncInProgress (mgr st) ->
  tk_path <$> tasks (env st') = tk_path <$> tasks (env st) ->
  exclusive st -> exclusive st'.
Proof. unfold exclusive. now intros -> ->. Qed.

Lemma exclusive_syncFile caller p courseId st :
  exclusive st -> exclusive (syncFile caller p courseId st).
Proof.
  intros Hex. unfold syncFile.
  destruct (fileToSectionMap (mgr st) !! Js.toLowerCase p) as [section|];
    [|apply (exclusive_ext st); [apply resume_caller_marks | now rewrite resume_caller_env | exact Hex]].
  destruct (decide (p ∈ syncInProgress (mgr st))) as [Hin|Hout];
    [apply (exclusive_ext st); [apply resume_caller_marks | now rewrite resume_caller_env | exact Hex]|].
  cbv zeta. cbn [env on_mgr].
  destruct (Js.truthy (userId (env st))) as [u|].
  - destruct Hex as [Hnd Hmark]. split; cbn.
    + rewrite fmap_app. apply NoDup_app. split; [exact Hnd|]. split.
      * intros x Hx Hp. apply list_elem_of_singleton in Hp. subst x.
        apply Hout, Hmark, Hx.
      * apply NoDup_singleton.
    + intros q. rewrite fmap_app, elem_of_app, elem_of_union, elem_of_singleton.
      cbn. rewrite list_elem_of_singleton, Hmark. tauto.
  - apply (exclusive_ext st); [| |exact Hex].
    + rewrite resume_caller_marks. cbn. apply set_eq. intros x.
      rewrite elem_of_difference, elem_of_union, elem_of_singleton.
      split; [tauto|]. intros Hx. split; [tauto|]. now intros ->.
    + now rewrite resume_caller_env.
Qed.

Lemma NoDup_fmap_delete_notin {A B} (f : A -> B) (l : list A) i x :
  NoDup (f <$> l) -> l !! i = Some x -> f x ∉ (f <$> delete i l).
Proof.
  revert i. induction l as [|y l IH]; intros i Hnd Hi; [discriminate|].
  rewrite fmap_cons in Hnd. apply NoDup_cons in Hnd as [Hy Hnd].
  destruct i as [|i]; simpl in *.
  - now injection Hi as ->.
  - rewrite elem_of_cons. intros [Heq|Hin].
    + apply Hy. rewrite <- Heq. apply list_elem_of_fmap_2.
      eapply list_elem_of_lookup_2. exact Hi.
    + now apply (IH i).
Qed.

Lemma elem_of_fmap_delete {A B} (f : A -> B) (l : list A) i x y :
  l !! i = Some x -> y ∈ (f <$> l) <-> y = f x \/ y ∈ (f <$> delete i l).
Proof.
  intros Hi. rewrite (delete_Permutation l i x Hi) at 1.
  rewrite fmap_cons, elem_of_cons. tauto.
Qed.

Lemma exclusive_settle i k st :
  tasks (env st) !! i = Some k -> exclusive st -> exclusive (settle i k st).
Proof.
  intros Hi [Hnd Hmark]. unfold settle, exclusive.
  rewrite resume_caller_marks, resume_caller_env. cbn. split.
  - assert (Hnd' := Hnd).
    rewrite (delete_Permutation _ i k Hi), fmap_cons in Hnd'.
    now apply NoDup_cons in Hnd' as [_ Hnd'].
  - intros q. rewrite elem_of_difference, elem_of_singleton, Hmark.
    rewrite (elem_of_fmap_delete tk_path _ _ _ q Hi). split.
    + intros [[Hq|Hq] Hne]; [contradiction | exact Hq].
    + intros Hq. split; [now right|]. intros ->.
      exact (NoDup_fmap_delete_notin tk_path _ _ _ Hnd Hi Hq).
Qed.

Lemma exclusive_readDone i st st' :
  readDone i st = Some st' -> exclusive st -> exclusive st'.
Proof.
  unfold readDone. intros H Hex.
  destruct (tasks (env st) !! i) as [k|] eqn:Hi; [|discriminate].
  destruct (tk_stage k); [|discriminate].
  destruct (files (env st) !! tk_path k) as [content|].
  - destruct (Metrics.getAndReset _ _ _ _) as [inputMetrics tracker].
    injection H as <-. apply (exclusive_ext st); [reflexivity| |exact Hex].
    cbn. rewrite list_fmap_insert. cbn. apply list_insert_id.
    now rewrite list_lookup_fmap, Hi.
  - injection H as <-. now apply exclusive_settle.
Qed.

Lemma exclusive_saveDone i ok st st' :
  saveDone i ok st = Some st' -> exclusive st -> exclusive st'.
Proof.
  unfold saveDone. intros H Hex.
  destruct (tasks (env st) !! i) as [k|] eqn:Hi; [|discriminate].
  destruct (tk_stage k); [discriminate|].
  injection H as <-. apply exclusive_settle.
  - now destruct ok.
  - destruct ok; [|exact Hex].
    apply (exclusive_ext st); [reflexivity|reflexivity|exact Hex].
Qed.

Lemma exclusive_step ev st st' :
  step ev st = Some st' -> exclusive st -> exclusive st'.
Proof.
  destruct ev; cbn [step]; intros H Hex.
  - injection H as <-. apply (exclusive_ext st); [|reflexivity|exact Hex].
    apply trackLesson_marks.
  - injection H as <-. apply (exclusive_ext st); [reflexivity|reflexivity|exact Hex].
  - destruct (fileWatcher (mgr st)) as [[root courseId]|]; [|discriminate].
    destruct (watched root fsPath); [|discriminate].
    injection H as <-. apply (exclusive_ext st); [reflexivity|reflexivity|exact Hex].
  - destruct (timers (env st) !! h) as [t|]; [|discriminate].
    destruct (tm_due t <=? clock (env st))%Z; [|discriminate].
    injection H as <-. apply exclusive_syncFile.
    apply (exclusive_ext st); [reflexivity|reflexivity|exact Hex].
  - now apply (exclusive_readDone i st).
  - now apply (exclusive_saveDone i ok st).
  - injection H as <-. unfold syncCurrentFile.
    destruct (Js.truthy (currentCourseId (mgr st))); [|exact Hex].
    destruct (size (fileToSectionMap (mgr st)) =? 0)%nat; [exact Hex|].
    now apply exclusive_syncFile.
  - injection H as <-. apply (exclusive_ext st); [reflexivity|reflexivity|exact Hex].
  - injection H as <-. apply (exclusive_ext st); [reflexivity|reflexivity|exact Hex].
  - destruct (0 <=? ms)%Z; [|discriminate].
    injection H as <-. apply (exclusive_ext st); [reflexivity|reflexivity|exact Hex].
  - injection H as <-. apply (exclusive_ext st); [reflexivity|reflexivity|exact Hex].
  - injection H as <-. apply (exclusive_ext st); [reflexivity|reflexivity|exact Hex].
Qed.

Lemma exclusive_run evs st st' :
  run evs st = Some st' -> exclusive st -> exclusive st'.
Proof.
  revert st. induction evs as [|ev evs IH]; intros st H Hex; simpl in H.
  - now injection H as <-.
  - destruct (step ev st) as [st1|] eqn:Hstep; [|discriminate].
    apply (IH st1 H). now apply (exclusive_step ev st).
Qed.

Lemma exclusive_initial now user root fs answers :
  exclusive (initial now user root fs answers).
Proof.
  split; cbn; [apply NoDup_nil_2|]. intros p. set_solver.
Qed.

(** The calls suspended for a path, counted. *)
Lemma pushing_length p st :
  exclusive st ->
  (length (pushing p st) <= 1)%nat
  /\ (p ∈ syncInProgress (mgr st) <-> length (pushing p st) = 1%nat).
Proof.
  intros [Hnd Hmark]. rewrite Hmark. unfold pushing. clear Hmark.
  induction (tasks (env st)) as [|k l IH]; cbn.
  - split; [lia|]. rewrite elem_of_nil. split; [tauto | discriminate].
  - rewrite fmap_cons in Hnd. apply NoDup_cons in Hnd as [Hk Hnd].
    destruct (IH Hnd) as [IH1 IH2]. rewrite elem_of_cons.
    case_bool_decide as Hp; cbn.
    + subst p. assert (length (List.filter
        (fun k0 => bool_decide (tk_path k0 = tk_path k)) l) = 0%nat) as ->.
      { destruct (length _) as [|n] eqn:Hn; [reflexivity|]. exfalso.
        assert (n = 0%nat) by lia. subst n. apply Hk, IH2, eq_refl. }
      split; [lia|]. split; [reflexivity | now left].
    + split; [exact IH1|]. rewrite <- IH2. split; [|now right].
      intros [Heq|Hin]; [congruence | exact Hin].
Qed.

(** A settled call leaves no mark and no call for its path. *)
Lemma settle_clears i k st :
  tasks (env st) !! i = Some k -> exclusive st ->
  (tk_path k ∉ syncInProgress (mgr (settle i k st)))
  /\ pushing (tk_path k) (settle i k st) = [].
Proof.
  intros Hi Hex.
  assert (Hout : tk_path k ∉ syncInProgress (mgr (settle i k st))).
  { unfold settle. rewrite resume_caller_marks. cbn.
    rewrite elem_of_difference, elem_of_singleton. tauto. }
  split; [exact Hout|].
  destruct (pushing_length (tk_path k) (settle i k st)
              (exclusive_settle i k st Hi Hex)) as [Hle Hiff].
  destruct (pushing _ _) as [|x l]; [reflexivity|]. exfalso.
  apply Hout, Hiff. simpl in *. lia.
Qed.

(** A pending write is settled by its fulfilment and by its rejection. *)
Lemma saveDone_settles i k content inputMetrics ok st :
  tasks (env st) !! i = Some k ->
  tk_stage k = AwaitSave content inputMetrics ->
  exclusive st ->
  exists st',
    saveDone i ok st = Some st'
    /\ (tk_path k ∉ syncInProgress (mgr st'))
    /\ pushing (tk_path k) st' = [].
Proof.
  intros Hi Hstage Hex. unfold saveDone. rewrite Hi, Hstage.
  eexists. split; [reflexivity|]. apply settle_clears.
  - now destruct ok.
  - destruct ok; [|exact Hex].
    apply (exclusive_ext st); [reflexivity | reflexivity | exact Hex].
Qed.

(** A pending read of a file that cannot be read ends the call. *)
Lemma readDone_fails i k st :
  tasks (env st) !! i = Some k ->
  tk_stage k = AwaitRead ->
  files (env st) !! tk_path k = None ->
  exclusive st ->
  exists st',
    readDone i st = Some st'
    /\ (tk_path k ∉ syncInProgress (mgr st'))
    /\ pushing (tk_path k) st' = [].
Proof.
  intros Hi Hstage Hfile Hex. unfold readDone. rewrite Hi, Hstage, Hfile.
  eexists. split; [reflexivity|]. now apply settle_clears.
Qed.

(** A pending read that is served moves the call on to its write; the call
    stays where it is among the suspended calls and the path stays marked. *)
Lemma readDone_reads i k content st :
  tasks (env st) !! i = Some k ->
  tk_stage k = AwaitRead ->
  files (env st) !! tk_path k = Some content ->
  exists st' k' inputMetrics,
    readDone i st = Some st'
    /\ tasks (env st') !! i = Some k'
    /\ tk_path k' = tk_path k
    /\ tk_caller k' = tk_caller k
    /\ tk_stage k' = AwaitSave content inputMetrics
    /\ syncInProgress (mgr st') = syncInProgress (mgr st)
    /\ timers (env st') = timers (env st)
    /\ pendingSaves (mgr st') = pendingSaves (mgr st)
    /\ length (upserts (env st')) = S (length (upserts (env st))).
Proof.
  intros Hi Hstage Hfile. unfold readDone. rewrite Hi, Hstage, Hfile.
  destruct (Metrics.getAndReset _ _ _ _) as [inputMetrics tracker].
  eexists.
  exists {| tk_path := tk_path k; tk_courseId := tk_courseId k;
            tk_section := tk_section k; tk_userId := tk_userId k;
            tk_stage := AwaitSave content inputMetrics;
            tk_caller := tk_caller k |}, inputMetrics.
  split; [reflexivity|]. cbn. split.
  - apply list_lookup_insert_eq. eapply lookup_lt_Some. exact Hi.
  - repeat split; try reflexivity. rewrite length_app. simpl. lia.
Qed.

(** The end of a manual call touches neither the timers nor their record. *)
Lemma settle_manual i k st :
  tk_caller k = ManualCall ->
  timers (env (settle i k st)) = timers (env st)
  /\ pendingSaves (mgr (settle i k st)) = pendingSaves (mgr st)
  /\ upserts (env (settle i k st)) = upserts (env st)
  /\ (tk_path k ∉ syncInProgress (mgr (settle i k st))).
Proof.
  intros Hcaller. unfold settle. rewrite Hcaller. cbn.
  repeat split. rewrite elem_of_difference, elem_of_singleton. tauto.
Qed.

End SyncFacts.

(** C2. In every state the manager reaches, at most one [syncFile] call is
    suspended for a path, and the path is marked in [syncInProgress] exactly
    when there is one. A call for a marked path is skipped: it suspends no
    call, calls no [saveStudentAnswer], leaves the collection and the marks
    as they are. A suspended call always comes to its end: its pending write
    is settled by a fulfilment and by a rejection alike, its pending read by
    a failure, and a read that is served leaves the call waiting for its
    write with the path still marked; when the call ends the mark of the
    path is removed and no call for it is left. So every marked path is
    unmarked by the settlement of its one call, whether the push succeeds or
    fails. When nobody is signed in the call ends at once and leaves no
    mark. *)
Theorem push_mutual_exclusion now user root fs answers evs st :
  Sync.run evs (Sync.initial now user root fs answers) = Some st ->
  (forall p,
      (length (Sync.pushing p st) <= 1)%nat
      /\ (p ∈ Sync.syncInProgress (Sync.mgr st)
          <-> length (Sync.pushing p st) = 1%nat))
  /\ (forall caller p courseId,
        p ∈ Sync.syncInProgress (Sync.mgr st) ->
        let st' := Sync.syncFile caller p courseId st in
        Sync.tasks (Sync.env st') = Sync.tasks (Sync.env st)
        /\ Sync.upserts (Sync.env st') = Sync.upserts (Sync.env st)
        /\ Sync.db (Sync.env st') = Sync.db (Sync.env st)
        /\ Sync.syncInProgress (Sync.mgr st') = Sync.syncInProgress (Sync.mgr st))
  /\ (forall i k content inputMetrics ok,
        Sync.tasks (Sync.env st) !! i = Some k ->
        Sync.tk_stage k = Sync.AwaitSave content inputMetrics ->
        exists st',
          Sync.saveDone i ok st = Some st'
          /\ (Sync.tk_path k ∉ Sync.syncInProgress (Sync.mgr st'))
          /\ Sync.pushing (Sync.tk_path k) st' = [])
  /\ (forall i k,
        Sync.tasks (Sync.env st) !! i = Some k ->
        Sync.tk_stage k = Sync.AwaitRead ->
        Sync.files (Sync.env st) !! Sync.tk_path k = None ->
        exists st',
          Sync.readDone i st = Some st'
          /\ (Sync.tk_path k ∉ Sync.syncInProgress (Sync.mgr st'))
          /\ Sync.pushing (Sync.tk_path k) st' = [])
  /\ (forall i k content,
        Sync.tasks (Sync.env st) !! i = Some k ->
        Sync.tk_stage k = Sync.AwaitRead ->
        Sync.files (Sync.env st) !! Sync.tk_path k = Some content ->
        exists st' k' inputMetrics,
          Sync.readDone i st = Some st'
          /\ Sync.tasks (Sync.env st') !! i = Some k'
          /\ Sync.tk_path k' = Sync.tk_path k
          /\ Sync.tk_stage k' = Sync.AwaitSave content inputMetrics
          /\ Sync.tk_path k ∈ Sync.syncInProgress (Sync.mgr st'))
  /\ (forall p ok,
        p ∈ Sync.syncInProgress (Sync.mgr st) ->
        exists i settlement st',
          In settlement [[Sync.SaveDone i ok]; [Sync.ReadDone i];
                         [Sync.ReadDone i; Sync.SaveDone i ok]]
          /\ Sync.run settlement st = Some st'
          /\ (p ∉ Sync.syncInProgress (Sync.mgr st'))
          /\ Sync.pushing p st' = [])
  /\ (forall caller p courseId,
        Js.truthy (Sync.userId (Sync.env st)) = None ->
        p ∉ Sync.syncInProgress (Sync.mgr st) ->
        p ∉ Sync.syncInProgress (Sync.mgr (Sync.syncFile caller p courseId st))).
Proof.
  intros Hrun.
  assert (Hex : Spec.exclusive st)
    by (eapply exclusive_run; [exact Hrun | apply exclusive_initial]).
  split; [|split; [|split; [|split; [|split; [|split]]]]].
  - intros p. now apply pushing_length.
  - intros caller p courseId Hin. cbv zeta. unfold Sync.syncFile.
    destruct (Sync.fileToSectionMap (Sync.mgr st) !! Js.toLowerCase p);
      [rewrite decide_True by exact Hin|];
      rewrite resume_caller_marks, resume_caller_env; auto.
  - intros i k content inputMetrics ok Hi Hstage.
    now apply (saveDone_settles i k content inputMetrics).
  - intros i k Hi Hstage Hfile. now apply readDone_fails.
  - intros i k content Hi Hstage Hfile.
    destruct (readDone_reads i k content st Hi Hstage Hfile)
      as (st' & k' & im & Hread & Hi' & Hpath & _ & Hstage' & Hmarks & _).
    exists st', k', im. repeat split; try assumption.
    rewrite Hmarks. apply (proj2 Hex). apply list_elem_of_fmap.
    exists k. split; [reflexivity|]. eapply list_elem_of_lookup_2. exact Hi.
  - intros p ok Hin.
    apply (proj2 Hex) in Hin. apply list_elem_of_fmap in Hin as (k & -> & Hk).
    apply list_elem_of_lookup_1 in Hk as [i Hi]. exists i.
    destruct (Sync.tk_stage k) as [|content inputMetrics] eqn:Hstage.
    + destruct (Sync.files (Sync.env st) !! Sync.tk_path k) as [content|]
        eqn:Hfile.
      * destruct (readDone_reads i k content st Hi Hstage Hfile)
          as (st1 & k' & im & Hread & Hi' & Hpath & _ & Hstage' & _).
        destruct (saveDone_settles i k' content im ok st1 Hi' Hstage'
                    (exclusive_readDone i st st1 Hread Hex))
          as (st' & Hsave & Hout & Hnone).
        exists [Sync.ReadDone i; Sync.SaveDone i ok], st'.
        split; [simpl; tauto|]. rewrite <- Hpath.
        split; [|split; assumption].
        cbn [Sync.run Sync.step]. rewrite Hread. now rewrite Hsave.
      * destruct (readDone_fails i k st Hi Hstage Hfile Hex)
          as (st' & Hread & Hout & Hnone).
        exists [Sync.ReadDone i], st'. split; [simpl; tauto|].
        split; [|split; assumption].
        cbn [Sync.run Sync.step]. now rewrite Hread.
    + destruct (saveDone_settles i k content inputMetrics ok st Hi Hstage Hex)
        as (st' & Hsave & Hout & Hnone).
      exists [Sync.SaveDone i ok], st'. split; [simpl; tauto|].
      split; [|split; assumption].
      cbn [Sync.run Sync.step]. now rewrite Hsave.
  - intros caller p courseId Huser Hout. unfold Sync.syncFile.
    destruct (Sync.fileToSectionMap (Sync.mgr st) !! Js.toLowerCase p);
      [rewrite decide_False by exact Hout; cbv zeta; cbn [Sync.env Sync.on_mgr];
       rewrite Huser|];
      rewrite resume_caller_marks; [|exact Hout].
    cbn. rewrite elem_of_difference, elem_of_singleton. tauto.
Qed.

Lemma push_mutual_exclusion_witness :
  exists st,
    Sync.run (Examples.two_triggers ++ [Sync.ReadDone 0]) Examples.start = Some st
    /\ length (Sync.pushing Examples.intro_loops_path st) = 1%nat
    /\ Sync.upserts (Sync.env (Sync.syncFile Sync.ManualCall
                                  Examples.intro_loops_path "algorithms" st))
       = Sync.upserts (Sync.env st)
    /\ exists st',
         Sync.saveDone 0 false st = Some st'
         /\ (Examples.intro_loops_path ∉ Sync.syncInProgress (Sync.mgr st'))
         /\ Sync.pushing Examples.intro_loops_path st' = [].
Proof.
  destruct (Sync.run (Examples.two_triggers ++ [Sync.ReadDone 0]) Examples.start)
    as [st|] eqn:Hrun; [|vm_compute in Hrun; discriminate Hrun].
  exists st. split; [reflexivity|].
  assert (Hst : Examples.intro_loops_path ∈ Sync.syncInProgress (Sync.mgr st)
                /\ exists k inputMetrics,
                     Sync.tasks (Sync.env st) !! 0%nat = Some k
                     /\ Sync.tk_path k = Examples.intro_loops_path
                     /\ Sync.tk_stage k = Sync.AwaitSave "a" inputMetrics).
  { vm_compute in Hrun. injection Hrun as <-. split; [cbn; set_solver|].
    eexists. eexists. split; [reflexivity|]. split; vm_compute; reflexivity. }
  destruct Hst as (Hin & k & inputMetrics & Hk & Hpath & Hstage).
  destruct (push_mutual_exclusion 0 (Some "ada") (Some Examples.root)
              {[ Examples.intro_loops_path := "a" ]} []
              (Examples.two_triggers ++ [Sync.ReadDone 0]) st Hrun)
    as (Hone & Hskip & Hsettle & _).
  split; [|split].
  - apply (Hone Examples.intro_loops_path), Hin.
  - apply (Hskip Sync.ManualCall Examples.intro_loops_path "algorithms" Hin).
  - rewrite <- Hpath. apply (Hsettle 0%nat k "a" inputMetrics false Hk Hstage).
Defined.

(** ** Debouncing *)

(** When the armed timers of a path are the recorded ones, [queueSync]
    leaves exactly one timer armed for the path: the new one, due [delayMs]
    after the call; and the timers are recorded again. *)
Lemma queueSync_rearms p courseId delayMs st :
  Spec.recorded p st ->
  let st' := Sync.queueSync p courseId delayMs st in
  Sync.timers (Sync.env st') !! Sync.nextTimer (Sync.env st)
  = Some {| Sync.tm_path := p; Sync.tm_courseId := courseId;
            Sync.tm_due := Sync.clock (Sync.env st) + delayMs |}
  /\ (forall h t,
        Sync.timers (Sync.env st') !! h = Some t -> Sync.tm_path t = p ->
        h = Sync.nextTimer (Sync.env st))
  /\ Spec.recorded p st'.
Proof.
  intros Hrec. cbv zeta. unfold Sync.queueSync. cbn.
  set (h0 := Sync.nextTimer (Sync.env st)).
  set (old := match Sync.pendingSaves (Sync.mgr st) !! p with
              | Some existingTimeout => delete existingTimeout (Sync.timers (Sync.env st))
              | None => Sync.timers (Sync.env st)
              end).
  assert (Hold : forall h t, old !! h = Some t ->
                   Sync.timers (Sync.env st) !! h = Some t /\ Sync.tm_path t <> p).
  { intros h t Hh. unfold old in Hh.
    destruct (Sync.pendingSaves (Sync.mgr st) !! p) as [e|] eqn:He.
    - destruct (decide (e = h)) as [->|Hne];
        [rewrite lookup_delete_eq in Hh; discriminate|].
      rewrite lookup_delete_ne in Hh by exact Hne. split; [exact Hh|].
      intros Hp. destruct (Hrec h t Hh) as [_ Hr]. specialize (Hr Hp). congruence.
    - split; [exact Hh|]. intros Hp.
      destruct (Hrec h t Hh) as [_ Hr]. specialize (Hr Hp). congruence. }
  split; [apply lookup_insert_eq|]. split.
  - intros h t Hh Hp. destruct (decide (h0 = h)) as [Heq|Hne]; [now symmetry|].
    rewrite lookup_insert_ne in Hh by exact Hne.
    now destruct (Hold h t Hh).
  - intros h t Hh. cbn in *. destruct (decide (h0 = h)) as [<-|Hne].
    + split; [lia|]. intros _. apply lookup_insert_eq.
    + rewrite lookup_insert_ne in Hh by exact Hne.
      destruct (Hold h t Hh) as [Ht Hp]. destruct (Hrec h t Ht) as [Hlt _].
      fold h0 in Hlt. split; [lia | contradiction].
Qed.

Lemma queueSync_rearms_witness :
  Sync.timers
    (Sync.env (Sync.queueSync Examples.intro_loops_path "algorithms" 2000
                 Examples.start)) !! 0%nat
  = Some {| Sync.tm_path := Examples.intro_loops_path;
            Sync.tm_courseId := "algorithms"; Sync.tm_due := 2000 |}.
Proof.
  apply (queueSync_rearms Examples.intro_loops_path "algorithms" 2000 Examples.start).
  intros h t Hh. cbn in Hh. rewrite lookup_empty in Hh. discriminate.
Defined.

(** C3, evaluated where it fails. In [Examples.race_window] the file is
    saved at 2000 while the write of an earlier push is pending, the write
    completes at 2100 and deletes the [pendingSaves] entry of the timer armed
    at 2000, and the file is saved again at 2800. The second save does not
    cancel the timer of the first: two timers are armed for the path, only
    the later one recorded. Both fire ([Examples.race_pushes]) and each
    pushes the content ["abc"]: two pushes for two saves 800 ms apart. *)
Theorem debounce_window_two_pushes :
  (fun st =>
     (length (Sync.armed Examples.intro_loops_path st),
      Sync.pendingSaves (Sync.mgr st) !! Examples.intro_loops_path,
      Sync.tm_due <$> Sync.timers (Sync.env st) !! 1%nat,
      Sync.tm_due <$> Sync.timers (Sync.env st) !! 2%nat,
      Sync.clock (Sync.env st)))
    <$> Sync.run Examples.race_window Examples.start
  = Some (2%nat, Some 2%nat, Some 4000%Z, Some 4800%Z, 2800%Z)
  /\ (fun st =>
        (fun c => (Sync.up_content c, Sync.up_at c)) <$> Sync.upserts (Sync.env st))
       <$> Sync.run (Examples.race_window ++ Examples.race_pushes) Examples.start
     = Some [("a", 2000%Z); ("abc", 4000%Z); ("abc", 4800%Z)].
Proof. split; vm_compute; reflexivity. Qed.

(** ** Switching the course *)

(** X10. Tracking a lesson of another course empties the session first: only the
    lesson, the entries of its sections and the new course are left, and no
    timer handle is recorded. The armed timers are not part of the manager
    and are not touched. *)
Lemma trackLesson_other_course root exercisesPath lessonId sections courseId c m :
  Js.truthy (Sync.currentCourseId m) = Some c -> c <> courseId ->
  let m' := Sync.trackLesson root exercisesPath lessonId sections courseId m in
  Sync.currentCourseId m' = Some courseId
  /\ Sync.trackedLessons m' = {[lessonId]}
  /\ Sync.fileToSectionMap m'
     = fold_left (Sync.track_section exercisesPath) sections ∅
  /\ Sync.pendingSaves m' = ∅
  /\ Sync.fileWatcher m'
     = (fun r => (r, courseId)) <$> Js.truthy root.
Proof.
  intros Hc Hne. cbv zeta. unfold Sync.trackLesson. rewrite Hc.
  rewrite decide_False by exact Hne. cbn.
  unfold Sync.startCourseWatcher. destruct (Js.truthy root); cbn;
    repeat split; try reflexivity; apply (right_id_L ∅ (∪)).
Qed.

(** X11. Tracking a further lesson of the current course keeps the session:
    the lesson joins the tracked lessons, the entries of its sections are
    added to the map, no entry that was there is lost and the recorded timer
    handles are kept. *)
Lemma trackLesson_same_course root exercisesPath lessonId sections courseId m :
  Js.truthy (Sync.currentCourseId m) = Some courseId ->
  let m' := Sync.trackLesson root exercisesPath lessonId sections courseId m in
  Sync.currentCourseId m' = Some courseId
  /\ Sync.trackedLessons m' = {[lessonId]} ∪ Sync.trackedLessons m
  /\ Sync.fileToSectionMap m'
     = fold_left (Sync.track_section exercisesPath) sections
         (Sync.fileToSectionMap m)
  /\ Sync.pendingSaves m' = Sync.pendingSaves m
  /\ (forall key, is_Some (Sync.fileToSectionMap m !! key) ->
                  is_Some (Sync.fileToSectionMap m' !! key)).
Proof.
  intros Hc. cbv zeta. unfold Sync.trackLesson. rewrite Hc.
  rewrite decide_True by reflexivity. cbn.
  assert (Hkeep : forall (map : gmap string LessonSection) key,
             is_Some (map !! key) ->
             is_Some (fold_left (Sync.track_section exercisesPath) sections map
                        !! key)).
  { induction sections as [|x l IH]; intros map key Hk; [exact Hk|].
    simpl. apply IH. unfold Sync.track_section.
    destruct (sec_type x); try exact Hk.
    rewrite lookup_insert. case_decide; [eauto | exact Hk]. }
  unfold Sync.startCourseWatcher.
  destruct (Sync.fileWatcher m); [|destruct (Js.truthy root)]; cbn;
    repeat split; try reflexivity; apply Hkeep.
Qed.

Lemma trackLesson_other_course_witness :
  Sync.pendingSaves
    (Sync.trackLesson (Some Examples.root) Examples.exercises_sql "lesson-7"
       [Examples.loops_sql] "databases"
       (Sync.trackLesson (Some Examples.root) Examples.exercises "lesson-1"
          [Examples.intro_loops] "algorithms" Sync.new_manager)) = ∅.
Proof.
  apply (trackLesson_other_course (Some Examples.root) Examples.exercises_sql
           "lesson-7" [Examples.loops_sql] "databases" "algorithms");
    [reflexivity | discriminate].
Defined.

Lemma trackLesson_same_course_witness :
  Sync.trackedLessons
    (Sync.trackLesson (Some Examples.root) Examples.exercises "lesson-2"
       [Examples.arrays] "algorithms"
       (Sync.trackLesson (Some Examples.root) Examples.exercises "lesson-1"
          [Examples.intro_loops] "algorithms" Sync.new_manager))
  = {[ "lesson-2" ]} ∪ {[ "lesson-1" ]} ∪ ∅.
Proof.
  apply (trackLesson_same_course (Some Examples.root) Examples.exercises
           "lesson-2" [Examples.arrays] "algorithms"). reflexivity.
Defined.

(** C8, evaluated where it fails. A save in the course [algorithms] arms a
    timer; opening a lesson of the course [databases] empties [pendingSaves]
    and leaves the timer armed. When the exercises of that lesson are in the
    same folder ([Examples.switch_same_folder]), the timer fires and pushes
    the file as the answer of a section of [databases], with the course
    [algorithms]. When the first lesson is opened again
    ([Examples.switch_and_back]), the timer fires and pushes the save made
    before the session was emptied. *)
Theorem course_switch_leaves_timer_armed :
  (fun st =>
     (Sync.currentCourseId (Sync.mgr st),
      size (Sync.pendingSaves (Sync.mgr st)),
      Sync.tm_courseId <$> Sync.timers (Sync.env st) !! 0%nat))
    <$> Sync.run Examples.switch_same_folder Examples.start
  = Some (Some "databases", 0%nat, Some "algorithms")
  /\ (fun st =>
        ((fun c => (Sync.up_sectionId c, Sync.up_courseId c, Sync.up_content c))
           <$> Sync.upserts (Sync.env st),
         (fun d => (Firebase.ans_sectionId d, Firebase.ans_courseId d))
           <$> Sync.db (Sync.env st),
         Sync.currentCourseId (Sync.mgr st)))
       <$> Sync.run (Examples.switch_same_folder ++ Examples.stale_timer_pushes)
             Examples.start
     = Some ([("sec-sql-loops", "algorithms", "a")],
             [("sec-sql-loops", Some "algorithms")],
             Some "databases")
  /\ (fun st =>
        (fun c => (Sync.up_sectionId c, Sync.up_content c, Sync.up_at c))
          <$> Sync.upserts (Sync.env st))
       <$> Sync.run (Examples.switch_and_back ++ Examples.stale_timer_pushes)
             Examples.start
     = Some [("sec-loops", "a", 2500%Z)].
Proof. repeat split; vm_compute; reflexivity. Qed.

(** ** The upsert of a push *)

Section Upsert.

Import Firebase.

Lemma query_updateDoc sectionId userId f db s u :
  (forall d, ans_sectionId (f d) = ans_sectionId d /\ ans_userId (f d) = ans_userId d) ->
  query (updateDoc sectionId userId f db) s u
  = match query db s u with
    | [] => []
    | d :: r =>
        if (bool_decide (s = sectionId) && bool_decide (u = userId))%bool
        then f d :: r else d :: r
    end.
Proof.
  intros Hf. unfold query.
  assert (Hm : forall a b d, matches a b (f d) = matches a b d).
  { intros a b d. unfold matches. destruct (Hf d) as [-> ->]. reflexivity. }
  destruct (bool_decide (s = sectionId) && bool_decide (u = userId))%bool eqn:Hk.
  - apply andb_prop in Hk as [->%bool_decide_eq_true ->%bool_decide_eq_true].
    induction db as [|d db IH]; [reflexivity|].
    cbn [updateDoc]. destruct (matches sectionId userId d) eqn:Hd;
      cbn [List.filter]; rewrite ?Hm, Hd; [reflexivity | exact IH].
  - assert (Hsame : List.filter (matches s u) (updateDoc sectionId userId f db)
                    = List.filter (matches s u) db).
    { induction db as [|d db IH]; [reflexivity|].
      cbn [updateDoc]. destruct (matches sectionId userId d) eqn:Hd;
        cbn [List.filter]; rewrite ?Hm; [|now rewrite IH].
      destruct (matches s u d) eqn:Hsu; [|reflexivity]. exfalso.
      unfold matches in Hd, Hsu.
      apply andb_prop in Hd as [H1%bool_decide_eq_true H2%bool_decide_eq_true].
      apply andb_prop in Hsu as [H3%bool_decide_eq_true H4%bool_decide_eq_true].
      rewrite !bool_decide_eq_true_2 in Hk by congruence. discriminate. }
    rewrite Hsame. now destruct (List.filter (matches s u) db).
Qed.

Lemma length_updateDoc sectionId userId f db :
  length (updateDoc sectionId userId f db) = length db.
Proof.
  induction db as [|d db IH]; [reflexivity|].
  cbn [updateDoc]. destruct (matches sectionId userId d); simpl; congruence.
Qed.

Lemma metrics_updateDoc sectionId userId f db :
  (forall d, ans_inputMetrics (f d) = ans_inputMetrics d) ->
  ans_inputMetrics <$> updateDoc sectionId userId f db = ans_inputMetrics <$> db.
Proof.
  intros Hf. induction db as [|d db IH]; [reflexivity|].
  cbn [updateDoc]. destruct (matches sectionId userId d); rewrite !fmap_cons.
  - now rewrite Hf.
  - now rewrite IH.
Qed.

(** What [saveStudentAnswer] does to the collection: with an answer of the
    section and the user in it, that document gets the content and the time
    and nothing is added; without one, a document with the lesson and the
    course is added. Either way it is then the answer a query finds, and a
    collection with at most one answer per section and user stays so. *)
Lemma saveStudentAnswer_upsert now sectionId userId lessonId content type courseId db :
  let db' := saveStudentAnswer now sectionId userId lessonId content type courseId db in
  match getStudentAnswer db sectionId userId with
  | Some d =>
      length db' = length db
      /\ getStudentAnswer db' sectionId userId
         = Some {| ans_sectionId := ans_sectionId d; ans_userId := ans_userId d;
                   ans_lessonId := ans_lessonId d; ans_answer := Some content;
                   ans_type := ans_type d; ans_courseId := ans_courseId d;
                   ans_createdAt := ans_createdAt d; ans_updatedAt := now;
                   ans_inputMetrics := ans_inputMetrics d |}
  | None =>
      db' = (db ++ [{| ans_sectionId := sectionId; ans_userId := userId;
                       ans_lessonId := lessonId; ans_answer := Some content;
                       ans_type := type; ans_courseId := Js.truthy courseId;
                       ans_createdAt := now; ans_updatedAt := now;
                       ans_inputMetrics := None |}])%list
  end
  /\ (Spec.single_record db -> Spec.single_record db').
Proof.
  cbv zeta. unfold saveStudentAnswer, getStudentAnswer.
  destruct (query db sectionId userId) as [|d r] eqn:Hq; cbn [head].
  - split; [reflexivity|]. intros Hs s u. unfold addDoc, query.
    rewrite List.filter_app, length_app. cbn [List.filter].
    destruct (matches s u _) eqn:Hm; cbn [length]; [|specialize (Hs s u); unfold query in Hs; lia].
    unfold matches in Hm. cbn in Hm.
    apply andb_prop in Hm as [->%bool_decide_eq_true ->%bool_decide_eq_true].
    unfold query in Hq. rewrite Hq. simpl. lia.
  - split.
    + split; [apply length_updateDoc|].
      rewrite query_updateDoc by (intros; split; reflexivity). rewrite Hq.
      now rewrite !bool_decide_eq_true_2 by reflexivity.
    + intros Hs s u. rewrite query_updateDoc by (intros; split; reflexivity).
      specialize (Hs s u). destruct (query db s u) as [|d' r']; [simpl; lia|].
      destruct (_ && _)%bool; exact Hs.
Qed.

(** No call of [saveStudentAnswer] writes the field [inputMetrics]. *)
Lemma saveStudentAnswer_metrics now sectionId userId lessonId content type courseId db :
  let db' := saveStudentAnswer now sectionId userId lessonId content type courseId db in
  ans_inputMetrics <$> db' = ans_inputMetrics <$> db
  \/ ans_inputMetrics <$> db' = ((ans_inputMetrics <$> db) ++ [None])%list.
Proof.
  cbv zeta. unfold saveStudentAnswer.
  destruct (query db sectionId userId) as [|d r].
  - right. unfold addDoc. now rewrite fmap_app.
  - left. now apply metrics_updateDoc.
Qed.

End Upsert.

Lemma saveStudentAnswer_upsert_witness :
  Spec.single_record
    (Firebase.saveStudentAnswer 2000 "sec-loops" "ada" "lesson-1" "print(2)"
       Firebase.AnswerCode (Some "algorithms") [Examples.saved "print(1)"]).
Proof.
  apply (saveStudentAnswer_upsert 2000 "sec-loops" "ada" "lesson-1" "print(2)"
           Firebase.AnswerCode (Some "algorithms") [Examples.saved "print(1)"]).
  intros s u. unfold Firebase.query. simpl.
  destruct (Firebase.matches s u _); simpl; lia.
Defined.

(** C4, evaluated where it fails. In [Examples.push_with_metrics] the user
    types a character and pastes seven, saves, and the push completes over
    an answer saved before. [syncFile] calls [saveStudentAnswer] with the
    metrics of the edits (1 keystroke, 1 paste of 7 characters, 300 ms); the
    answer in the collection has the new content and time in place, and no
    input metrics. *)
Theorem push_drops_input_metrics :
  (fun st =>
     ((fun c => (Sync.up_content c, Sync.up_inputMetrics c))
        <$> Sync.upserts (Sync.env st),
      Sync.db (Sync.env st)))
    <$> Sync.run Examples.push_with_metrics Examples.start_saved
  = Some ([("print(2)",
            {| im_keystrokeCount := 1; im_pasteCount := 1;
               im_pasteCharCount := 7; im_editDurationMs := 300;
               im_charCount := 8; im_firstInputAt := 5000;
               im_lastInputAt := 5300 |})],
          [{| Firebase.ans_sectionId := "sec-loops";
              Firebase.ans_userId := "ada";
              Firebase.ans_lessonId := "lesson-1";
              Firebase.ans_answer := Some "print(2)";
              Firebase.ans_type := Firebase.AnswerCode;
              Firebase.ans_courseId := Some "algorithms";
              Firebase.ans_createdAt := 1000;
              Firebase.ans_updatedAt := 5550;
              Firebase.ans_inputMetrics := None |}]).
Proof. vm_compute. reflexivity. Qed.

(** ** The slug as a normal form *)

Section SlugFacts.

Import Js Slug Spec.

Abbreviation slug_char := (fun c => (is_alnum c || is_us c)%bool).

Lemma underscore_is_us : is_us underscore = true.
Proof. reflexivity. Qed.

Lemma underscore_not_alnum c : is_us c = true -> is_alnum c = false.
Proof.
  intros H. destruct (is_alnum c) eqn:Hc; [|reflexivity].
  rewrite (alnum_not_us _ Hc) in H. discriminate.
Qed.

Lemma is_us_eq c : is_us c = true -> c = underscore.
Proof. destruct c as [[] [] [] [] [] [] [] []]; vm_compute; congruence. Qed.

Lemma slug_char_lower c : slug_char c = true -> lower_char c = c.
Proof. destruct c as [[] [] [] [] [] [] [] []]; vm_compute; congruence. Qed.

Lemma replace_alphabet b s :
  all_chars slug_char (replace_non_alnum_runs b s) = true.
Proof.
  revert b. induction s as [|c s IH]; intros b; simpl; [reflexivity|].
  destruct (is_alnum c) eqn:Hc; simpl.
  - now rewrite Hc, IH.
  - destruct b; [apply IH|]. simpl. now rewrite IH.
Qed.

Lemma replace_start s : starts_us (replace_non_alnum_runs true s) = false.
Proof.
  induction s as [|c s IH]; simpl; [reflexivity|].
  destruct (is_alnum c) eqn:Hc; [|exact IH]. simpl. now apply alnum_not_us.
Qed.

Lemma replace_double b s : double_us (replace_non_alnum_runs b s) = false.
Proof.
  revert b. induction s as [|c s IH]; intros b; simpl; [reflexivity|].
  destruct (is_alnum c) eqn:Hc; simpl.
  - now rewrite (alnum_not_us _ Hc), IH.
  - destruct b; [apply IH|]. simpl. now rewrite replace_start, IH.
Qed.

Lemma drop_leading_alphabet P s :
  all_chars P s = true -> all_chars P (drop_leading_us s) = true.
Proof.
  induction s as [|c s IH]; simpl; [reflexivity|].
  intros [Hc Hs]%andb_prop. destruct (is_us c); [now apply IH|].
  simpl. now rewrite Hc, Hs.
Qed.

Lemma drop_trailing_alphabet P s :
  all_chars P s = true -> all_chars P (drop_trailing_us s) = true.
Proof.
  induction s as [|c s IH]; [reflexivity|].
  intros [Hc Hs]%andb_prop. cbn [drop_trailing_us].
  destruct (all_us (String c s)); [reflexivity|]. simpl. now rewrite Hc, IH.
Qed.

Lemma drop_leading_start s : starts_us (drop_leading_us s) = false.
Proof.
  induction s as [|c s IH]; simpl; [reflexivity|].
  destruct (is_us c) eqn:Hc; [exact IH|]. exact Hc.
Qed.

Lemma drop_leading_double s :
  double_us s = false -> double_us (drop_leading_us s) = false.
Proof.
  induction s as [|c s IH]; simpl; [reflexivity|].
  intros [_ Hs]%orb_false_elim. destruct (is_us c) eqn:Hc; [now apply IH|].
  simpl. rewrite ?Hc. exact Hs.
Qed.

Lemma drop_trailing_start s :
  starts_us s = false -> starts_us (drop_trailing_us s) = false.
Proof.
  destruct s as [|c s]; [reflexivity|]. intros Hc. cbn [drop_trailing_us].
  destruct (all_us (String c s)); [reflexivity | exact Hc].
Qed.

Lemma drop_trailing_nil s : drop_trailing_us s = EmptyString -> all_us s = true.
Proof.
  destruct s as [|c s]; [reflexivity|]. cbn [drop_trailing_us].
  destruct (all_us (String c s)); [reflexivity | discriminate].
Qed.

Lemma drop_trailing_end s : ends_us (drop_trailing_us s) = false.
Proof.
  induction s as [|c s IH]; [reflexivity|]. cbn [drop_trailing_us].
  destruct (all_us (String c s)) eqn:Hall; [reflexivity|].
  cbn [ends_us]. destruct (drop_trailing_us s) as [|d r] eqn:Hd; [|exact IH].
  apply drop_trailing_nil in Hd. simpl in Hall. rewrite Hd, andb_true_r in Hall.
  exact Hall.
Qed.

Lemma drop_trailing_starts_le s :
  starts_us (drop_trailing_us s) = true -> starts_us s = true.
Proof.
  destruct s as [|c s]; [discriminate|]. cbn [drop_trailing_us].
  destruct (all_us (String c s)); [discriminate | trivial].
Qed.

Lemma drop_trailing_double s :
  double_us s = false -> double_us (drop_trailing_us s) = false.
Proof.
  induction s as [|c s IH]; [reflexivity|]. cbn [drop_trailing_us].
  destruct (all_us (String c s)); [reflexivity|].
  simpl. intros [H1 H2]%orb_false_elim. rewrite (IH H2), orb_false_r.
  destruct (is_us c); [|reflexivity]. simpl in *.
  destruct (starts_us (drop_trailing_us s)) eqn:Hs; [|reflexivity].
  apply drop_trailing_starts_le in Hs. congruence.
Qed.

(** On a slug the three steps of [sanitizeFileName] change nothing. *)
Lemma lower_slug s : all_chars slug_char s = true -> toLowerCase s = s.
Proof.
  induction s as [|c s IH]; simpl; [reflexivity|].
  intros [Hc Hs]%andb_prop. now rewrite (slug_char_lower _ Hc), IH.
Qed.

Lemma replace_slug b s :
  all_chars slug_char s = true -> double_us s = false ->
  (b = true -> starts_us s = false) ->
  replace_non_alnum_runs b s = s.
Proof.
  revert b. induction s as [|c s IH]; intros b Ha Hd Hb; [reflexivity|].
  simpl in Ha, Hd. apply andb_prop in Ha as [Hc Ha].
  apply orb_false_elim in Hd as [Hcs Hd]. simpl.
  destruct (is_alnum c) eqn:Halnum.
  - f_equal. apply IH; [exact Ha | exact Hd | discriminate].
  - simpl in Hc. assert (Hus : is_us c = true) by exact Hc.
    destruct b; [specialize (Hb eq_refl); simpl in Hb; congruence|].
    rewrite (is_us_eq _ Hus). f_equal.
    apply IH; [exact Ha | exact Hd |]. intros _.
    rewrite Hus in Hcs. exact Hcs.
Qed.

Lemma drop_leading_slug s : starts_us s = false -> drop_leading_us s = s.
Proof. destruct s as [|c s]; [reflexivity|]. simpl. now intros ->. Qed.

Lemma all_us_ends c s : all_us (String c s) = true -> ends_us (String c s) = true.
Proof.
  revert c. induction s as [|d s IH]; intros c; simpl.
  - now rewrite andb_true_r.
  - intros [_ H]%andb_prop. now apply IH.
Qed.

Lemma drop_trailing_slug s : ends_us s = false -> drop_trailing_us s = s.
Proof.
  induction s as [|c s IH]; [reflexivity|]. intros He. cbn [drop_trailing_us].
  destruct (all_us (String c s)) eqn:Hall;
    [apply all_us_ends in Hall; congruence|].
  f_equal. destruct s as [|d s]; [reflexivity|]. apply IH. exact He.
Qed.

End SlugFacts.

(** X1. [sanitizeFileName] is a projection onto the slugs: its result is
    always a slug (characters of [a-z0-9_] only, no underscore first or last,
    no two underscores side by side), and it returns every slug unchanged; so
    sanitising twice is sanitising once. *)
Theorem sanitizeFileName_projection :
  (forall name, Slug.is_slug (Paths.sanitizeFileName name) = true)
  /\ (forall s, Slug.is_slug s = true -> Paths.sanitizeFileName s = s)
  /\ (forall name,
        Paths.sanitizeFileName (Paths.sanitizeFileName name)
        = Paths.sanitizeFileName name).
Proof.
  assert (H1 : forall name, Slug.is_slug (Paths.sanitizeFileName name) = true).
  { intros name. unfold Slug.is_slug, Paths.sanitizeFileName, Js.trim_us.
    rewrite drop_trailing_alphabet
      by apply drop_leading_alphabet, replace_alphabet.
    rewrite drop_trailing_start by apply drop_leading_start.
    rewrite drop_trailing_end.
    rewrite drop_trailing_double
      by apply drop_leading_double, replace_double.
    reflexivity. }
  assert (H2 : forall s, Slug.is_slug s = true -> Paths.sanitizeFileName s = s).
  { intros s Hs. unfold Slug.is_slug in Hs.
    apply andb_prop in Hs as [Hs Hd]. apply andb_prop in Hs as [Hs He].
    apply andb_prop in Hs as [Ha Hl].
    apply negb_true_iff in Hd, He, Hl.
    unfold Paths.sanitizeFileName, Js.trim_us.
    rewrite (lower_slug _ Ha), (replace_slug false s Ha Hd) by discriminate.
    now rewrite (drop_leading_slug _ Hl), (drop_trailing_slug _ He). }
  split; [exact H1|]. split; [exact H2|].
  intros name. apply H2, H1.
Qed.

Lemma sanitizeFileName_projection_witness :
  Paths.sanitizeFileName "intro_to_loops" = "intro_to_loops".
Proof.
  apply (proj1 (proj2 sanitizeFileName_projection) "intro_to_loops").
  reflexivity.
Defined.

(** ** What the watcher delivers *)

Section WatcherFacts.

Import Js Paths Props.

Lemma append_cons c a b : String c a +:+ b = String c (a +:+ b).
Proof. reflexivity. Qed.

Lemma append_assoc a b c : (a +:+ b) +:+ c = a +:+ (b +:+ c).
Proof.
  induction a as [|x a IH]; [reflexivity|]. rewrite !append_cons. now rewrite IH.
Qed.

Lemma length_append a b :
  String.length (a +:+ b) = (String.length a + String.length b)%nat.
Proof.
  induction a as [|c a IH]; [reflexivity|]. rewrite append_cons. simpl.
  now rewrite IH.
Qed.

Lemma prefix_app a b : String.prefix a (a +:+ b) = true.
Proof.
  induction a as [|c a IH]; [now destruct b|]. rewrite append_cons. simpl.
  destruct (ascii_dec c c); [exact IH | congruence].
Qed.

Lemma prefix_app2 a b c : String.prefix (a +:+ b) (a +:+ (b +:+ c)) = true.
Proof. rewrite <- append_assoc. apply prefix_app. Qed.

Lemma ends_with_refl s : Sync.ends_with s s = true.
Proof. destruct s; cbn [Sync.ends_with]; case_decide; congruence. Qed.

Lemma ends_with_app a t suffix :
  Sync.ends_with t suffix = true -> Sync.ends_with (a +:+ t) suffix = true.
Proof.
  intros H. induction a as [|c a IH]; [exact H|].
  rewrite append_cons. simpl. case_decide; [reflexivity | exact IH].
Qed.

Lemma ends_with_inv s suffix :
  Sync.ends_with s suffix = true -> exists pre, s = pre +:+ suffix.
Proof.
  induction s as [|c s IH]; simpl; case_decide as Heq.
  - intros _. exists EmptyString. now rewrite <- Heq.
  - discriminate.
  - intros _. exists EmptyString. now rewrite <- Heq.
  - intros [pre ->]%IH. now exists (String c pre).
Qed.

Lemma append_nil_inv a t : a +:+ t = EmptyString -> t = EmptyString.
Proof. destruct a; [trivial | discriminate]. Qed.

Lemma last_char_app a t :
  t <> EmptyString -> last_char (a +:+ t) = last_char t.
Proof.
  intros Ht. induction a as [|c a IH]; [reflexivity|].
  rewrite append_cons. simpl. destruct (a +:+ t) eqn:Hat; [|exact IH].
  apply append_nil_inv in Hat. contradiction.
Qed.

Lemma extension_cases k ext :
  table_get extensions k = Some ext ->
  In ext ["py"; "java"; "cs"; "ts"; "js"].
Proof.
  unfold extensions. simpl. repeat case_decide; intros [= <-]; simpl; tauto.
Qed.

Lemma lower_char_idem c : Js.lower_char (Js.lower_char c) = Js.lower_char c.
Proof.
  destruct c as [[] [] [] [] [] [] [] []]; reflexivity.
Qed.

Lemma toLowerCase_idem s : Js.toLowerCase (Js.toLowerCase s) = Js.toLowerCase s.
Proof.
  induction s as [|c s IH]; [reflexivity|]. simpl.
  now rewrite lower_char_idem, IH.
Qed.

Lemma of_segments_app a b :
  Watch.of_segments (a ++ b)%list = Watch.of_segments a +:+ Watch.of_segments b.
Proof.
  induction a as [|s a IH]; [reflexivity|].
  cbn [Watch.of_segments app]. rewrite IH.
  change ("/" +:+ s +:+ Watch.of_segments a +:+ Watch.of_segments b)
    with (String "/" (s +:+ (Watch.of_segments a +:+ Watch.of_segments b))).
  change ("/" +:+ s +:+ Watch.of_segments a)
    with (String "/" (s +:+ Watch.of_segments a)).
  rewrite append_cons. now rewrite append_assoc.
Qed.

(** A file in a directory of segments lies behind a separator. *)
Lemma of_segments_file segs file :
  exists rest, Watch.of_segments segs +:+ "/" +:+ file = "/" +:+ rest.
Proof.
  destruct segs as [|s segs]; [now exists file|].
  exists (s +:+ Watch.of_segments segs +:+ "/" +:+ file).
  cbn [Watch.of_segments].
  change ("/" +:+ s +:+ Watch.of_segments segs)
    with (String "/" (s +:+ Watch.of_segments segs)).
  rewrite append_cons. now rewrite append_assoc.
Qed.

Lemma append_empty_r s : s +:+ "" = s.
Proof.
  induction s as [|c s IH]; [reflexivity|]. rewrite append_cons. now rewrite IH.
Qed.

Lemma of_segments_snoc segs file :
  Watch.of_segments (segs ++ [file])%list
  = path_join (Watch.of_segments segs) file.
Proof.
  rewrite of_segments_app. cbn [Watch.of_segments]. unfold path_join.
  now rewrite append_empty_r.
Qed.

Lemma all_chars_weaken (P Q : ascii -> bool) s :
  (forall c, P c = true -> Q c = true) ->
  Spec.all_chars P s = true -> Spec.all_chars Q s = true.
Proof.
  intros HPQ. induction s as [|c s IH]; [reflexivity|]. simpl.
  intros [Hc Hs]%andb_prop. now rewrite (HPQ c Hc), IH.
Qed.

Lemma all_chars_app P a b :
  Spec.all_chars P a = true -> Spec.all_chars P b = true ->
  Spec.all_chars P (a +:+ b) = true.
Proof.
  intros Ha Hb. induction a as [|c a IH]; [exact Hb|].
  rewrite append_cons. simpl in *. apply andb_prop in Ha as [Hc Ha].
  now rewrite Hc, IH.
Qed.

Lemma includes_separator s :
  Spec.all_chars Watch.not_separator s = true -> includes s "/" = false.
Proof.
  induction s as [|c s IH]; [reflexivity|]. intros H.
  cbn [Spec.all_chars] in H. apply andb_prop in H as [Hc Hs].
  unfold Watch.not_separator in Hc.
  apply negb_true_iff, bool_decide_eq_false in Hc.
  cbn [includes String.prefix].
  destruct (ascii_dec "/" c) as [Heq|_]; [now subst c|]. now apply IH.
Qed.

Lemma sanitizeFileName_alphabet title :
  Spec.all_chars Watch.not_separator (sanitizeFileName title) = true.
Proof.
  apply (all_chars_weaken (fun c => (is_alnum c || is_us c)%bool)).
  - intros c. destruct c as [[] [] [] [] [] [] [] []]; vm_compute; congruence.
  - unfold sanitizeFileName, trim_us.
    apply drop_trailing_alphabet, drop_leading_alphabet, replace_alphabet.
Qed.

Lemma pretty_Z_separator (z : Z) :
  Spec.all_chars Watch.not_separator (pretty z) = true.
Proof.
  apply pretty_Z_all; [|reflexivity].
  intros x. unfold pretty_N_char. repeat case_match; reflexivity.
Qed.

(** The file name of an exercise is one plain segment. *)
Lemma exerciseFileName_plain s :
  Watch.plain_segment (exerciseFileName s) = true.
Proof.
  unfold Watch.plain_segment.
  assert (Hsep : includes (exerciseFileName s) "/" = false).
  { apply includes_separator. unfold exerciseFileName, getFileExtension.
    apply all_chars_app; [reflexivity|].
    apply all_chars_app; [apply pretty_Z_separator|].
    apply all_chars_app; [reflexivity|].
    apply all_chars_app; [apply sanitizeFileName_alphabet|].
    destruct (table_get extensions _) as [ext|] eqn:Hext; [|reflexivity].
    apply extension_cases in Hext. simpl in Hext.
    destruct Hext as [<-|[<-|[<-|[<-|[<-|[]]]]]]; reflexivity. }
  rewrite Hsep. unfold exerciseFileName.
  change ("exercise_" +:+ ?r) with (String "e" ("xercise_" +:+ r)).
  rewrite !bool_decide_eq_false_2 by discriminate. reflexivity.
Qed.

End WatcherFacts.

(** X2. The watcher of [startCourseWatcher], on normalised paths. For a
    workspace folder and an exercises folder under its [topics] made of
    plain segments, the path [trackLesson] and [createExerciseFile] build for
    a section whose language has an entry in the table of extensions is
    itself a normalised path of plain segments, the file name being one of
    them, so [path.join] leaves it as it is; and the watcher delivers it.
    For any other language that is not the name of a member inherited from
    [Object.prototype], [getFileExtension] gives [txt], and no path that ends
    with the file name of such a section, itself one plain segment, is
    delivered, whatever the folder: its saves are not debounced into pushes. Of the inherited names only
    [constructor] and [__proto__] can be met, the key being lower-cased. *)
Theorem watcher_covers_known_languages :
  (forall rootSegs restSegs s,
      Forall (fun x => Watch.plain_segment x = true) rootSegs ->
      Forall (fun x => Watch.plain_segment x = true) restSegs ->
      Props.known_language s = true ->
      let exercisesPath :=
        Watch.of_segments (rootSegs ++ "topics" :: restSegs)%list in
      let segments :=
        (rootSegs ++ "topics" :: restSegs ++ [Paths.exerciseFileName s])%list in
      Paths.exerciseFilePath exercisesPath s = Watch.of_segments segments
      /\ Forall (fun x => Watch.plain_segment x = true) segments
      /\ Sync.watched (Watch.of_segments rootSegs)
           (Paths.exerciseFilePath exercisesPath s) = true)
  /\ (forall root folder s,
        Props.known_language s = false ->
        Watch.inherited_key (Js.toLowerCase (Props.language_of s)) = false ->
        Paths.getFileExtension (Props.language_of s) = "txt"
        /\ Watch.plain_segment (Paths.exerciseFileName s) = true
        /\ Sync.watched root (folder +:+ Paths.exerciseFileName s) = false)
  /\ (forall language,
        Watch.inherited_key (Js.toLowerCase language) = true ->
        Js.toLowerCase language = "constructor"
        \/ Js.toLowerCase language = "__proto__").
Proof.
  split; [|split].
  - intros rootSegs restSegs s Hroot Hrest Hk. cbv zeta.
    split; [|split].
    + unfold Paths.exerciseFilePath.
      change (rootSegs ++ "topics" :: restSegs ++ [Paths.exerciseFileName s])%list
        with (rootSegs ++ ("topics" :: restSegs) ++ [Paths.exerciseFileName s])%list.
      rewrite (assoc_L (++)%list). now rewrite of_segments_snoc.
    + apply Forall_app. split; [exact Hroot|].
      apply Forall_cons. split; [reflexivity|].
      apply Forall_app. split; [exact Hrest|].
      apply Forall_cons. split; [|apply Forall_nil_2].
      apply exerciseFileName_plain.
    + unfold Props.known_language in Hk.
      apply bool_decide_eq_true in Hk as [ext Hext].
      unfold Sync.watched, Paths.exerciseFilePath, Paths.path_join.
      apply andb_true_intro. split.
      * rewrite of_segments_app. cbn [Watch.of_segments].
        destruct (of_segments_file restSegs (Paths.exerciseFileName s))
          as [rest Hrest'].
        change ("/" +:+ "topics" +:+ Watch.of_segments restSegs)
          with ("/topics" +:+ Watch.of_segments restSegs).
        rewrite !append_assoc. rewrite Hrest'.
        change ("/topics" +:+ "/" +:+ rest) with ("/topics/" +:+ rest).
        apply prefix_app2.
      * unfold Paths.exerciseFileName, Paths.getFileExtension.
        fold (Props.language_of s). rewrite Hext.
        apply extension_cases in Hext. simpl in Hext.
        destruct Hext as [<-|[<-|[<-|[<-|[<-|[]]]]]];
          cbn [Js.or_else Js.truthy default]; cbn [existsb];
          rewrite ?orb_true_iff.
        -- left. do 6 apply ends_with_app. reflexivity.
        -- right; left. do 6 apply ends_with_app. reflexivity.
        -- right; right; left. do 6 apply ends_with_app. reflexivity.
        -- right; right; right; left. do 6 apply ends_with_app. reflexivity.
        -- right; right; right; right; left. do 6 apply ends_with_app.
           reflexivity.
  - intros root folder s Hk _. unfold Props.known_language in Hk.
    apply bool_decide_eq_false in Hk.
    assert (Hnone : Paths.table_get Paths.extensions
                      (Js.toLowerCase (Props.language_of s)) = None).
    { destruct (Paths.table_get _ _) eqn:H; [|reflexivity].
      exfalso. apply Hk. eauto. }
    assert (Hext : Paths.getFileExtension (Props.language_of s) = "txt")
      by (unfold Paths.getFileExtension; now rewrite Hnone).
    split; [exact Hext|]. split; [apply exerciseFileName_plain|].
    unfold Sync.watched. apply andb_false_intro2.
    assert (Hlast : Props.last_char (folder +:+ Paths.exerciseFileName s)
                    = Some "t"%char).
    { unfold Paths.exerciseFileName.
      fold (Props.language_of s). rewrite Hext.
      repeat (rewrite last_char_app;
              [|intros Hnil; repeat apply append_nil_inv in Hnil; discriminate]).
      reflexivity. }
    cbn [existsb]. rewrite !orb_false_iff.
    repeat split; try reflexivity;
      (destruct (Sync.ends_with _ _) eqn:He; [|reflexivity]);
      apply ends_with_inv in He as [pre Hpre]; rewrite Hpre in Hlast;
      rewrite last_char_app in Hlast by discriminate; discriminate Hlast.
  - intros language Hin. unfold Watch.inherited_key, Watch.object_members in Hin.
    pose proof (toLowerCase_idem language) as Hidem.
    cbn [existsb] in Hin. rewrite !orb_true_iff in Hin.
    repeat match type of Hin with
           | _ \/ _ => destruct Hin as [Hin|Hin]
           end;
      try discriminate Hin;
      apply bool_decide_eq_true in Hin; rewrite <- Hin in Hidem |- *;
      try (left; reflexivity); try (right; reflexivity);
      vm_compute in Hidem; discriminate Hidem.
Qed.

Lemma watcher_covers_known_languages_witness :
  Sync.watched Examples.root
    (Paths.exerciseFilePath Examples.exercises Examples.intro_loops) = true
  /\ Sync.watched Examples.root
       (Paths.exerciseFilePath Examples.exercises Examples.pseudocode) = false.
Proof.
  split.
  - apply (proj1 watcher_covers_known_languages
             ["home"; "ada"; "cs-platform-workspace"; "ada"; "algorithms"]
             ["loops"; "lesson-1"; "exercises"] Examples.intro_loops);
      [repeat constructor | repeat constructor | reflexivity].
  - apply (proj1 (proj2 watcher_covers_known_languages) Examples.root
             (Examples.exercises +:+ "/") Examples.pseudocode);
      reflexivity.
Defined.

(** ** Opening a lesson *)

Section LessonFacts.

Import Firebase Workspace Lesson Props LessonProps.

Lemma starter_content section :
  Js.or_else (Some (Js.or_else (sec_starterValue section) ""))
    (getDefaultBoilerplate (language_of section) (sec_title section))
  = Js.or_else (sec_starterValue section)
      (getDefaultBoilerplate (language_of section) (sec_title section)).
Proof. now destruct (sec_starterValue section) as [[|c v]|]. Qed.

(** [createExerciseFile], read path by path. *)
Lemma createExerciseFile_at db (fs : gmap string string) section dir user q :
  (createExerciseFile db fs section dir user).1 !! q
  = op_at q (fs !! q) (exercise_op db dir user section).
Proof.
  unfold op_at, exercise_op, action_of, createExerciseFile. cbv zeta. cbn [fst snd].
  fold (language_of section). rewrite starter_content.
  destruct (match Js.truthy user with
            | Some u =>
                match getStudentAnswer db (sec_id section) u with
                | Some answer => Js.truthy (ans_answer answer)
                | None => None
                end
            | None => None
            end) as [a|]; cbn [fst act_at].
  - rewrite lookup_insert. case_decide; case_decide; congruence.
  - unfold fileExists. case_bool_decide as Hex; cbn [negb fst].
    + destruct Hex as [x Hx]. case_decide; [subst q; now rewrite Hx | reflexivity].
    + rewrite lookup_insert. case_decide; case_decide; try congruence.
      subst q. destruct (fs !! Paths.exerciseFilePath dir section) eqn:Hq;
        [exfalso; apply Hex; eauto | reflexivity].
Qed.

Lemma fold_createExerciseFile_at db dir user l (fs : gmap string string) q :
  fold_left (fun fs section => (createExerciseFile db fs section dir user).1) l fs !! q
  = fold_left (op_at q) (map (exercise_op db dir user) l) (fs !! q).
Proof.
  revert fs. induction l as [|s l IH]; intros fs; [reflexivity|].
  cbn [fold_left map]. now rewrite IH, createExerciseFile_at.
Qed.

(** [setupLessonFiles], read path by path. *)
Lemma setupLessonFiles_at db (fs : gmap string string) lessonPath dir sections user q :
  setupLessonFiles db fs lessonPath dir sections user !! q
  = fold_left (op_at q) (ops db lessonPath dir sections user) (fs !! q).
Proof.
  unfold setupLessonFiles, ops, createLessonReadme. cbv zeta.
  rewrite fold_createExerciseFile_at. cbn [fold_left]. f_equal.
  unfold op_at. cbn [fst snd act_at]. rewrite lookup_insert.
  case_decide; case_decide; congruence.
Qed.

Lemma settling_op q op : settling (fun o => op_at q o op).
Proof.
  unfold op_at. destruct op as [p [c|c]]; cbn [fst snd]; case_decide.
  - right; left. now exists c.
  - now left.
  - right; right. now exists c.
  - now left.
Qed.

Lemma settling_compose f g :
  settling f -> settling g -> settling (fun o => g (f o)).
Proof.
  intros [Hf|[[c Hf]|[c Hf]]] [Hg|[[d Hg]|[d Hg]]].
  - left. intros o. now rewrite Hf, Hg.
  - right; left. exists d. intros o. now rewrite Hg.
  - right; right. exists d. intros o. now rewrite Hf, Hg.
  - right; left. exists c. intros o. now rewrite Hf, Hg.
  - right; left. exists d. intros o. now rewrite Hg.
  - right; left. exists c. intros o. now rewrite Hf, Hg.
  - right; right. exists c. intros o. now rewrite Hf, Hg.
  - right; left. exists d. intros o. now rewrite Hg.
  - right; right. exists c. intros o. now rewrite Hf, Hg.
Qed.

Lemma settling_fold q l : settling (fun o => fold_left (op_at q) l o).
Proof.
  induction l as [|op l IH]; [now left|].
  cbn [fold_left].
  exact (settling_compose (fun o => op_at q o op)
           (fun o => fold_left (op_at q) l o) (settling_op q op) IH).
Qed.

Lemma settling_twice f o : settling f -> f (f o) = f o.
Proof.
  intros [Hf|[[c Hf]|[c Hf]]]; rewrite !Hf; [reflexivity | reflexivity|].
  reflexivity.
Qed.

Lemma settling_keeps f o : settling f -> is_Some o -> is_Some (f o).
Proof.
  intros [Hf|[[c Hf]|[c Hf]]] Ho; rewrite Hf; [exact Ho | eauto | eauto].
Qed.

Lemma fold_op_at_other q l o :
  (forall op, In op l -> q <> op.1) -> fold_left (op_at q) l o = o.
Proof.
  revert o. induction l as [|op l IH]; intros o Hl; [reflexivity|].
  cbn [fold_left]. rewrite IH by (intros op' Hop; apply Hl; now right).
  unfold op_at. rewrite decide_False; [reflexivity|]. apply Hl. now left.
Qed.

Lemma fold_op_at_some q l1 p a l2 o :
  q = p -> is_Some (fold_left (op_at q) (l1 ++ (p, a) :: l2) o).
Proof.
  intros ->. rewrite fold_left_app. cbn [fold_left].
  apply (settling_keeps (fun o => fold_left (op_at p) l2 o)); [apply settling_fold|].
  unfold op_at. cbn [fst snd]. rewrite decide_True by reflexivity.
  destruct a; cbn; eauto.
Qed.

End LessonFacts.

(** X3. After [createExerciseFile] there is a file at the path of the
    exercise, whatever the collection and the local files were; no other
    path is touched; a second call changes nothing. [syncExerciseFile]
    therefore returns a path only with a file at it, and returns none, with
    the files untouched, when no workspace is set up. *)
Theorem createExerciseFile_establishes_file :
  forall db (fs : gmap string string) section dir user,
    let fs' := (Workspace.createExerciseFile db fs section dir user).1 in
    is_Some (fs' !! Paths.exerciseFilePath dir section)
    /\ (forall q, q <> Paths.exerciseFilePath dir section -> fs' !! q = fs !! q)
    /\ (Workspace.createExerciseFile db fs' section dir user).1 = fs'
    /\ (forall p,
          (Lesson.syncExerciseFile db fs (Some dir) section user).2 = Some p ->
          is_Some ((Lesson.syncExerciseFile db fs (Some dir) section user).1 !! p))
    /\ Lesson.syncExerciseFile db fs None section user = (fs, None).
Proof.
  intros db fs section dir user fs'.
  assert (Hsome : is_Some (fs' !! Paths.exerciseFilePath dir section)).
  { unfold fs'. rewrite createExerciseFile_at.
    unfold LessonProps.op_at, LessonProps.exercise_op. cbn [fst snd].
    rewrite decide_True by reflexivity.
    destruct (Props.action_of db section user); cbn; eauto. }
  split; [exact Hsome|]. split; [|split; [|split]].
  - intros q Hq. unfold fs'. rewrite createExerciseFile_at.
    unfold LessonProps.op_at, LessonProps.exercise_op. cbn [fst snd].
    now rewrite decide_False.
  - apply map_eq. intros q. unfold fs'. rewrite !createExerciseFile_at.
    apply (settling_twice
             (fun o => LessonProps.op_at q o
                         (LessonProps.exercise_op db dir user section))).
    apply settling_op.
  - intros p [= <-]. exact Hsome.
  - reflexivity.
Qed.

Lemma createExerciseFile_establishes_file_witness :
  is_Some ((Lesson.syncExerciseFile [Examples.saved "print(1)"] ∅
              (Some Examples.exercises) Examples.intro_loops (Some "ada")).1
             !! Examples.intro_loops_path).
Proof.
  apply (proj1 (proj2 (proj2 (proj2
           (createExerciseFile_establishes_file [Examples.saved "print(1)"] ∅
              Examples.intro_loops Examples.exercises (Some "ada")))))).
  reflexivity.
Defined.

(** X4. [setupLessonFiles] is idempotent when the collection does not
    change: setting a lesson up again leaves every local file as the first
    time left it. Afterwards the lesson has its README and a file for every
    code section; paths other than these are untouched. *)
Theorem setupLessonFiles_idempotent :
  forall db (fs : gmap string string) lessonPath dir sections user,
    let fs' := Lesson.setupLessonFiles db fs lessonPath dir sections user in
    Lesson.setupLessonFiles db fs' lessonPath dir sections user = fs'
    /\ is_Some (fs' !! Paths.path_join lessonPath "README.md")
    /\ (forall s, In s sections -> sec_type s = TypeCode ->
                  is_Some (fs' !! Paths.exerciseFilePath dir s))
    /\ (forall q,
          q <> Paths.path_join lessonPath "README.md" ->
          (forall s, In s sections -> sec_type s = TypeCode ->
                     q <> Paths.exerciseFilePath dir s) ->
          fs' !! q = fs !! q).
Proof.
  intros db fs lessonPath dir sections user fs'.
  split; [|split; [|split]].
  - apply map_eq. intros q. unfold fs'. rewrite !setupLessonFiles_at.
    apply (settling_twice
             (fun o => fold_left (LessonProps.op_at q)
                         (LessonProps.ops db lessonPath dir sections user) o)).
    apply settling_fold.
  - unfold fs'. rewrite setupLessonFiles_at. unfold LessonProps.ops.
    apply (fold_op_at_some _ []). reflexivity.
  - intros s Hs Hcode. unfold fs'. rewrite setupLessonFiles_at.
    unfold LessonProps.ops.
    assert (Hin : In s (List.filter Lesson.is_code sections)).
    { apply filter_In. split; [exact Hs|]. unfold Lesson.is_code.
      now rewrite Hcode. }
    apply in_split in Hin as (l1 & l2 & ->).
    rewrite map_app. cbn [map]. rewrite app_comm_cons.
    unfold LessonProps.exercise_op at 2.
    apply fold_op_at_some. reflexivity.
  - intros q Hreadme Hother. unfold fs'. rewrite setupLessonFiles_at.
    apply fold_op_at_other. intros op [<-|Hop]; [exact Hreadme|].
    apply in_map_iff in Hop as (s & <- & Hs). apply filter_In in Hs as [Hs Hc].
    apply (Hother s Hs). unfold Lesson.is_code in Hc.
    now destruct (sec_type s).
Qed.

Lemma setupLessonFiles_idempotent_witness :
  is_Some (Lesson.setupLessonFiles [Examples.saved "print(1)"]
             Examples.half_finished Examples.lesson_folder Examples.exercises
             [Examples.intro_loops; Examples.arrays] (Some "ada")
           !! Paths.exerciseFilePath Examples.exercises Examples.arrays)
  /\ Lesson.setupLessonFiles [Examples.saved "print(1)"]
       Examples.half_finished Examples.lesson_folder Examples.exercises
       [Examples.intro_loops; Examples.arrays] (Some "ada")
     !! (Examples.root +:+ "/README.md")
     = Examples.half_finished !! (Examples.root +:+ "/README.md").
Proof.
  split.
  - apply (proj1 (proj2 (proj2
             (setupLessonFiles_idempotent [Examples.saved "print(1)"]
                Examples.half_finished Examples.lesson_folder Examples.exercises
                [Examples.intro_loops; Examples.arrays] (Some "ada")))));
      [simpl; tauto | reflexivity].
  - apply (proj2 (proj2 (proj2
             (setupLessonFiles_idempotent [Examples.saved "print(1)"]
                Examples.half_finished Examples.lesson_folder Examples.exercises
                [Examples.intro_loops; Examples.arrays] (Some "ada"))))).
    + vm_compute. discriminate.
    + intros s [<-|[<-|[]]] _; vm_compute; discriminate.
Defined.

(** ** A push and the next opening *)

Section RoundTrip.

Import Firebase Workspace.

Lemma query_addDoc db d s u :
  query (addDoc d db) s u
  = (query db s u ++ if matches s u d then [d] else [])%list.
Proof. unfold query, addDoc. rewrite List.filter_app. reflexivity. Qed.

Lemma matches_iff s u d :
  matches s u d = true <-> ans_sectionId d = s /\ ans_userId d = u.
Proof.
  unfold matches. rewrite andb_true_iff, !bool_decide_eq_true. tauto.
Qed.

(** The answer a query finds after [saveStudentAnswer]. *)
Lemma saveStudentAnswer_found now sectionId userId lessonId content type courseId db :
  exists d,
    getStudentAnswer
      (saveStudentAnswer now sectionId userId lessonId content type courseId db)
      sectionId userId = Some d
    /\ ans_answer d = Some content /\ ans_updatedAt d = now
    /\ ans_sectionId d = sectionId /\ ans_userId d = userId.
Proof.
  destruct (saveStudentAnswer_upsert now sectionId userId lessonId content type
              courseId db) as [H _]. cbv zeta in H.
  destruct (getStudentAnswer db sectionId userId) as [d|] eqn:Hget.
  - destruct H as [_ H]. eexists. split; [exact H|]. cbn.
    unfold getStudentAnswer, query in Hget.
    assert (Hin : In d (List.filter (matches sectionId userId) db)).
    { destruct (List.filter _ db); [discriminate|]. injection Hget as ->. now left. }
    apply filter_In in Hin as [_ Hm]. apply matches_iff in Hm. tauto.
  - rewrite H.
    match goal with
    | |- context [(db ++ [?x])%list] => exists x; change (db ++ [x])%list with (addDoc x db)
    end.
    split; [|cbn; repeat split; reflexivity].
    unfold getStudentAnswer in *.
    rewrite query_addDoc. destruct (query db sectionId userId); [|discriminate].
    unfold matches. cbn. now rewrite !bool_decide_eq_true_2 by reflexivity.
Qed.

Lemma createExerciseFile_answered db (fs : gmap string string) section dir u answer :
  u <> "" ->
  getStudentAnswer db (sec_id section) u = Some answer ->
  createExerciseFile db fs section dir (Some u)
  = match Js.truthy (ans_answer answer) with
    | Some a => (<[Paths.exerciseFilePath dir section := a]> fs, SyncedFromRemote)
    | None => createExerciseFile [] fs section dir (Some u)
    end.
Proof.
  intros Hu Hget. unfold createExerciseFile. cbv zeta.
  destruct u as [|c u]; [congruence|]. cbn [Js.truthy]. rewrite Hget.
  destruct (Js.truthy (ans_answer answer)); reflexivity.
Qed.

End RoundTrip.

(** X5. A push followed by an opening, for a signed-in user: the content
    [saveStudentAnswer] stored for the section is what [createExerciseFile]
    then writes to the exercise file, over any local content, when it is not
    empty. When the pushed content is the empty string the opening behaves
    as with no answer at all: a local file is kept, a missing one gets the
    starter or the template. *)
Theorem push_then_open :
  forall now db (fs : gmap string string) section dir u lessonId content type courseId,
    u <> "" ->
    let db' :=
      Firebase.saveStudentAnswer now (sec_id section) u lessonId content type
        courseId db in
    (content <> "" ->
     Workspace.createExerciseFile db' fs section dir (Some u)
     = (<[Paths.exerciseFilePath dir section := content]> fs,
        Workspace.SyncedFromRemote))
    /\ (content = "" ->
        Workspace.createExerciseFile db' fs section dir (Some u)
        = Workspace.createExerciseFile [] fs section dir (Some u)).
Proof.
  intros now db fs section dir u lessonId content type courseId Hu db'.
  destruct (saveStudentAnswer_found now (sec_id section) u lessonId content type
              courseId db) as (d & Hget & Hans & _).
  fold db' in Hget.
  split; intros Hc; rewrite (createExerciseFile_answered db' fs section dir u d Hu Hget),
    Hans.
  - destruct content; [congruence | reflexivity].
  - now rewrite Hc.
Qed.

Lemma push_then_open_witness :
  Workspace.createExerciseFile
    (Firebase.saveStudentAnswer 2000 "sec-loops" "ada" "lesson-1" "print(2)"
       Firebase.AnswerCode (Some "algorithms") [Examples.saved "print(1)"])
    Examples.half_finished Examples.intro_loops Examples.exercises (Some "ada")
  = (<[Paths.exerciseFilePath Examples.exercises Examples.intro_loops := "print(2)"]>
       Examples.half_finished,
     Workspace.SyncedFromRemote)
  /\ Workspace.createExerciseFile
       (Firebase.saveStudentAnswer 2000 "sec-loops" "ada" "lesson-1" ""
          Firebase.AnswerCode (Some "algorithms") [Examples.saved "print(1)"])
       Examples.half_finished Examples.intro_loops Examples.exercises (Some "ada")
     = (Examples.half_finished, Workspace.PreservedLocal).
Proof.
  split.
  - apply (push_then_open 2000 [Examples.saved "print(1)"] Examples.half_finished
             Examples.intro_loops Examples.exercises "ada" "lesson-1" "print(2)"
             Firebase.AnswerCode (Some "algorithms")); discriminate.
  - etransitivity;
      [exact (proj2 (push_then_open 2000 [Examples.saved "print(1)"]
                       Examples.half_finished Examples.intro_loops
                       Examples.exercises "ada" "lesson-1" ""
                       Firebase.AnswerCode (Some "algorithms")
                       ltac:(discriminate)) eq_refl)|].
    vm_compute. reflexivity.
Defined.

(** X7. [saveStudentAnswer] and the queries around it: the answer found for
    the section and the user afterwards carries the content and the time of
    the save; the answer found for any other section or user is the one found
    before; and a second save for the same section and user adds no document,
    its content replacing the first. *)
Theorem saveStudentAnswer_lookup :
  forall now sectionId userId lessonId content type courseId db,
    let db' :=
      Firebase.saveStudentAnswer now sectionId userId lessonId content type
        courseId db in
    (exists d,
        Firebase.getStudentAnswer db' sectionId userId = Some d
        /\ Firebase.ans_answer d = Some content
        /\ Firebase.ans_updatedAt d = now)
    /\ (forall s u,
          (s, u) <> (sectionId, userId) ->
          Firebase.getStudentAnswer db' s u = Firebase.getStudentAnswer db s u)
    /\ (forall now2 lessonId2 content2 type2 courseId2,
          let db'' :=
            Firebase.saveStudentAnswer now2 sectionId userId lessonId2 content2
              type2 courseId2 db' in
          length db'' = length db'
          /\ exists d,
               Firebase.getStudentAnswer db'' sectionId userId = Some d
               /\ Firebase.ans_answer d = Some content2).
Proof.
  intros now sectionId userId lessonId content type courseId db db'.
  destruct (saveStudentAnswer_found now sectionId userId lessonId content type
              courseId db) as (d & Hget & Hans & Hat & _).
  fold db' in Hget.
  split; [exists d; auto|]. split.
  - intros s u Hne. unfold db', Firebase.saveStudentAnswer, Firebase.getStudentAnswer.
    destruct (Firebase.query db sectionId userId) as [|d0 r] eqn:Hq.
    + rewrite query_addDoc.
      destruct (Firebase.matches s u _) eqn:Hm; [|now rewrite app_nil_r].
      apply matches_iff in Hm. cbn in Hm. destruct Hm as [<- <-]. congruence.
    + rewrite query_updateDoc by (intros; split; reflexivity).
      destruct (Firebase.query db s u); [reflexivity|].
      destruct (bool_decide (s = sectionId) && bool_decide (u = userId))%bool eqn:Hk;
        [|reflexivity].
      apply andb_prop in Hk as [->%bool_decide_eq_true ->%bool_decide_eq_true].
      congruence.
  - intros now2 lessonId2 content2 type2 courseId2 db''.
    destruct (saveStudentAnswer_upsert now2 sectionId userId lessonId2 content2
                type2 courseId2 db') as [H _]. cbv zeta in H. rewrite Hget in H.
    fold db'' in H. destruct H as [Hlen H]. split; [exact Hlen|].
    eexists. split; [exact H | reflexivity].
Qed.

Lemma saveStudentAnswer_lookup_witness :
  Firebase.getStudentAnswer
    (Firebase.saveStudentAnswer 2000 "sec-arrays" "ada" "lesson-1" "int[] a;"
       Firebase.AnswerCode (Some "algorithms") [Examples.saved "print(1)"])
    "sec-loops" "ada"
  = Firebase.getStudentAnswer [Examples.saved "print(1)"] "sec-loops" "ada".
Proof.
  apply (proj1 (proj2 (saveStudentAnswer_lookup 2000 "sec-arrays" "ada" "lesson-1"
                         "int[] a;" Firebase.AnswerCode (Some "algorithms")
                         [Examples.saved "print(1)"]))).
  discriminate.
Defined.

(** ** Sequences of saves *)

Section Saves.

Import Firebase Props.

Lemma same_identity_refl d : same_identity d d.
Proof. unfold same_identity. tauto. Qed.

Lemma same_identity_trans d1 d2 d3 :
  same_identity d1 d2 -> same_identity d2 d3 -> same_identity d1 d3.
Proof. unfold same_identity. intuition congruence. Qed.

Lemma updateDoc_at sectionId userId f (db : Collection) i d :
  (forall x, same_identity x (f x)) ->
  db !! i = Some d ->
  exists d', updateDoc sectionId userId f db !! i = Some d' /\ same_identity d d'.
Proof.
  intros Hf. revert i. induction db as [|x db IH]; intros i Hi; [discriminate|].
  cbn [updateDoc]. destruct (matches sectionId userId x).
  - destruct i as [|i]; simpl in *.
    + injection Hi as ->. eauto.
    + exists d. split; [exact Hi | apply same_identity_refl].
  - destruct i as [|i]; simpl in *.
    + injection Hi as ->. exists d. split; [reflexivity | apply same_identity_refl].
    + now apply IH.
Qed.

Lemma apply_save_at (db : Collection) s i d :
  db !! i = Some d ->
  exists d', apply_save db s !! i = Some d' /\ same_identity d d'.
Proof.
  intros Hi. unfold apply_save, saveStudentAnswer.
  destruct (query db (sv_sectionId s) (sv_userId s)).
  - exists d. split; [|apply same_identity_refl]. unfold addDoc.
    apply lookup_app_l_Some. exact Hi.
  - apply updateDoc_at; [|exact Hi]. intros x. unfold same_identity. cbn. tauto.
Qed.

Lemma apply_save_length (db : Collection) s :
  (length db <= length (apply_save db s) <= length db + 1)%nat.
Proof.
  unfold apply_save, saveStudentAnswer.
  destruct (query db (sv_sectionId s) (sv_userId s)).
  - unfold addDoc. rewrite length_app. simpl. lia.
  - rewrite length_updateDoc. lia.
Qed.

Lemma apply_save_single (db : Collection) s :
  Spec.single_record db -> Spec.single_record (apply_save db s).
Proof. apply saveStudentAnswer_upsert. Qed.

End Saves.

(** X6. Through any sequence of [saveStudentAnswer] calls the collection
    only grows, by at most one document per call; every document stays at
    its place and keeps its section, user, lesson, course, type, creation
    time and input metrics (a save changes content and update time only);
    and a collection with at most one answer per section and user stays
    so. *)
Theorem saves_keep_records :
  forall (saves : list Props.Save) (db : Firebase.Collection),
    let db' := fold_left Props.apply_save saves db in
    (length db <= length db' <= length db + length saves)%nat
    /\ (forall i d, db !! i = Some d ->
                    exists d', db' !! i = Some d' /\ Props.same_identity d d')
    /\ (Spec.single_record db -> Spec.single_record db').
Proof.
  intros saves. induction saves as [|s saves IH]; intros db db'.
  - unfold db'. simpl. split; [lia|]. split; [|trivial].
    intros i d Hi. exists d. split; [exact Hi | apply same_identity_refl].
  - unfold db'. cbn [fold_left length].
    destruct (IH (Props.apply_save db s)) as (Hlen & Hat & Hsingle).
    pose proof (apply_save_length db s) as Hstep.
    split; [lia|]. split.
    + intros i d Hi. destruct (apply_save_at db s i d Hi) as (d1 & Hd1 & Hs1).
      destruct (Hat i d1 Hd1) as (d2 & Hd2 & Hs2).
      exists d2. split; [exact Hd2 | now apply (same_identity_trans d d1 d2)].
    + intros H. now apply Hsingle, apply_save_single.
Qed.

Lemma saves_keep_records_witness :
  exists d',
    fold_left Props.apply_save
      [{| Props.sv_now := 2000; Props.sv_sectionId := "sec-loops";
          Props.sv_userId := "ada"; Props.sv_lessonId := "lesson-9";
          Props.sv_content := "print(2)"; Props.sv_type := Firebase.AnswerCode;
          Props.sv_courseId := Some "databases" |}]
      [Examples.saved "print(1)"] !! 0%nat = Some d'
    /\ Props.same_identity (Examples.saved "print(1)") d'.
Proof.
  apply (proj1 (proj2 (saves_keep_records _ [Examples.saved "print(1)"]))).
  reflexivity.
Defined.

(** ** Accounting of edit events *)

Section Accounting.

Import Metrics MetricsProps.

Lemma count_change_fields m text :
  keystrokeCount (count_change m text)
  = (keystrokeCount m + if is_paste text then 0 else 1)%Z
  /\ pasteCount (count_change m text)
     = (pasteCount m + if is_paste text then 1 else 0)%Z
  /\ pasteCharCount (count_change m text)
     = (pasteCharCount m
        + if is_paste text then Z.of_nat (String.length text) else 0)%Z
  /\ firstInputAt (count_change m text) = firstInputAt m
  /\ lastInputAt (count_change m text) = lastInputAt m.
Proof.
  unfold count_change, is_paste. destruct (classify text); cbn;
    repeat split; lia.
Qed.

Lemma fold_count_change changes m :
  keystrokeCount (fold_left count_change changes m)
  = (keystrokeCount m + Z.of_nat (keystrokes changes))%Z
  /\ pasteCount (fold_left count_change changes m)
     = (pasteCount m + Z.of_nat (pastes changes))%Z
  /\ pasteCharCount (fold_left count_change changes m)
     = (pasteCharCount m + Z.of_nat (pasted_chars changes))%Z
  /\ firstInputAt (fold_left count_change changes m) = firstInputAt m
  /\ lastInputAt (fold_left count_change changes m) = lastInputAt m.
Proof.
  revert m. induction changes as [|text changes IH]; intros m.
  - cbn. repeat split; lia.
  - cbn [fold_left]. destruct (IH (count_change m text)) as (Hk & Hp & Hc & Hf & Hl).
    destruct (count_change_fields m text) as (Hk' & Hp' & Hc' & Hf' & Hl').
    rewrite Hk, Hp, Hc, Hf, Hl, Hk', Hp', Hc', Hf', Hl'.
    unfold keystrokes, pastes, pasted_chars. cbn [List.filter].
    destruct (is_paste text); simpl; repeat split; try reflexivity; lia.
Qed.

Lemma kinds_total changes :
  (keystrokes changes + pastes changes = length changes)%nat
  /\ (3 * pastes changes <= pasted_chars changes)%nat.
Proof.
  unfold keystrokes, pastes, pasted_chars.
  induction changes as [|text changes [IH1 IH2]]; [cbn; lia|].
  cbn [List.filter length].
  destruct (is_paste text) eqn:Hp; simpl; [|lia].
  split; [lia|].
  assert (3 <= String.length text)%nat; [|lia].
  unfold is_paste, classify, PASTE_CHAR_THRESHOLD in Hp.
  destruct (String.length text =? 0)%nat; [discriminate|].
  destruct (String.length text <=? 2)%nat eqn:Hle; [discriminate|].
  apply Nat.leb_gt in Hle. lia.
Qed.

Lemma snapshot_times now filePath charCount (t : gmap string FileMetrics) :
  let snapshot := (getAndReset now filePath charCount t).1 in
  let m := getOrCreate t filePath in
  im_firstInputAt snapshot = default now (firstInputAt m)
  /\ im_lastInputAt snapshot = default now (lastInputAt m)
  /\ im_editDurationMs snapshot
     = match firstInputAt m, lastInputAt m with
       | Some f, Some l => Z.max 0 (l - f)
       | _, _ => 0%Z
       end
  /\ im_charCount snapshot = charCount.
Proof.
  unfold getAndReset, getOrCreate. cbv zeta.
  destruct (t !! Js.toLowerCase filePath) as [[k p c [f|] [l|]]|];
    repeat split; reflexivity.
Qed.

Lemma handleDocumentChange_event now filePath changes (t : gmap string FileMetrics) :
  Js.includes filePath "exercise_" = true ->
  getOrCreate (handleDocumentChange now filePath changes t) filePath
  = match changes with
    | [] => getOrCreate t filePath
    | _ :: _ => fold_left count_change changes (stamp now (getOrCreate t filePath))
    end.
Proof.
  intros Hinc. destruct changes as [|c l].
  - unfold handleDocumentChange. now rewrite Hinc.
  - now apply handleDocumentChange_entry.
Qed.

Lemma handle_all_entry filePath events (t : gmap string FileMetrics) :
  Js.includes filePath "exercise_" = true ->
  let m := getOrCreate t filePath in
  let m' := getOrCreate (handle_all filePath events t) filePath in
  keystrokeCount m'
  = (keystrokeCount m + Z.of_nat (keystrokes (concat (map snd events))))%Z
  /\ pasteCount m'
     = (pasteCount m + Z.of_nat (pastes (concat (map snd events))))%Z
  /\ pasteCharCount m'
     = (pasteCharCount m + Z.of_nat (pasted_chars (concat (map snd events))))%Z
  /\ firstInputAt m'
     = match firstInputAt m with
       | Some f => Some f
       | None => head (stamps events)
       end
  /\ lastInputAt m'
     = match last (stamps events) with
       | Some l => Some l
       | None => lastInputAt m
       end.
Proof.
  intros Hinc. cbv zeta. revert t.
  induction events as [|[now changes] events IH]; intros t.
  - cbn. repeat split; try lia. now destruct (firstInputAt _).
  - change (handle_all filePath ((now, changes) :: events) t)
      with (handle_all filePath events (handleDocumentChange now filePath changes t)).
    destruct (IH (handleDocumentChange now filePath changes t))
      as (Hk & Hp & Hc & Hf & Hl).
    rewrite Hk, Hp, Hc, Hf, Hl, handleDocumentChange_event by exact Hinc.
    cbn [map concat snd]. unfold stamps. cbn [List.filter].
    unfold has_changes at 1 3. cbn [snd].
    destruct changes as [|c l].
    + cbn. repeat split; lia.
    + destruct (fold_count_change (c :: l) (stamp now (getOrCreate t filePath)))
        as (Hk' & Hp' & Hc' & Hf' & Hl').
      rewrite Hk', Hp', Hc', Hf', Hl'.
      unfold keystrokes, pastes, pasted_chars.
      rewrite !List.filter_app, !map_app, !length_app, list_sum_app.
      cbn [map fst head stamp keystrokeCount pasteCount pasteCharCount
             firstInputAt lastInputAt].
      repeat split; try lia;
        try (now destruct (firstInputAt (getOrCreate t filePath))).
      change (has_changes (now, c :: l)) with true. cbn [map fst].
      rewrite last_cons. now destruct (last _).
Qed.

Lemma handle_all_unmarked filePath events (t : gmap string FileMetrics) :
  Js.includes filePath "exercise_" = false -> handle_all filePath events t = t.
Proof.
  intros Hinc. revert t. induction events as [|e events IH]; intros t; [reflexivity|].
  change (handle_all filePath (e :: events) t)
    with (handle_all filePath events (handleDocumentChange e.1 filePath e.2 t)).
  rewrite IH. unfold handleDocumentChange. now rewrite Hinc.
Qed.

End Accounting.

(** X8. The snapshot [getAndReset] returns after a series of edit events on
    a file whose path contains [exercise_], starting without an entry:
    every inserted text is counted once, as a keystroke or as a paste, so the
    two counts add up to the number of changes; a paste has at least three
    characters; the first and last input are the times of the first and the
    last event that carried a change (events without changes leave no
    trace), or the time of the call when there was none; the duration is
    their difference, never negative. Events on a path without the
    marker leave the tracker as it is. *)
Theorem metrics_accounting :
  (forall filePath (t : gmap string Metrics.FileMetrics) events now charCount,
      Js.includes filePath "exercise_" = true ->
      t !! Js.toLowerCase filePath = None ->
      let snapshot :=
        (Metrics.getAndReset now filePath charCount
           (MetricsProps.handle_all filePath events t)).1 in
      let changes := concat (map snd events) in
      im_keystrokeCount snapshot = Z.of_nat (MetricsProps.keystrokes changes)
      /\ im_pasteCount snapshot = Z.of_nat (MetricsProps.pastes changes)
      /\ im_pasteCharCount snapshot = Z.of_nat (MetricsProps.pasted_chars changes)
      /\ (im_keystrokeCount snapshot + im_pasteCount snapshot
          = Z.of_nat (length changes))%Z
      /\ (3 * im_pasteCount snapshot <= im_pasteCharCount snapshot)%Z
      /\ im_firstInputAt snapshot
         = default now (head (MetricsProps.stamps events))
      /\ im_lastInputAt snapshot
         = default now (last (MetricsProps.stamps events))
      /\ im_editDurationMs snapshot
         = Z.max 0 (im_lastInputAt snapshot - im_firstInputAt snapshot)
      /\ im_charCount snapshot = charCount)
  /\ (forall filePath (t : gmap string Metrics.FileMetrics) events,
        Js.includes filePath "exercise_" = false ->
        MetricsProps.handle_all filePath events t = t).
Proof.
  split; [|intros filePath t events; apply handle_all_unmarked].
  intros filePath t events now charCount Hinc Hnone. cbv zeta.
  destruct (handle_all_entry filePath events t Hinc) as (Hk & Hp & Hc & Hf & Hl).
  destruct (kinds_total (concat (map snd events))) as [Htot Hthree].
  destruct (snapshot_counts now filePath charCount
              (MetricsProps.handle_all filePath events t)) as (Sk & Sp & Sc).
  destruct (snapshot_times now filePath charCount
              (MetricsProps.handle_all filePath events t)) as (Sf & Sl & Sd & Sn).
  cbv zeta in Hk, Hp, Hc, Hf, Hl, Sk, Sp, Sc, Sf, Sl, Sd, Sn.
  rewrite Sk, Sp, Sc, Sf, Sl, Sd, Sn, Hk, Hp, Hc, Hf, Hl.
  unfold Metrics.getOrCreate. rewrite Hnone.
  cbn [default Metrics.fresh Metrics.keystrokeCount Metrics.pasteCount
         Metrics.pasteCharCount Metrics.firstInputAt Metrics.lastInputAt].
  destruct (MetricsProps.stamps events) as [|x l] eqn:Hst.
  - cbn. repeat split; lia.
  - rewrite last_cons. cbn [head default].
    destruct (last l) as [y|]; cbn [default]; repeat split; lia.
Qed.

Lemma metrics_accounting_witness :
  let snapshot :=
    (Metrics.getAndReset 9000 Examples.intro_loops_path 8
       (MetricsProps.handle_all Examples.intro_loops_path
          [(5000%Z, ["p"]); (5100%Z, []); (5300%Z, ["rint(2)"; ""])] ∅)).1 in
  (im_keystrokeCount snapshot + im_pasteCount snapshot = 3)%Z
  /\ im_lastInputAt snapshot = 5300%Z.
Proof.
  cbv zeta.
  destruct (proj1 metrics_accounting Examples.intro_loops_path ∅
              [(5000%Z, ["p"]); (5100%Z, []); (5300%Z, ["rint(2)"; ""])]
              9000%Z 8%Z eq_refl (lookup_empty _))
    as (_ & _ & _ & Hsum & _ & _ & Hlast & _).
  split; [exact Hsum | exact Hlast].
Defined.

(** ** The tracked-file map *)

Section Tracking.

Import Sync SyncProps.

Lemma track_section_fold_snoc dir l x (map : gmap string LessonSection) :
  fold_left (track_section dir) (l ++ [x]) map
  = track_section dir (fold_left (track_section dir) l map) x.
Proof. now rewrite fold_left_app. Qed.

Lemma fold_track_some dir sections (map : gmap string LessonSection) s :
  In s sections -> sec_type s = TypeCode ->
  is_Some (fold_left (track_section dir) sections map !! key_of dir s).
Proof.
  revert map. induction sections as [|x l IH]; intros map Hin Hcode;
    [destruct Hin|]. destruct Hin as [<-|Hin].
  - cbn [fold_left]. clear IH.
    assert (Hx : is_Some (track_section dir map x !! key_of dir x)).
    { unfold track_section. rewrite Hcode. unfold key_of.
      rewrite lookup_insert_eq. eauto. }
    revert Hx. generalize (track_section dir map x). generalize (key_of dir x).
    induction l as [|y l IH]; intros k m Hk; [exact Hk|].
    cbn [fold_left]. apply IH. unfold track_section.
    destruct (sec_type y); try exact Hk.
    rewrite lookup_insert. case_decide; eauto.
  - cbn [fold_left]. now apply IH.
Qed.

Lemma fold_track_exact dir sections (map : gmap string LessonSection) s :
  NoDup (List.map sec_orderIndex (List.filter Lesson.is_code sections)) ->
  In s sections -> sec_type s = TypeCode ->
  fold_left (track_section dir) sections map !! key_of dir s = Some s.
Proof.
  revert s. induction sections as [|x l IH] using rev_ind; intros s Hnd Hin Hcode;
    [destruct Hin|].
  rewrite track_section_fold_snoc. rewrite List.filter_app, map_app in Hnd.
  apply NoDup_app in Hnd as (Hl & Hdisj & _).
  apply in_app_or in Hin as [Hin|[<-|[]]].
  - unfold track_section. destruct (sec_type x) eqn:Hx;
      try (apply IH; assumption).
    rewrite lookup_insert_ne; [apply IH; assumption|].
    intros Heq. apply exerciseFileKey_index in Heq.
    apply (Hdisj (sec_orderIndex s)).
    + apply list_elem_of_In, in_map, filter_In. split; [exact Hin|].
      unfold Lesson.is_code. now rewrite Hcode.
    + cbn [List.filter]. unfold Lesson.is_code at 1. rewrite Hx. cbn [List.map].
      rewrite Heq. apply list_elem_of_here.
  - unfold track_section. rewrite Hcode. apply lookup_insert_eq.
Qed.

Lemma fold_track_from dir sections (map : gmap string LessonSection) key s :
  fold_left (track_section dir) sections map !! key = Some s ->
  (In s sections /\ sec_type s = TypeCode /\ key = key_of dir s)
  \/ map !! key = Some s.
Proof.
  revert map. induction sections as [|x l IH]; intros map H; [now right|].
  cbn [fold_left] in H. apply IH in H as [(Hin & Hc & Hk)|H].
  - left. split; [now right | now split].
  - unfold track_section in H. destruct (sec_type x) eqn:Hx; try (now right).
    rewrite lookup_insert in H. case_decide as Hk; [|now right].
    injection H as <-. left. split; [now left | now split].
Qed.

Lemma trackLesson_map root dir lessonId sections courseId m :
  exists base,
    fileToSectionMap (trackLesson root dir lessonId sections courseId m)
    = fold_left (track_section dir) sections base
    /\ (base = fileToSectionMap m \/ base = ∅).
Proof.
  unfold trackLesson, startCourseWatcher. cbv zeta.
  destruct (Js.truthy (currentCourseId m)) as [c|];
    [destruct (decide (c = courseId))|].
  - exists (fileToSectionMap m). split; [|now left].
    repeat case_match; reflexivity.
  - exists ∅. split; [|now right]. repeat case_match; reflexivity.
  - exists (fileToSectionMap m). split; [|now left].
    repeat case_match; reflexivity.
Qed.

Lemma map_ok_fold dir sections (map : gmap string LessonSection) :
  map_ok map -> map_ok (fold_left (track_section dir) sections map).
Proof.
  intros Hok key s H. apply fold_track_from in H as [(_ & Hc & Hk)|H].
  - split; [exact Hc | now exists dir].
  - now apply Hok.
Qed.

Lemma map_ok_trackLesson root dir lessonId sections courseId m :
  map_ok (fileToSectionMap m) ->
  map_ok (fileToSectionMap (trackLesson root dir lessonId sections courseId m)).
Proof.
  intros Hok.
  destruct (trackLesson_map root dir lessonId sections courseId m)
    as (base & -> & [->| ->]); apply map_ok_fold; [exact Hok|].
  intros key s H. rewrite lookup_empty in H. discriminate.
Qed.

End Tracking.

(** X9. [trackLesson] registers the code sections of the lesson: each is
    found afterwards under the lower-cased path of its exercise file; when
    the code sections have different order indexes, each is found as itself
    (no section hides another); and every entry of the map afterwards is a
    code section of the call under its own key, or an entry that was there
    before. Sections of other types get no entry. *)
Theorem trackLesson_registers :
  forall root dir lessonId sections courseId m,
    let map' :=
      Sync.fileToSectionMap
        (Sync.trackLesson root dir lessonId sections courseId m) in
    (forall s, In s sections -> sec_type s = TypeCode ->
               is_Some (map' !! SyncProps.key_of dir s))
    /\ (NoDup (map sec_orderIndex (List.filter Lesson.is_code sections)) ->
        forall s, In s sections -> sec_type s = TypeCode ->
                  map' !! SyncProps.key_of dir s = Some s)
    /\ (forall key s,
          map' !! key = Some s ->
          (In s sections /\ sec_type s = TypeCode /\ key = SyncProps.key_of dir s)
          \/ Sync.fileToSectionMap m !! key = Some s).
Proof.
  intros root dir lessonId sections courseId m map'.
  destruct (trackLesson_map root dir lessonId sections courseId m)
    as (base & Hmap & Hbase).
  unfold map'. rewrite Hmap. split; [|split].
  - intros s Hin Hc. now apply fold_track_some.
  - intros Hnd s Hin Hc. now apply fold_track_exact.
  - intros key s H. apply fold_track_from in H as [H|H]; [now left|].
    destruct Hbase as [->| ->]; [now right|].
    rewrite lookup_empty in H. discriminate.
Qed.

Lemma trackLesson_registers_witness :
  Sync.fileToSectionMap
    (Sync.trackLesson (Some Examples.root) Examples.exercises "lesson-1"
       [Examples.intro_loops; Examples.arrays] "algorithms" Sync.new_manager)
    !! SyncProps.key_of Examples.exercises Examples.arrays
  = Some Examples.arrays.
Proof.
  apply (proj1 (proj2 (trackLesson_registers (Some Examples.root)
                         Examples.exercises "lesson-1"
                         [Examples.intro_loops; Examples.arrays] "algorithms"
                         Sync.new_manager))).
  - cbn. apply NoDup_cons. split; [|apply NoDup_singleton].
    intros H%list_elem_of_singleton. discriminate.
  - simpl. tauto.
  - reflexivity.
Defined.

(** ** What is pushed, and when nothing is *)

Section PushFacts.

Import Sync SyncProps.

Lemma truthy_nonempty o u : Js.truthy o = Some u -> u <> "".
Proof. destruct o as [[|c s]|]; cbn; congruence. Qed.

Lemma resume_caller_map caller p st :
  fileToSectionMap (mgr (resume_caller caller p st)) = fileToSectionMap (mgr st).
Proof. now destruct caller. Qed.

Lemma pushes_ok_ext st st' :
  fileToSectionMap (mgr st') = fileToSectionMap (mgr st) ->
  tasks (env st') = tasks (env st) ->
  upserts (env st') = upserts (env st) ->
  pushes_ok st -> pushes_ok st'.
Proof. unfold pushes_ok. now intros -> -> ->. Qed.

Lemma pushes_ok_syncFile caller p courseId st :
  pushes_ok st -> pushes_ok (syncFile caller p courseId st).
Proof.
  intros Hok. unfold syncFile.
  destruct (fileToSectionMap (mgr st) !! Js.toLowerCase p) as [section|] eqn:Hsec;
    [|apply (pushes_ok_ext st);
      [apply resume_caller_map | now rewrite resume_caller_env
       | now rewrite resume_caller_env | exact Hok]].
  destruct (decide (p ∈ syncInProgress (mgr st)));
    [apply (pushes_ok_ext st);
      [apply resume_caller_map | now rewrite resume_caller_env
       | now rewrite resume_caller_env | exact Hok]|].
  cbv zeta. cbn [env on_mgr].
  destruct (Js.truthy (userId (env st))) as [u|] eqn:Hu.
  - destruct Hok as (Hmap & Htasks & Hups). split; [exact Hmap|].
    split; [|exact Hups]. cbn. apply Forall_app. split; [exact Htasks|].
    apply Forall_singleton. destruct (Hmap _ _ Hsec) as [Hcode [dir Hkey]].
    split; [now apply (truthy_nonempty (userId (env st)))|].
    split; [exact Hcode | now exists dir].
  - apply (pushes_ok_ext st);
      [now rewrite resume_caller_map | now rewrite resume_caller_env
      | now rewrite resume_caller_env | exact Hok].
Qed.

Lemma pushes_ok_settle i k st : pushes_ok st -> pushes_ok (settle i k st).
Proof.
  intros (Hmap & Htasks & Hups). unfold settle, pushes_ok.
  rewrite resume_caller_map, resume_caller_env. cbn.
  split; [exact Hmap|]. split; [|exact Hups]. now apply Forall_delete.
Qed.

Lemma pushes_ok_step ev st st' :
  step ev st = Some st' -> pushes_ok st -> pushes_ok st'.
Proof.
  destruct ev; cbn [step]; intros H Hok.
  - injection H as <-. destruct Hok as (Hmap & Htasks & Hups).
    split; [|split; assumption]. now apply map_ok_trackLesson.
  - injection H as <-. destruct Hok as (Hmap & Htasks & Hups).
    split; [|split; assumption]. intros key s Hs. cbn in Hs.
    rewrite lookup_empty in Hs. discriminate.
  - destruct (fileWatcher (mgr st)) as [[root courseId]|]; [|discriminate].
    destruct (watched root fsPath); [|discriminate].
    injection H as <-. now apply (pushes_ok_ext st).
  - destruct (timers (env st) !! h) as [t|]; [|discriminate].
    destruct (tm_due t <=? clock (env st))%Z; [|discriminate].
    injection H as <-. apply pushes_ok_syncFile. now apply (pushes_ok_ext st).
  - unfold readDone in H.
    destruct (tasks (env st) !! i) as [k|] eqn:Hi; [|discriminate].
    destruct (tk_stage k) eqn:Hstage; [|discriminate].
    destruct (files (env st) !! tk_path k) as [content|].
    + destruct (Metrics.getAndReset _ _ _ _) as [inputMetrics tracker].
      injection H as <-. destruct Hok as (Hmap & Htasks & Hups).
      assert (Hk : task_ok k)
        by (rewrite Forall_forall in Htasks; apply Htasks;
            eapply list_elem_of_lookup_2; exact Hi).
      split; [exact Hmap|]. cbn. split.
      * apply Forall_insert; [exact Htasks | exact Hk].
      * apply Forall_app. split; [exact Hups|]. apply Forall_singleton.
        destruct Hk as (Hu & Hcode & Hfile). split; [exact Hu|].
        exists (tk_section k). auto.
    + injection H as <-. now apply pushes_ok_settle.
  - unfold saveDone in H.
    destruct (tasks (env st) !! i) as [k|]; [|discriminate].
    destruct (tk_stage k); [discriminate|].
    injection H as <-. apply pushes_ok_settle.
    destruct ok; [now apply (pushes_ok_ext st) | exact Hok].
  - injection H as <-. unfold syncCurrentFile.
    destruct (Js.truthy (currentCourseId (mgr st))); [|exact Hok].
    destruct (size (fileToSectionMap (mgr st)) =? 0)%nat; [exact Hok|].
    now apply pushes_ok_syncFile.
  - injection H as <-. now apply (pushes_ok_ext st).
  - injection H as <-. now apply (pushes_ok_ext st).
  - destruct (0 <=? ms)%Z; [|discriminate].
    injection H as <-. now apply (pushes_ok_ext st).
  - injection H as <-. now apply (pushes_ok_ext st).
  - injection H as <-. now apply (pushes_ok_ext st).
Qed.

Lemma pushes_ok_run evs st st' :
  run evs st = Some st' -> pushes_ok st -> pushes_ok st'.
Proof.
  revert st. induction evs as [|ev evs IH]; intros st H Hok; simpl in H.
  - now injection H as <-.
  - destruct (step ev st) as [st1|] eqn:Hstep; [|discriminate].
    apply (IH st1 H). now apply (pushes_ok_step ev st).
Qed.

(** With no tracked file and no call suspended, an event other than
    [trackLesson] pushes nothing and leaves it so. *)
Lemma idle_step ev st st' :
  fileToSectionMap (mgr st) = ∅ -> tasks (env st) = [] ->
  match ev with TrackLesson _ _ _ _ => False | _ => True end ->
  step ev st = Some st' ->
  fileToSectionMap (mgr st') = ∅ /\ tasks (env st') = []
  /\ upserts (env st') = upserts (env st) /\ db (env st') = db (env st).
Proof.
  intros Hmap Htasks Hev H. destruct ev; cbn [step] in H; try contradiction.
  - injection H as <-. cbn. auto.
  - destruct (fileWatcher (mgr st)) as [[root courseId]|]; [|discriminate].
    destruct (watched root fsPath); [|discriminate].
    injection H as <-. cbn. auto.
  - destruct (timers (env st) !! h) as [t|]; [|discriminate].
    destruct (tm_due t <=? clock (env st))%Z; [|discriminate].
    injection H as <-. unfold syncFile. cbn [mgr on_env].
    rewrite Hmap, lookup_empty. cbn. auto.
  - unfold readDone in H. rewrite Htasks in H. discriminate.
  - unfold saveDone in H. rewrite Htasks in H. discriminate.
  - injection H as <-. unfold syncCurrentFile.
    destruct (Js.truthy (currentCourseId (mgr st))); [|auto].
    rewrite Hmap. cbn. auto.
  - injection H as <-. cbn. auto.
  - injection H as <-. cbn. auto.
  - destruct (0 <=? ms)%Z; [|discriminate]. injection H as <-. cbn. auto.
  - injection H as <-. cbn. auto.
  - injection H as <-. cbn. auto.
Qed.

End PushFacts.

(** X15. In every state the manager reaches, every suspended [syncFile]
    call and every call of [saveStudentAnswer] made so far carries a
    non-empty user id and the id and lesson of a code section, and the file
    it pushes is the exercise file of that section in some folder, up to
    letter case; every entry of the tracked-file map is a code section under
    the lower-cased path of its exercise file. *)
Theorem pushes_are_for_code_sections now user root fs answers evs st :
  Sync.run evs (Sync.initial now user root fs answers) = Some st ->
  SyncProps.map_ok (Sync.fileToSectionMap (Sync.mgr st))
  /\ Forall SyncProps.task_ok (Sync.tasks (Sync.env st))
  /\ Forall SyncProps.upsert_ok (Sync.upserts (Sync.env st)).
Proof.
  intros Hrun. apply (pushes_ok_run evs _ st Hrun).
  split; [|split]; cbn; [|constructor|constructor].
  intros key s H. rewrite lookup_empty in H. discriminate.
Qed.

Lemma pushes_are_for_code_sections_witness :
  exists st,
    Sync.run (Examples.two_triggers ++ [Sync.ReadDone 0]) Examples.start = Some st
    /\ length (Sync.upserts (Sync.env st)) = 1%nat
    /\ Forall SyncProps.upsert_ok (Sync.upserts (Sync.env st)).
Proof.
  destruct (Sync.run (Examples.two_triggers ++ [Sync.ReadDone 0]) Examples.start)
    as [st|] eqn:Hrun; [|vm_compute in Hrun; discriminate Hrun].
  exists st. split; [reflexivity|]. split.
  - vm_compute in Hrun. injection Hrun as <-. reflexivity.
  - apply (pushes_are_for_code_sections 0 (Some "ada") (Some Examples.root)
             {[ Examples.intro_loops_path := "a" ]} []
             (Examples.two_triggers ++ [Sync.ReadDone 0]) st Hrun).
Defined.

(** X14. After [stopWatching], or whenever no file is tracked, with no push
    in flight: until a lesson is tracked again nothing is pushed. Whatever
    timers fire, manual syncs are asked or time passes, no [syncFile] call is
    suspended, no [saveStudentAnswer] is called and the collection is not
    written. *)
Theorem idle_manager_pushes_nothing evs st st' :
  Sync.fileToSectionMap (Sync.mgr st) = ∅ ->
  Sync.tasks (Sync.env st) = [] ->
  SyncProps.no_tracking evs ->
  Sync.run evs st = Some st' ->
  Sync.fileToSectionMap (Sync.mgr st') = ∅
  /\ Sync.tasks (Sync.env st') = []
  /\ Sync.upserts (Sync.env st') = Sync.upserts (Sync.env st)
  /\ Sync.db (Sync.env st') = Sync.db (Sync.env st).
Proof.
  revert st. induction evs as [|ev evs IH]; intros st Hmap Htasks Hno Hrun;
    simpl in Hrun.
  - injection Hrun as <-. auto.
  - destruct (Sync.step ev st) as [st1|] eqn:Hstep; [|discriminate].
    destruct (idle_step ev st st1 Hmap Htasks (Hno ev (or_introl eq_refl)) Hstep)
      as (Hmap1 & Htasks1 & Hups1 & Hdb1).
    destruct (IH st1 Hmap1 Htasks1 (fun e He => Hno e (or_intror He)) Hrun)
      as (H1 & H2 & H3 & H4).
    rewrite H3, H4. auto.
Qed.

Lemma idle_manager_pushes_nothing_witness :
  exists st st',
    Sync.run [Examples.open_lesson; Sync.FileChanged Examples.intro_loops_path;
              Sync.StopWatching] Examples.start = Some st
    /\ Sync.run [Sync.Elapse 2000; Sync.TimerFires 0;
                 Sync.SyncCurrentFile Examples.intro_loops_path] st = Some st'
    /\ Sync.upserts (Sync.env st') = Sync.upserts (Sync.env st).
Proof.
  destruct (Sync.run [Examples.open_lesson;
                      Sync.FileChanged Examples.intro_loops_path;
                      Sync.StopWatching] Examples.start)
    as [st|] eqn:Hrun; [|vm_compute in Hrun; discriminate Hrun].
  assert (Hst : Sync.fileToSectionMap (Sync.mgr st) = ∅
                /\ Sync.tasks (Sync.env st) = []
                /\ Sync.timers (Sync.env st) !! 0%nat
                   = Some {| Sync.tm_path := Examples.intro_loops_path;
                             Sync.tm_courseId := "algorithms";
                             Sync.tm_due := 2000 |}
                /\ Sync.clock (Sync.env st) = 0%Z).
  { vm_compute in Hrun. injection Hrun as <-. repeat split; reflexivity. }
  destruct Hst as (Hmap & Htasks & Htimer & Hclock).
  destruct (Sync.run [Sync.Elapse 2000; Sync.TimerFires 0;
                      Sync.SyncCurrentFile Examples.intro_loops_path] st)
    as [st'|] eqn:Hrun'.
  - exists st, st'. split; [reflexivity|]. split; [exact Hrun'|].
    apply (idle_manager_pushes_nothing
             [Sync.Elapse 2000; Sync.TimerFires 0;
              Sync.SyncCurrentFile Examples.intro_loops_path]
             st st' Hmap Htasks); [|exact Hrun'].
    intros ev [<-|[<-|[<-|[]]]]; exact I.
  - exfalso. cbn [Sync.run Sync.step] in Hrun'. cbn in Hrun'.
    rewrite Htimer, Hclock in Hrun'. cbn in Hrun'. discriminate Hrun'.
Defined.

(** ** A burst of saves *)

Section Burst.

Import Sync SyncProps.

Lemma queueSync_others p courseId delayMs st h t :
  Spec.recorded p st -> handle_of_path p st ->
  tm_path t <> p -> timers (env st) !! h = Some t ->
  timers (env (queueSync p courseId delayMs st)) !! h = Some t.
Proof.
  intros Hrec Hhp Hne Hh. unfold queueSync. cbn.
  destruct (Hrec h t Hh) as [Hlt _].
  rewrite lookup_insert_ne by lia.
  destruct (pendingSaves (mgr st) !! p) as [e|] eqn:He; [|exact Hh].
  rewrite lookup_delete_ne; [exact Hh|].
  intros ->. apply Hne. now apply (Hhp h t).
Qed.

Lemma queueSync_handle p courseId delayMs st :
  handle_of_path p (queueSync p courseId delayMs st).
Proof.
  intros e t He Ht. unfold queueSync in He, Ht. cbn in He, Ht.
  rewrite lookup_insert_eq in He. injection He as <-.
  rewrite lookup_insert_eq in Ht. now injection Ht as <-.
Qed.

Lemma burst_step p root courseId st0 st ev st' :
  watched root p = true ->
  burst_inv p root courseId st0 st -> burst_event p ev ->
  step ev st = Some st' -> burst_inv p root courseId st0 st'.
Proof.
  intros Hw (Hfw & Hrec & Hhp & Hoth & Htasks & Hups) [->|[ms ->]] H;
    cbn [step] in H.
  - rewrite Hfw, Hw in H. injection H as <-.
    destruct (queueSync_rearms p courseId DEFAULT_DELAY_MS st Hrec)
      as (_ & _ & Hrec').
    split; [exact Hfw|]. split; [exact Hrec'|].
    split; [apply queueSync_handle|]. split; [|split; assumption].
    intros h t Hne Hh. apply queueSync_others; auto.
  - destruct (0 <=? ms)%Z; [|discriminate]. injection H as <-.
    split; [exact Hfw|]. split; [exact Hrec|]. split; [exact Hhp|].
    split; [exact Hoth|]. split; assumption.
Qed.

Lemma burst_run p root courseId st0 evs st st' :
  watched root p = true ->
  burst_inv p root courseId st0 st -> Forall (burst_event p) evs ->
  run evs st = Some st' -> burst_inv p root courseId st0 st'.
Proof.
  intros Hw. revert st. induction evs as [|ev evs IH]; intros st Hinv Hevs H;
    simpl in H.
  - now injection H as <-.
  - destruct (step ev st) as [st1|] eqn:Hstep; [|discriminate].
    apply Forall_cons in Hevs as [Hev Hevs].
    apply (IH st1); [|exact Hevs|exact H].
    now apply (burst_step p root courseId st0 st ev).
Qed.

Lemma run_app evs1 evs2 st st' :
  run (evs1 ++ evs2) st = Some st' ->
  exists st1, run evs1 st = Some st1 /\ run evs2 st1 = Some st'.
Proof.
  revert st. induction evs1 as [|ev evs1 IH]; intros st H.
  - exists st. now split.
  - cbn [app run] in *. destruct (step ev st) as [st1|]; [|discriminate].
    now apply IH.
Qed.

End Burst.

(** X12. Debouncing, where the armed timers of the file are the ones
    [pendingSaves] records (as after a lesson is opened). However many saves
    of the file arrive, with whatever pauses between them, after the last
    one exactly one timer is armed for the file; it is the recorded one, it
    is due 2000 ms after that save and cannot fire before; the timers of
    other files are the ones that were armed; and the burst itself pushes
    nothing. *)
Theorem burst_leaves_one_timer p root courseId evs st st' :
  Sync.fileWatcher (Sync.mgr st) = Some (root, courseId) ->
  Sync.watched root p = true ->
  Spec.recorded p st ->
  SyncProps.handle_of_path p st ->
  Forall (SyncProps.burst_event p) evs ->
  Sync.run (evs ++ [Sync.FileChanged p]) st = Some st' ->
  exists h,
    Sync.pendingSaves (Sync.mgr st') !! p = Some h
    /\ Sync.timers (Sync.env st') !! h
       = Some {| Sync.tm_path := p; Sync.tm_courseId := courseId;
                 Sync.tm_due := Sync.clock (Sync.env st') + 2000 |}
    /\ (forall h' t, Sync.timers (Sync.env st') !! h' = Some t ->
                     Sync.tm_path t = p -> h' = h)
    /\ Sync.step (Sync.TimerFires h) st' = None
    /\ (forall h' t, Sync.tm_path t <> p ->
                     Sync.timers (Sync.env st) !! h' = Some t ->
                     Sync.timers (Sync.env st') !! h' = Some t)
    /\ Sync.upserts (Sync.env st') = Sync.upserts (Sync.env st)
    /\ Sync.tasks (Sync.env st') = Sync.tasks (Sync.env st).
Proof.
  intros Hfw Hw Hrec Hhp Hevs Hrun.
  apply run_app in Hrun as (st1 & Hrun1 & Hlast).
  assert (Hinv : SyncProps.burst_inv p root courseId st st1).
  { apply (burst_run p root courseId st evs st st1 Hw); [|exact Hevs|exact Hrun1].
    split; [exact Hfw|]. split; [exact Hrec|]. split; [exact Hhp|].
    split; [auto|]. split; reflexivity. }
  destruct Hinv as (Hfw1 & Hrec1 & Hhp1 & Hoth1 & Htasks1 & Hups1).
  cbn [Sync.run Sync.step] in Hlast. rewrite Hfw1, Hw in Hlast.
  injection Hlast as <-.
  destruct (queueSync_rearms p courseId Sync.DEFAULT_DELAY_MS st1 Hrec1)
    as (Hnew & Huniq & _). cbv zeta in Hnew, Huniq.
  exists (Sync.nextTimer (Sync.env st1)).
  split; [cbn; apply lookup_insert_eq|]. split; [exact Hnew|].
  split; [exact Huniq|]. split; [|split; [|split]].
  - cbn [Sync.step]. rewrite Hnew. cbn [Sync.tm_due].
    change (Sync.clock (Sync.env (Sync.queueSync p courseId
                                     Sync.DEFAULT_DELAY_MS st1)))
      with (Sync.clock (Sync.env st1)).
    unfold Sync.DEFAULT_DELAY_MS.
    now rewrite (proj2 (Z.leb_gt _ _)) by lia.
  - intros h' t Hne Hh. apply queueSync_others; auto.
  - exact Hups1.
  - exact Htasks1.
Qed.

Lemma burst_leaves_one_timer_witness :
  exists st' h,
    Sync.run [Sync.FileChanged Examples.intro_loops_path; Sync.Elapse 1500;
              Sync.FileChanged Examples.intro_loops_path; Sync.Elapse 1900;
              Sync.FileChanged Examples.intro_loops_path] Examples.opened
    = Some st'
    /\ Sync.timers (Sync.env st') !! h
       = Some {| Sync.tm_path := Examples.intro_loops_path;
                 Sync.tm_courseId := "algorithms";
                 Sync.tm_due := Sync.clock (Sync.env st') + 2000 |}
    /\ Sync.step (Sync.TimerFires h) st' = None.
Proof.
  destruct (Sync.run [Sync.FileChanged Examples.intro_loops_path; Sync.Elapse 1500;
                      Sync.FileChanged Examples.intro_loops_path; Sync.Elapse 1900;
                      Sync.FileChanged Examples.intro_loops_path] Examples.opened)
    as [st'|] eqn:Hrun'; [|vm_compute in Hrun'; discriminate Hrun'].
  assert (Hrec : Spec.recorded Examples.intro_loops_path Examples.opened).
  { intros h t Hh. cbn in Hh. rewrite lookup_empty in Hh. discriminate. }
  assert (Hhp : SyncProps.handle_of_path Examples.intro_loops_path Examples.opened).
  { intros e t _ Ht. cbn in Ht. rewrite lookup_empty in Ht. discriminate. }
  assert (Hevs : Forall (SyncProps.burst_event Examples.intro_loops_path)
                   [Sync.FileChanged Examples.intro_loops_path; Sync.Elapse 1500;
                    Sync.FileChanged Examples.intro_loops_path; Sync.Elapse 1900]).
  { repeat (apply Forall_cons; split);
      [now left | right; eauto | now left | right; eauto | apply Forall_nil_2]. }
  destruct (burst_leaves_one_timer Examples.intro_loops_path Examples.root
              "algorithms" _ Examples.opened st' eq_refl eq_refl Hrec Hhp Hevs Hrun')
    as (h & _ & Hh & _ & Hfire & _).
  exists st', h. split; [reflexivity|]. split; [exact Hh | exact Hfire].
Defined.

(** ** Manual syncs and the metrics of a push *)

(** X17. [syncCurrentFile] is outside the debounce, through the whole of
    the call. Up to its first [await] it never arms, cancels or forgets a
    timer, and the call it suspends, if any, is a manual one for the path.
    When a manual call goes on (its read served or failed, its write
    fulfilled or rejected) the armed timers and [pendingSaves] are again left
    as they are. So a complete manual sync of a tracked file runs, calls
    [saveStudentAnswer] once, removes its mark, and leaves a timer pending
    for the file armed and recorded. With no current course, with the path
    not in the tracked-file map, or with a push of the path in flight, it
    leaves the state as it is. *)
Theorem syncCurrentFile_leaves_timers :
  forall filePath st,
    let st1 := Sync.syncCurrentFile filePath st in
    Sync.timers (Sync.env st1) = Sync.timers (Sync.env st)
    /\ Sync.pendingSaves (Sync.mgr st1) = Sync.pendingSaves (Sync.mgr st)
    /\ (Js.truthy (Sync.currentCourseId (Sync.mgr st)) = None
        \/ Sync.fileToSectionMap (Sync.mgr st) !! Js.toLowerCase filePath = None
        \/ filePath ∈ Sync.syncInProgress (Sync.mgr st) ->
        st1 = st)
    /\ (Sync.tasks (Sync.env st1) = Sync.tasks (Sync.env st)
        \/ exists k,
             Sync.tasks (Sync.env st1) = (Sync.tasks (Sync.env st) ++ [k])%list
             /\ Sync.tk_path k = filePath
             /\ Sync.tk_caller k = Sync.ManualCall
             /\ Sync.tk_stage k = Sync.AwaitRead)
    /\ (forall i k,
          Sync.tasks (Sync.env st) !! i = Some k ->
          Sync.tk_caller k = Sync.ManualCall ->
          match Sync.tk_stage k with
          | Sync.AwaitRead =>
              exists st',
                Sync.readDone i st = Some st'
                /\ Sync.timers (Sync.env st') = Sync.timers (Sync.env st)
                /\ Sync.pendingSaves (Sync.mgr st')
                   = Sync.pendingSaves (Sync.mgr st)
                /\ (is_Some (Sync.files (Sync.env st) !! Sync.tk_path k) ->
                    exists k',
                      Sync.tasks (Sync.env st') !! i = Some k'
                      /\ Sync.tk_path k' = Sync.tk_path k
                      /\ Sync.tk_caller k' = Sync.ManualCall)
          | Sync.AwaitSave _ _ =>
              forall ok,
                exists st',
                  Sync.saveDone i ok st = Some st'
                  /\ Sync.timers (Sync.env st') = Sync.timers (Sync.env st)
                  /\ Sync.pendingSaves (Sync.mgr st')
                     = Sync.pendingSaves (Sync.mgr st)
          end)
    /\ (forall c section u content ok,
          Js.truthy (Sync.currentCourseId (Sync.mgr st)) = Some c ->
          Sync.fileToSectionMap (Sync.mgr st) !! Js.toLowerCase filePath
          = Some section ->
          filePath ∉ Sync.syncInProgress (Sync.mgr st) ->
          Js.truthy (Sync.userId (Sync.env st)) = Some u ->
          Sync.files (Sync.env st) !! filePath = Some content ->
          exists st',
            Sync.run [Sync.SyncCurrentFile filePath;
                      Sync.ReadDone (length (Sync.tasks (Sync.env st)));
                      Sync.SaveDone (length (Sync.tasks (Sync.env st))) ok] st
            = Some st'
            /\ Sync.timers (Sync.env st') = Sync.timers (Sync.env st)
            /\ Sync.pendingSaves (Sync.mgr st') = Sync.pendingSaves (Sync.mgr st)
            /\ length (Sync.upserts (Sync.env st'))
               = S (length (Sync.upserts (Sync.env st)))
            /\ (filePath ∉ Sync.syncInProgress (Sync.mgr st'))).
Proof.
  intros filePath st. cbv zeta.
  assert (Hsync : forall c,
             let st1 := Sync.syncFile Sync.ManualCall filePath c st in
             Sync.timers (Sync.env st1) = Sync.timers (Sync.env st)
             /\ Sync.pendingSaves (Sync.mgr st1) = Sync.pendingSaves (Sync.mgr st)
             /\ (Sync.fileToSectionMap (Sync.mgr st) !! Js.toLowerCase filePath
                 = None
                 \/ filePath ∈ Sync.syncInProgress (Sync.mgr st) -> st1 = st)
             /\ (Sync.tasks (Sync.env st1) = Sync.tasks (Sync.env st)
                 \/ exists k,
                      Sync.tasks (Sync.env st1)
                      = (Sync.tasks (Sync.env st) ++ [k])%list
                      /\ Sync.tk_path k = filePath
                      /\ Sync.tk_caller k = Sync.ManualCall
                      /\ Sync.tk_stage k = Sync.AwaitRead)).
  { intros c. cbv zeta. unfold Sync.syncFile.
    destruct (Sync.fileToSectionMap (Sync.mgr st) !! Js.toLowerCase filePath)
      as [section|] eqn:Hsec; [|cbn; auto].
    destruct (decide (filePath ∈ Sync.syncInProgress (Sync.mgr st)))
      as [Hin|Hout]; [cbn; auto|].
    cbv zeta. cbn [Sync.env Sync.on_mgr].
    destruct (Js.truthy (Sync.userId (Sync.env st))) as [u|]; cbn.
    - split; [reflexivity|]. split; [reflexivity|].
      split; [intros [H|H]; [discriminate | contradiction]|].
      right. eexists. split; [reflexivity|]. cbn. auto.
    - split; [reflexivity|]. split; [reflexivity|].
      split; [intros [H|H]; [discriminate | contradiction]|]. now left. }
  split; [|split; [|split; [|split; [|split]]]].
  - unfold Sync.syncCurrentFile.
    destruct (Js.truthy (Sync.currentCourseId (Sync.mgr st))) as [c|];
      [|reflexivity].
    destruct (size (Sync.fileToSectionMap (Sync.mgr st)) =? 0)%nat;
      [reflexivity | apply (Hsync c)].
  - unfold Sync.syncCurrentFile.
    destruct (Js.truthy (Sync.currentCourseId (Sync.mgr st))) as [c|];
      [|reflexivity].
    destruct (size (Sync.fileToSectionMap (Sync.mgr st)) =? 0)%nat;
      [reflexivity | apply (Hsync c)].
  - unfold Sync.syncCurrentFile.
    destruct (Js.truthy (Sync.currentCourseId (Sync.mgr st))) as [c|];
      [|reflexivity].
    destruct (size (Sync.fileToSectionMap (Sync.mgr st)) =? 0)%nat;
      [reflexivity|].
    intros [H|H]; [discriminate | now apply (Hsync c)].
  - unfold Sync.syncCurrentFile.
    destruct (Js.truthy (Sync.currentCourseId (Sync.mgr st))) as [c|];
      [|now left].
    destruct (size (Sync.fileToSectionMap (Sync.mgr st)) =? 0)%nat;
      [now left | apply (Hsync c)].
  - intros i k Hi Hcaller.
    destruct (Sync.tk_stage k) as [|content inputMetrics] eqn:Hstage.
    + destruct (Sync.files (Sync.env st) !! Sync.tk_path k) as [content|]
        eqn:Hfile.
      * destruct (readDone_reads i k content st Hi Hstage Hfile)
          as (st' & k' & im & Hread & Hi' & Hpath & Hcaller' & _ & _
              & Htimers & Hpending & _).
        exists st'. split; [exact Hread|]. split; [exact Htimers|].
        split; [exact Hpending|]. intros _. exists k'.
        split; [exact Hi'|]. split; [exact Hpath|]. now rewrite Hcaller'.
      * unfold Sync.readDone. rewrite Hi, Hstage, Hfile.
        eexists. split; [reflexivity|].
        destruct (settle_manual i k st Hcaller) as (Ht & Hp & _).
        split; [exact Ht|]. split; [exact Hp|].
        intros [x Hx]. discriminate Hx.
    + intros ok. unfold Sync.saveDone. rewrite Hi, Hstage.
      eexists. split; [reflexivity|].
      destruct (settle_manual i k
                  (if ok
                   then Sync.on_env
                          (fun e =>
                             Sync.set_db
                               (Firebase.saveStudentAnswer (Sync.clock e)
                                  (sec_id (Sync.tk_section k)) (Sync.tk_userId k)
                                  (sec_lessonId (Sync.tk_section k)) content
                                  Firebase.AnswerCode
                                  (Some (Sync.tk_courseId k)) (Sync.db e)) e) st
                   else st) Hcaller) as (Ht & Hp & _).
      rewrite Ht, Hp. now destruct ok.
  - intros c section u content ok Hc Hsec Hout Hu Hfile.
    assert (Hsize : (size (Sync.fileToSectionMap (Sync.mgr st)) =? 0)%nat = false).
    { apply Nat.eqb_neq. intros H0. apply map_size_empty_iff in H0.
      rewrite H0, lookup_empty in Hsec. discriminate Hsec. }
    pose (task := {| Sync.tk_path := filePath; Sync.tk_courseId := c;
                     Sync.tk_section := section; Sync.tk_userId := u;
                     Sync.tk_stage := Sync.AwaitRead;
                     Sync.tk_caller := Sync.ManualCall |}).
    pose (st1 :=
            Sync.on_env
              (fun e => Sync.set_tasks (Sync.tasks e ++ [task])%list e)
              (Sync.on_mgr
                 (fun m =>
                    Sync.set_syncInProgress
                      ({[filePath]} ∪ Sync.syncInProgress m) m) st)).
    assert (Hstep : Sync.syncCurrentFile filePath st = st1).
    { unfold Sync.syncCurrentFile. rewrite Hc, Hsize. unfold Sync.syncFile.
      rewrite Hsec. rewrite decide_False by exact Hout. cbv zeta.
      cbn [Sync.env Sync.on_mgr]. rewrite Hu. reflexivity. }
    assert (Hk : Sync.tasks (Sync.env st1)
                   !! length (Sync.tasks (Sync.env st)) = Some task).
    { cbn. rewrite lookup_app_r by lia. now rewrite Nat.sub_diag. }
    destruct (readDone_reads _ task content st1 Hk eq_refl Hfile)
      as (st2 & k' & im & Hread & Hi' & Hpath & Hcaller' & Hstage' & _
          & Htimers & Hpending & Hups).
    eexists. split.
    { cbn [Sync.run Sync.step]. rewrite Hstep, Hread.
      unfold Sync.saveDone. rewrite Hi', Hstage'. reflexivity. }
    match goal with
    | |- context [Sync.settle _ _ ?x] =>
        destruct (settle_manual (length (Sync.tasks (Sync.env st))) k' x
                    Hcaller') as (Ht & Hp & Hu' & Hout')
    end.
    rewrite Ht, Hp, Hu'. rewrite Hpath in Hout'.
    split; [destruct ok; exact Htimers|].
    split; [destruct ok; exact Hpending|].
    split; [destruct ok; exact Hups|]. exact Hout'.
Qed.

Lemma syncCurrentFile_leaves_timers_witness :
  exists st',
    Sync.run [Sync.SyncCurrentFile Examples.intro_loops_path;
              Sync.ReadDone 0; Sync.SaveDone 0 true]
      (Sync.queueSync Examples.intro_loops_path "algorithms" 2000
         Examples.opened)
    = Some st'
    /\ Sync.timers (Sync.env st')
       = Sync.timers
           (Sync.env (Sync.queueSync Examples.intro_loops_path "algorithms"
                        2000 Examples.opened))
    /\ Sync.pendingSaves (Sync.mgr st') !! Examples.intro_loops_path = Some 0%nat.
Proof.
  destruct (proj2 (proj2 (proj2 (proj2 (proj2
              (syncCurrentFile_leaves_timers Examples.intro_loops_path
                 (Sync.queueSync Examples.intro_loops_path "algorithms" 2000
                    Examples.opened))))))
              "algorithms" Examples.intro_loops "ada" "a" true)
    as (st' & Hrun & Htimers & Hpending & _); try reflexivity.
  - cbn. apply not_elem_of_empty.
  - exists st'. split; [exact Hrun|]. split; [exact Htimers|].
    rewrite Hpending. reflexivity.
Defined.

(** X18. The metrics of a file are consumed when its push has read the
    file, not before and not again: when the read succeeds the call of
    [saveStudentAnswer] carries the snapshot of [getAndReset] with the length
    of the content read, and the tracker has no entry for the file
    afterwards; when the read fails the tracker is as it was and nothing is
    called. A save that is rejected gives the metrics not back: the tracker
    is not touched when the write is settled. *)
Theorem push_consumes_metrics :
  forall st i k st',
    Sync.tasks (Sync.env st) !! i = Some k ->
    (Sync.readDone i st = Some st' ->
     match Sync.files (Sync.env st) !! Sync.tk_path k with
     | Some content =>
         Sync.metricsTracker (Sync.mgr st') !! Js.toLowerCase (Sync.tk_path k)
         = None
         /\ exists call,
              Sync.upserts (Sync.env st') = (Sync.upserts (Sync.env st) ++ [call])%list
              /\ Sync.up_content call = content
              /\ Sync.up_inputMetrics call
                 = (Metrics.getAndReset (Sync.clock (Sync.env st)) (Sync.tk_path k)
                      (Z.of_nat (String.length content))
                      (Sync.metricsTracker (Sync.mgr st))).1
              /\ im_charCount (Sync.up_inputMetrics call)
                 = Z.of_nat (String.length content)
     | None =>
         Sync.metricsTracker (Sync.mgr st') = Sync.metricsTracker (Sync.mgr st)
         /\ Sync.upserts (Sync.env st') = Sync.upserts (Sync.env st)
     end)
    /\ (forall ok,
          Sync.saveDone i ok st = Some st' ->
          Sync.metricsTracker (Sync.mgr st') = Sync.metricsTracker (Sync.mgr st)
          /\ Sync.upserts (Sync.env st') = Sync.upserts (Sync.env st)).
Proof.
  intros st i k st' Hi. split.
  - unfold Sync.readDone. rewrite Hi.
    destruct (Sync.tk_stage k); [|discriminate].
    destruct (Sync.files (Sync.env st) !! Sync.tk_path k) as [content|].
    + destruct (Metrics.getAndReset _ _ _ _) as [inputMetrics tracker] eqn:Hget.
      intros [= <-]. cbn. split.
      * assert (Htr : tracker
                      = (Metrics.getAndReset (Sync.clock (Sync.env st))
                           (Sync.tk_path k) (Z.of_nat (String.length content))
                           (Sync.metricsTracker (Sync.mgr st))).2)
          by now rewrite Hget.
        rewrite Htr. apply lookup_delete_eq.
      * eexists. split; [reflexivity|]. cbn. split; [reflexivity|].
        split; [reflexivity|].
        assert (Him : inputMetrics
                      = (Metrics.getAndReset (Sync.clock (Sync.env st))
                           (Sync.tk_path k) (Z.of_nat (String.length content))
                           (Sync.metricsTracker (Sync.mgr st))).1)
          by now rewrite Hget.
        rewrite Him. reflexivity.
    + intros [= <-]. unfold Sync.settle.
      destruct (Sync.tk_caller k); cbn; auto.
  - intros ok. unfold Sync.saveDone. rewrite Hi.
    destruct (Sync.tk_stage k); [discriminate|].
    intros [= <-]. unfold Sync.settle.
    destruct (Sync.tk_caller k), ok; cbn; auto.
Qed.

Lemma push_consumes_metrics_witness :
  exists st st',
    Sync.run [Examples.open_lesson;
              Sync.DocumentChanged Examples.intro_loops_path ["p"];
              Sync.SyncCurrentFile Examples.intro_loops_path] Examples.start_saved
    = Some st
    /\ Sync.readDone 0 st = Some st'
    /\ Sync.metricsTracker (Sync.mgr st')
         !! Js.toLowerCase Examples.intro_loops_path = None.
Proof.
  destruct (Sync.run [Examples.open_lesson;
                      Sync.DocumentChanged Examples.intro_loops_path ["p"];
                      Sync.SyncCurrentFile Examples.intro_loops_path]
              Examples.start_saved) as [st|] eqn:Hrun;
    [|vm_compute in Hrun; discriminate Hrun].
  assert (Hst : exists k,
             Sync.tasks (Sync.env st) !! 0%nat = Some k
             /\ Sync.tk_path k = Examples.intro_loops_path
             /\ Sync.tk_stage k = Sync.AwaitRead
             /\ Sync.files (Sync.env st) !! Examples.intro_loops_path
                = Some "print(1)").
  { vm_compute in Hrun. injection Hrun as <-. eexists. split; [reflexivity|].
    repeat split; vm_compute; reflexivity. }
  destruct Hst as (k & Hk & Hpath & Hstage & Hfile).
  destruct (Sync.readDone 0 st) as [st'|] eqn:Hread.
  - exists st, st'. split; [reflexivity|]. split; [exact Hread|].
    destruct (push_consumes_metrics st 0%nat k st' Hk) as [H _].
    specialize (H Hread). rewrite Hpath, Hfile in H. apply H.
  - exfalso. unfold Sync.readDone in Hread.
    rewrite Hk, Hstage, Hpath, Hfile in Hread.
    destruct (Metrics.getAndReset _ _ _ _). discriminate Hread.
Defined.

(** ** Code submissions and sections *)

Section CatalogFacts.

Import Catalog.

Lemma append_underscore x : "_" +:+ x = String Js.underscore x.
Proof. reflexivity. Qed.

Lemma submissionId_inj u l e u' l' e' :
  Spec.free_of_us u = true -> Spec.free_of_us u' = true ->
  Spec.free_of_us l = true -> Spec.free_of_us l' = true ->
  submissionId u l e = submissionId u' l' e' ->
  u = u' /\ l = l' /\ e = e'.
Proof.
  intros Hu Hu' Hl Hl' H. unfold submissionId in H.
  rewrite !(append_underscore (_ +:+ _)) in H.
  assert (Huu : u = u') by exact (first_us_split _ _ _ _ Hu Hu' H).
  subst u'. apply (inj (String.append u)) in H. injection H as H.
  rewrite !append_underscore in H.
  assert (Hll : l = l') by exact (first_us_split _ _ _ _ Hl Hl' H).
  subst l'. apply (inj (String.append l)) in H. injection H as H.
  auto.
Qed.

Lemma insert_section_perm s l : insert_section s l ≡ₚ s :: l.
Proof.
  induction l as [|x l IH]; [reflexivity|]. cbn [insert_section].
  destruct (sec_orderIndex s <=? sec_orderIndex x)%Z; [reflexivity|].
  rewrite IH. apply Permutation_swap.
Qed.

Lemma sort_sections_perm l : sort_sections l ≡ₚ l.
Proof.
  induction l as [|x l IH]; [reflexivity|]. cbn.
  now rewrite insert_section_perm, IH.
Qed.

Lemma insert_section_sorted s l :
  Sorted by_index l -> Sorted by_index (insert_section s l).
Proof.
  induction l as [|x l IH]; intros Hl; [repeat constructor|].
  cbn [insert_section].
  destruct (sec_orderIndex s <=? sec_orderIndex x)%Z eqn:Hle.
  - apply Z.leb_le in Hle. constructor; [exact Hl | now constructor].
  - apply Z.leb_gt in Hle. apply Sorted_inv in Hl as [Hl Hx].
    constructor; [now apply IH|].
    destruct l as [|y l]; cbn [insert_section].
    + constructor. unfold by_index. lia.
    + destruct (sec_orderIndex s <=? sec_orderIndex y)%Z.
      * constructor. unfold by_index. lia.
      * constructor. now apply HdRel_inv in Hx.
Qed.

Lemma sort_sections_sorted l : Sorted by_index (sort_sections l).
Proof.
  induction l as [|x l IH]; [constructor|]. cbn. now apply insert_section_sorted.
Qed.

Lemma insert_section_stable P s l :
  (forall x, P x = true -> P s = true -> sec_orderIndex x = sec_orderIndex s) ->
  List.filter P (insert_section s l)
  = if P s then s :: List.filter P l else List.filter P l.
Proof.
  intros HP. induction l as [|x l IH]; [reflexivity|]. cbn [insert_section].
  destruct (sec_orderIndex s <=? sec_orderIndex x)%Z eqn:Hle; [reflexivity|].
  apply Z.leb_gt in Hle. cbn [List.filter]. rewrite IH.
  destruct (P x) eqn:Hx, (P s) eqn:Hs; try reflexivity.
  specialize (HP x Hx eq_refl). lia.
Qed.

End CatalogFacts.

(** X20. Code submissions are stored under [userId_lessonId_exerciseId].
    When user ids and lesson ids contain no underscore, a submission leaves
    the documents of every other user, lesson or exercise as they are; a
    second submission for the same exercise replaces the first in the same
    document. With underscores in the ids two different exercises can share
    a document. *)
Theorem submissions_keyed_by_exercise :
  (forall now u l e code language u' l' e'
          (submissions : gmap string Catalog.CodeSubmission),
      Spec.free_of_us u = true -> Spec.free_of_us u' = true ->
      Spec.free_of_us l = true -> Spec.free_of_us l' = true ->
      (u, l, e) <> (u', l', e') ->
      Catalog.submitExerciseCode now u l e code language submissions
        !! Catalog.submissionId u' l' e'
      = submissions !! Catalog.submissionId u' l' e')
  /\ (forall now1 now2 u l e code1 language1 code2 language2
            (submissions : gmap string Catalog.CodeSubmission),
        Catalog.submitExerciseCode now2 u l e code2 language2
          (Catalog.submitExerciseCode now1 u l e code1 language1 submissions)
        = Catalog.submitExerciseCode now2 u l e code2 language2 submissions)
  /\ Catalog.submissionId "a_b" "c" "d" = Catalog.submissionId "a" "b_c" "d".
Proof.
  split; [|split; [|reflexivity]].
  - intros now u l e code language u' l' e' submissions Hu Hu' Hl Hl' Hne.
    unfold Catalog.submitExerciseCode. apply lookup_insert_ne. intros Heq.
    apply submissionId_inj in Heq as (-> & -> & ->); auto.
  - intros. unfold Catalog.submitExerciseCode. apply insert_insert_eq.
Qed.

Lemma submissions_keyed_by_exercise_witness :
  Catalog.submitExerciseCode 1000 "ada" "lesson1" "ex_2" "print(2)" "python"
    (Catalog.submitExerciseCode 900 "ada" "lesson1" "ex_1" "print(1)" "python" ∅)
    !! Catalog.submissionId "ada" "lesson1" "ex_1"
  = Catalog.submitExerciseCode 900 "ada" "lesson1" "ex_1" "print(1)" "python" ∅
      !! Catalog.submissionId "ada" "lesson1" "ex_1".
Proof.
  apply (proj1 submissions_keyed_by_exercise); try reflexivity. discriminate.
Defined.

(** X21. [getSections] returns the sections of the lesson and no other, each
    as often as the collection holds it, in non-decreasing order index;
    sections of the same order index keep the order of the query. *)
Theorem getSections_sorted :
  forall sections lessonId,
    let result := Catalog.getSections sections lessonId in
    Sorted Catalog.by_index result
    /\ result
       ≡ₚ List.filter (fun s => bool_decide (sec_lessonId s = lessonId)) sections
    /\ (forall s, In s result <-> In s sections /\ sec_lessonId s = lessonId)
    /\ (forall index,
          List.filter (fun s => bool_decide (sec_orderIndex s = index)) result
          = List.filter (fun s => bool_decide (sec_orderIndex s = index))
              (List.filter (fun s => bool_decide (sec_lessonId s = lessonId))
                 sections)).
Proof.
  intros sections lessonId result. unfold result, Catalog.getSections.
  split; [apply sort_sections_sorted|]. split; [apply sort_sections_perm|].
  split.
  - intros s. rewrite <- !list_elem_of_In, sort_sections_perm, !list_elem_of_In.
    rewrite filter_In, bool_decide_eq_true. tauto.
  - intros index.
    induction (List.filter (fun s => bool_decide (sec_lessonId s = lessonId))
                 sections) as [|x l IH]; [reflexivity|].
    cbn [Catalog.sort_sections fold_right].
    rewrite insert_section_stable.
    + cbn [List.filter]. fold (Catalog.sort_sections l). now rewrite IH.
    + intros y Hy Hx. apply bool_decide_eq_true in Hy, Hx. congruence.
Qed.

Lemma getSections_sorted_witness :
  In Examples.arrays
    (Catalog.getSections
       [Examples.arrays; Examples.loops_sql; Examples.intro_loops] "lesson-1").
Proof.
  apply (proj1 (proj2 (proj2 (getSections_sorted
           [Examples.arrays; Examples.loops_sql; Examples.intro_loops]
           "lesson-1")))).
  split; [simpl; tauto | reflexivity].
Defined.

(** ** Pushes and their triggers *)

Section Counting.

Import Sync CountProps.

Lemma reading_syncFile caller p courseId st :
  (reading (syncFile caller p courseId st) <= reading st + 1)%nat
  /\ pushed (syncFile caller p courseId st) = pushed st
  /\ db (env (syncFile caller p courseId st)) = db (env st).
Proof.
  unfold syncFile, reading, pushed.
  destruct (fileToSectionMap (mgr st) !! Js.toLowerCase p);
    [|rewrite resume_caller_env; repeat split; lia].
  destruct (decide (p ∈ syncInProgress (mgr st)));
    [rewrite resume_caller_env; repeat split; lia|].
  cbv zeta. cbn [env on_mgr].
  destruct (Js.truthy (userId (env st)));
    [|rewrite resume_caller_env; cbn; repeat split; lia].
  cbn. rewrite List.filter_app, length_app. cbn. repeat split; lia.
Qed.

Lemma reading_delete i k (l : list Task) :
  l !! i = Some k ->
  (length (List.filter is_reading (delete i l))
   <= length (List.filter is_reading l))%nat.
Proof.
  revert i. induction l as [|x l IH]; intros i Hi; [discriminate|].
  destruct i as [|i].
  - simpl. destruct (is_reading x); simpl; lia.
  - simpl in Hi. specialize (IH i Hi). simpl in IH |- *.
    destruct (is_reading x); simpl; lia.
Qed.

Lemma reading_insert i k k' (l : list Task) :
  l !! i = Some k -> is_reading k = true -> is_reading k' = false ->
  (length (List.filter is_reading (<[i := k']> l)) + 1
   = length (List.filter is_reading l))%nat.
Proof.
  revert i. induction l as [|x l IH]; intros i Hi Hk Hk'; [discriminate|].
  destruct i as [|i]; simpl in Hi.
  - injection Hi as ->. simpl. rewrite Hk, Hk'. simpl. lia.
  - specialize (IH i Hi Hk Hk'). simpl in IH |- *.
    destruct (is_reading x); simpl; lia.
Qed.

Lemma settle_counts i k st :
  tasks (env st) !! i = Some k ->
  (reading (settle i k st) <= reading st)%nat
  /\ pushed (settle i k st) = pushed st
  /\ db (env (settle i k st)) = db (env st).
Proof.
  intros Hi. unfold settle, reading, pushed. rewrite resume_caller_env. cbn.
  split; [now apply (reading_delete i k) | split; reflexivity].
Qed.

Lemma step_counts ev st st' :
  step ev st = Some st' ->
  (pushed st' + reading st' <= pushed st + reading st + triggers [ev])%nat
  /\ (Spec.single_record (db (env st)) -> Spec.single_record (db (env st')))
  /\ (length (db (env st)) <= length (db (env st')))%nat.
Proof.
  destruct ev; cbn [step]; intros H; unfold triggers; cbn [List.filter length].
  - injection H as <-. cbn. split; [unfold pushed, reading; cbn; lia | auto].
  - injection H as <-. cbn. split; [unfold pushed, reading; cbn; lia | auto].
  - destruct (fileWatcher (mgr st)) as [[root courseId]|]; [|discriminate].
    destruct (watched root fsPath); [|discriminate].
    injection H as <-. cbn. split; [unfold pushed, reading; cbn; lia | auto].
  - destruct (timers (env st) !! h) as [t|]; [|discriminate].
    destruct (tm_due t <=? clock (env st))%Z; [|discriminate].
    injection H as <-.
    destruct (reading_syncFile TimerCallback (tm_path t) (tm_courseId t)
                (on_env (fun e => set_timers (delete h (timers e)) e) st))
      as (Hr & Hp & Hd).
    rewrite Hd. split; [|cbn; auto]. rewrite Hp.
    unfold pushed, reading in *. cbn in *. lia.
  - unfold readDone in H.
    destruct (tasks (env st) !! i) as [k|] eqn:Hi; [|discriminate].
    destruct (tk_stage k) eqn:Hstage; [|discriminate].
    destruct (files (env st) !! tk_path k) as [content|].
    + destruct (Metrics.getAndReset _ _ _ _) as [inputMetrics tracker].
      injection H as <-. split; [|cbn; auto].
      unfold pushed, reading. cbn. rewrite length_app. cbn.
      pose proof (reading_insert i k
                    {| tk_path := tk_path k; tk_courseId := tk_courseId k;
                       tk_section := tk_section k; tk_userId := tk_userId k;
                       tk_stage := AwaitSave content inputMetrics;
                       tk_caller := tk_caller k |} (tasks (env st)) Hi) as Hins.
      unfold is_reading at 1 2 in Hins. rewrite Hstage in Hins.
      specialize (Hins eq_refl eq_refl). lia.
    + injection H as <-. destruct (settle_counts i k st Hi) as (Hr & Hp & Hd).
      rewrite Hd. split; [lia | auto].
  - unfold saveDone in H.
    destruct (tasks (env st) !! i) as [k|] eqn:Hi; [|discriminate].
    destruct (tk_stage k); [discriminate|].
    injection H as <-. destruct ok.
    + match goal with
      | |- context [settle i k ?s] =>
          destruct (settle_counts i k s Hi) as (Hr & Hp & Hd)
      end.
      rewrite Hd. cbn [db env on_env set_db].
      split; [unfold pushed, reading in *; cbn in *; lia|].
      split; [apply saveStudentAnswer_upsert|].
      unfold Firebase.saveStudentAnswer.
      destruct (Firebase.query _ _ _);
        [unfold Firebase.addDoc; rewrite length_app; lia|].
      rewrite length_updateDoc. lia.
    + destruct (settle_counts i k st Hi) as (Hr & Hp & Hd).
      rewrite Hd. split; [lia | auto].
  - injection H as <-. unfold syncCurrentFile.
    destruct (Js.truthy (currentCourseId (mgr st))) as [c|];
      [|split; [lia | auto]].
    destruct (size (fileToSectionMap (mgr st)) =? 0)%nat; [split; [lia | auto]|].
    destruct (reading_syncFile ManualCall filePath c st) as (Hr & Hp & Hd).
    rewrite Hd. split; [lia | auto].
  - injection H as <-. cbn. split; [unfold pushed, reading; cbn; lia | auto].
  - injection H as <-. cbn. split; [unfold pushed, reading; cbn; lia | auto].
  - destruct (0 <=? ms)%Z; [|discriminate]. injection H as <-.
    cbn. split; [unfold pushed, reading; cbn; lia | auto].
  - injection H as <-. cbn. split; [unfold pushed, reading; cbn; lia | auto].
  - injection H as <-. cbn. split; [unfold pushed, reading; cbn; lia | auto].
Qed.

Lemma triggers_cons ev evs :
  triggers (ev :: evs) = (triggers [ev] + triggers evs)%nat.
Proof.
  unfold triggers. cbn [List.filter]. destruct ev; cbn; reflexivity.
Qed.

Lemma run_counts evs st st' :
  run evs st = Some st' ->
  (pushed st' + reading st' <= pushed st + reading st + triggers evs)%nat
  /\ (Spec.single_record (db (env st)) -> Spec.single_record (db (env st')))
  /\ (length (db (env st)) <= length (db (env st')))%nat.
Proof.
  revert st. induction evs as [|ev evs IH]; intros st H; simpl in H.
  - injection H as <-. split; [lia | auto].
  - destruct (step ev st) as [st1|] eqn:Hstep; [|discriminate].
    destruct (step_counts ev st st1 Hstep) as (H1 & H2 & H3).
    destruct (IH st1 H) as (H4 & H5 & H6).
    rewrite triggers_cons. split; [lia|]. split; [auto | lia].
Qed.

End Counting.

(** X16. The manager pushes only when triggered: in any run from its
    construction the number of calls of [saveStudentAnswer] is at most the
    number of timers that fired and manual syncs that were asked. File
    saves, edits, lesson openings and time passing push nothing by
    themselves. *)
Theorem pushes_bounded_by_triggers now user root fs answers evs st :
  Sync.run evs (Sync.initial now user root fs answers) = Some st ->
  (length (Sync.upserts (Sync.env st)) <= CountProps.triggers evs)%nat.
Proof.
  intros Hrun. destruct (run_counts evs _ st Hrun) as [H _].
  unfold CountProps.pushed, CountProps.reading in H. cbn in H. lia.
Qed.

Lemma pushes_bounded_by_triggers_witness :
  exists st,
    Sync.run (Examples.two_triggers ++ [Sync.ReadDone 0]) Examples.start = Some st
    /\ (length (Sync.upserts (Sync.env st)) <= 2)%nat.
Proof.
  destruct (Sync.run (Examples.two_triggers ++ [Sync.ReadDone 0]) Examples.start)
    as [st|] eqn:Hrun; [|vm_compute in Hrun; discriminate Hrun].
  exists st. split; [reflexivity|].
  apply (pushes_bounded_by_triggers 0 (Some "ada") (Some Examples.root)
           {[ Examples.intro_loops_path := "a" ]} []
           (Examples.two_triggers ++ [Sync.ReadDone 0]) st Hrun).
Defined.

(** ** Saves that overlap *)

Section Overlapping.

Import Firebase Props Overlap.

Lemma first_match_none sectionId userId db :
  first_match sectionId userId db = None <-> query db sectionId userId = [].
Proof.
  unfold query. induction db as [|d db IH]; [tauto|]. cbn [first_match List.filter].
  destruct (matches sectionId userId d); [split; discriminate|].
  rewrite <- IH. destruct (first_match sectionId userId db); simpl;
    split; congruence.
Qed.

Lemma first_match_update sectionId userId f (db : list AnswerDoc) ref :
  first_match sectionId userId db = Some ref ->
  query db sectionId userId <> []
  /\ updateDoc sectionId userId f db = alter f ref db.
Proof.
  revert ref. induction db as [|d db IH]; intros ref; [discriminate|].
  cbn [first_match updateDoc query List.filter].
  destruct (matches sectionId userId d).
  - intros [= <-]. split; [discriminate | reflexivity].
  - destruct (first_match sectionId userId db) as [r|]; [|discriminate].
    simpl. intros [= <-]. destruct (IH r eq_refl) as [Hq Hu].
    split; [exact Hq|]. cbn. now rewrite Hu.
Qed.

Lemma written_alone db s : written s (served db s) db = apply_save db s.
Proof.
  unfold served, apply_save, saveStudentAnswer.
  destruct (first_match (sv_sectionId s) (sv_userId s) db) as [ref|] eqn:Hfirst.
  - destruct (first_match_update (sv_sectionId s) (sv_userId s)
                (fun d => {| ans_sectionId := ans_sectionId d;
                             ans_userId := ans_userId d;
                             ans_lessonId := ans_lessonId d;
                             ans_answer := Some (sv_content s);
                             ans_type := ans_type d;
                             ans_courseId := ans_courseId d;
                             ans_createdAt := ans_createdAt d;
                             ans_updatedAt := sv_now s;
                             ans_inputMetrics := ans_inputMetrics d |})
                db ref Hfirst) as [Hq Hu].
    destruct (query db (sv_sectionId s) (sv_userId s)); [congruence|].
    cbn [written]. now rewrite Hu.
  - apply first_match_none in Hfirst. now rewrite Hfirst.
Qed.

Lemma written_length s d db :
  (length db <= length (written s d db) <= length db + 1)%nat.
Proof.
  destruct d; cbn [written].
  - rewrite length_alter. lia.
  - unfold addDoc. rewrite length_app. simpl. lia.
Qed.

Lemma written_at s d (db : list AnswerDoc) i x :
  db !! i = Some x ->
  exists x', written s d db !! i = Some x' /\ same_identity x x'.
Proof.
  intros Hi. destruct d as [ref|]; cbn [written].
  - destruct (decide (ref = i)) as [->|Hne].
    + rewrite list_lookup_alter_eq, Hi. simpl. eexists. split; [reflexivity|].
      unfold same_identity. cbn. tauto.
    + rewrite list_lookup_alter_ne by exact Hne.
      exists x. split; [exact Hi | apply same_identity_refl].
  - exists x. split; [|apply same_identity_refl].
    unfold addDoc. now apply lookup_app_l_Some.
Qed.

(** An update leaves the answers of every section and user as many as they
    were. *)
Lemma query_alter_length f ref (db : list AnswerDoc) sectionId userId :
  (forall d, matches sectionId userId (f d) = matches sectionId userId d) ->
  length (query (alter f ref db) sectionId userId)
  = length (query db sectionId userId).
Proof.
  intros Hf. unfold query. revert ref.
  induction db as [|d db IH]; intros ref; [reflexivity|].
  destruct ref as [|ref]; cbn [alter list_alter List.filter].
  - rewrite Hf. destruct (matches sectionId userId d); reflexivity.
  - change (list_alter f ref db) with (alter f ref db).
    destruct (matches sectionId userId d); simpl; now rewrite IH.
Qed.

Lemma written_update_length s ref (db : list AnswerDoc) sectionId userId :
  length (query (written s (Update ref) db) sectionId userId)
  = length (query db sectionId userId).
Proof. cbn [written]. apply query_alter_length. reflexivity. Qed.

Lemma written_add_query s db sectionId userId :
  query (written s Add db) sectionId userId
  = (query db sectionId userId
     ++ if bool_decide (key s = (sectionId, userId))
        then [{| ans_sectionId := sv_sectionId s;
                 ans_userId := sv_userId s;
                 ans_lessonId := sv_lessonId s;
                 ans_answer := Some (sv_content s);
                 ans_type := sv_type s;
                 ans_courseId := Js.truthy (sv_courseId s);
                 ans_createdAt := sv_now s;
                 ans_updatedAt := sv_now s;
                 ans_inputMetrics := None |}]
        else [])%list.
Proof.
  cbn [written]. rewrite query_addDoc. f_equal. unfold matches, key. cbn.
  repeat case_bool_decide; simplify_eq; try reflexivity; congruence.
Qed.

Lemma settled_apart_step ev st st' :
  step ev st = Some st' -> apart [ev] st = true ->
  settled_apart st -> settled_apart st'.
Proof.
  intros Hstep Hapart (Hsingle & Hnd & Hadd). destruct ev as [s|i]; cbn in Hstep.
  - injection Hstep as <-. cbn in Hapart. rewrite !andb_true_r in Hapart.
    split; [exact Hsingle|]. cbn. split.
    + rewrite fmap_app. apply NoDup_app. split; [exact Hnd|]. split.
      * intros k Hk Hs. cbn in Hs. apply list_elem_of_singleton in Hs.
        apply list_elem_of_fmap in Hk as (p & -> & Hp).
        rewrite forallb_forall in Hapart.
        apply list_elem_of_In in Hp. specialize (Hapart p Hp).
        apply negb_true_iff, bool_decide_eq_false in Hapart. contradiction.
      * cbn. apply NoDup_singleton.
    + intros s' Hs'. apply elem_of_app in Hs' as [Hs'|Hs']; [now apply Hadd|].
      apply list_elem_of_singleton in Hs'. injection Hs' as -> Hserved.
      unfold served in Hserved.
      destruct (first_match (sv_sectionId s) (sv_userId s) (docs st)) eqn:Hf;
        [discriminate|].
      now apply first_match_none.
  - destruct (pending st !! i) as [[s d]|] eqn:Hi; [|discriminate].
    injection Hstep as <-. unfold settled_apart. cbn [docs pending].
    assert (Hother : forall s', (s', Add) ∈ delete i (pending st) ->
                                key s' <> key s).
    { intros s' Hs' Heq.
      apply (NoDup_fmap_delete_notin (fun p => key p.1) (pending st) i (s, d)
               Hnd Hi).
      cbn. rewrite <- Heq. apply list_elem_of_fmap. exists (s', Add).
      split; [reflexivity | exact Hs']. }
    assert (Hsub : forall p, p ∈ delete i (pending st) -> p ∈ pending st).
    { intros p Hp. rewrite (delete_Permutation _ i (s, d) Hi).
      now apply elem_of_cons; right. }
    split; [|split].
    + destruct d as [ref|].
      * intros sectionId userId. rewrite written_update_length. apply Hsingle.
      * intros sectionId userId. rewrite written_add_query.
        rewrite length_app. case_bool_decide as Hk.
        -- injection Hk as <- <-.
           rewrite (Hadd s) by (eapply list_elem_of_lookup_2; exact Hi).
           simpl. lia.
        -- simpl. specialize (Hsingle sectionId userId). lia.
    + assert (Hnd' := Hnd).
      rewrite (delete_Permutation _ i (s, d) Hi), fmap_cons in Hnd'.
      now apply NoDup_cons in Hnd' as [_ Hnd'].
    + intros s' Hs'. pose proof (Hadd s' (Hsub _ Hs')) as Hnone.
      destruct d as [ref|].
      * apply length_zero_iff_nil. rewrite written_update_length.
        now rewrite Hnone.
      * rewrite written_add_query, Hnone.
        rewrite bool_decide_eq_false_2; [reflexivity|].
        intros Hk. apply (Hother s' Hs'). now rewrite Hk.
Qed.

Lemma apart_cons ev evs st st' :
  step ev st = Some st' -> apart (ev :: evs) st = true ->
  apart [ev] st = true /\ apart evs st' = true.
Proof.
  intros Hstep. cbn [apart]. rewrite Hstep.
  intros [H1 H2]%andb_prop. rewrite H1, H2. now destruct evs.
Qed.

Lemma settled_apart_run evs st st' :
  run evs st = Some st' -> apart evs st = true ->
  settled_apart st -> settled_apart st'.
Proof.
  revert st. induction evs as [|ev evs IH]; intros st Hrun Hapart Hinv.
  - now injection Hrun as <-.
  - cbn [run] in Hrun. destruct (step ev st) as [st1|] eqn:Hstep; [|discriminate].
    destruct (apart_cons ev evs st st1 Hstep Hapart) as [H1 H2].
    apply (IH st1 Hrun H2). now apply (settled_apart_step ev st).
Qed.

Lemma interleaved_step ev st st' :
  step ev st = Some st' ->
  (length (docs st) <= length (docs st') <= length (docs st) + 1)%nat
  /\ forall i d, docs st !! i = Some d ->
                 exists d', docs st' !! i = Some d' /\ same_identity d d'.
Proof.
  destruct ev as [s|j]; cbn.
  - intros [= <-]. cbn. split; [lia|]. intros i d Hi.
    exists d. split; [exact Hi | apply same_identity_refl].
  - destruct (pending st !! j) as [[s d]|]; [|discriminate].
    intros [= <-]. cbn. split; [apply written_length|].
    intros i x Hi. now apply written_at.
Qed.

Lemma interleaved_run evs st st' :
  run evs st = Some st' ->
  (length (docs st) <= length (docs st') <= length (docs st) + length evs)%nat
  /\ forall i d, docs st !! i = Some d ->
                 exists d', docs st' !! i = Some d' /\ same_identity d d'.
Proof.
  revert st. induction evs as [|ev evs IH]; intros st Hrun.
  - injection Hrun as <-. simpl. split; [lia|]. intros i d Hi.
    exists d. split; [exact Hi | apply same_identity_refl].
  - cbn [run] in Hrun. destruct (step ev st) as [st1|] eqn:Hstep; [|discriminate].
    destruct (interleaved_step ev st st1 Hstep) as [Hlen1 Hat1].
    destruct (IH st1 Hrun) as [Hlen Hat]. simpl. split; [lia|].
    intros i d Hi. destruct (Hat1 i d Hi) as (d1 & Hd1 & Hs1).
    destruct (Hat i d1 Hd1) as (d2 & Hd2 & Hs2).
    exists d2. split; [exact Hd2 | now apply (same_identity_trans d d1 d2)].
Qed.

End Overlapping.

(** X19. Calls of [saveStudentAnswer] that overlap, each taking its query
    and its write as two steps. A call served alone is the upsert of
    [saveStudentAnswer]. In every interleaving the collection only grows, by
    one document a step at most, and every document stays at its place with
    its section, user, lesson, course, type, creation time and input
    metrics. When no query is served while another call for the same
    section and user is between its query and its write, a collection with
    at most one answer per section and user stays so. When two calls for a
    section and user without an answer overlap, both add a document: the
    collection ends with two answers for them. *)
Theorem overlapping_saves :
  (forall db s,
      Overlap.written s (Overlap.served db s) db = Props.apply_save db s)
  /\ (forall evs st st',
        Overlap.run evs st = Some st' ->
        (length (Overlap.docs st) <= length (Overlap.docs st')
         <= length (Overlap.docs st) + length evs)%nat
        /\ forall i d,
             Overlap.docs st !! i = Some d ->
             exists d', Overlap.docs st' !! i = Some d'
                        /\ Props.same_identity d d')
  /\ (forall evs db st',
        Overlap.run evs (Overlap.quiet db) = Some st' ->
        Overlap.apart evs (Overlap.quiet db) = true ->
        Spec.single_record db ->
        Spec.single_record (Overlap.docs st'))
  /\ (forall db a b,
        Overlap.key a = Overlap.key b ->
        Firebase.query db (Props.sv_sectionId a) (Props.sv_userId a) = [] ->
        exists st',
          Overlap.run [Overlap.GetDocsServed a; Overlap.GetDocsServed b;
                       Overlap.WriteServed 0; Overlap.WriteServed 0]
            (Overlap.quiet db) = Some st'
          /\ length (Firebase.query (Overlap.docs st')
                       (Props.sv_sectionId a) (Props.sv_userId a)) = 2%nat
          /\ ~ Spec.single_record (Overlap.docs st')).
Proof.
  split; [|split; [|split]].
  - apply written_alone.
  - apply interleaved_run.
  - intros evs db st' Hrun Hapart Hsingle.
    apply (settled_apart_run evs (Overlap.quiet db) st' Hrun Hapart).
    split; [exact Hsingle|]. split; [apply NoDup_nil_2|].
    intros s Hs. cbn in Hs. now apply elem_of_nil in Hs.
  - intros db a b Hkey Hnone.
    assert (Ha : Overlap.served db a = Overlap.Add).
    { unfold Overlap.served. apply first_match_none in Hnone.
      now rewrite Hnone. }
    assert (Hb : Overlap.served db b = Overlap.Add).
    { unfold Overlap.served. injection Hkey as Hs Hu. rewrite <- Hs, <- Hu.
      apply first_match_none in Hnone. now rewrite Hnone. }
    exists {| Overlap.docs :=
                Overlap.written b Overlap.Add (Overlap.written a Overlap.Add db);
              Overlap.pending := [] |}.
    split.
    { cbn [Overlap.run Overlap.step Overlap.quiet Overlap.docs Overlap.pending].
      rewrite Ha, Hb. reflexivity. }
    cbn [Overlap.docs].
    assert (Hlen : length (Firebase.query
                     (Overlap.written b Overlap.Add
                        (Overlap.written a Overlap.Add db))
                     (Props.sv_sectionId a) (Props.sv_userId a)) = 2%nat).
    { rewrite !written_add_query, Hnone.
      rewrite !bool_decide_eq_true_2 by (rewrite <- ?Hkey; reflexivity).
      reflexivity. }
    split; [exact Hlen|].
    intros Hsingle.
    specialize (Hsingle (Props.sv_sectionId a) (Props.sv_userId a)).
    rewrite Hlen in Hsingle. lia.
Qed.

Lemma overlapping_saves_witness :
  exists st',
    Overlap.run
      [Overlap.GetDocsServed
         {| Props.sv_now := 2000; Props.sv_sectionId := "sec-loops";
            Props.sv_userId := "ada"; Props.sv_lessonId := "lesson-1";
            Props.sv_content := "print(2)"; Props.sv_type := Firebase.AnswerCode;
            Props.sv_courseId := Some "algorithms" |};
       Overlap.GetDocsServed
         {| Props.sv_now := 2100; Props.sv_sectionId := "sec-arrays";
            Props.sv_userId := "ada"; Props.sv_lessonId := "lesson-1";
            Props.sv_content := "class Main {}";
            Props.sv_type := Firebase.AnswerCode;
            Props.sv_courseId := Some "algorithms" |};
       Overlap.WriteServed 1; Overlap.WriteServed 0]
      (Overlap.quiet [Examples.saved "print(1)"]) = Some st'
    /\ Spec.single_record (Overlap.docs st').
Proof.
  eexists. split; [reflexivity|].
  apply (proj1 (proj2 (proj2 overlapping_saves))
           [Overlap.GetDocsServed
              {| Props.sv_now := 2000; Props.sv_sectionId := "sec-loops";
                 Props.sv_userId := "ada"; Props.sv_lessonId := "lesson-1";
                 Props.sv_content := "print(2)";
                 Props.sv_type := Firebase.AnswerCode;
                 Props.sv_courseId := Some "algorithms" |};
            Overlap.GetDocsServed
              {| Props.sv_now := 2100; Props.sv_sectionId := "sec-arrays";
                 Props.sv_userId := "ada"; Props.sv_lessonId := "lesson-1";
                 Props.sv_content := "class Main {}";
                 Props.sv_type := Firebase.AnswerCode;
                 Props.sv_courseId := Some "algorithms" |};
            Overlap.WriteServed 1; Overlap.WriteServed 0]
           [Examples.saved "print(1)"]); [reflexivity | reflexivity |].
  intros s u. unfold Firebase.query. simpl.
  destruct (Firebase.matches s u _); simpl; lia.
Defined.

(** ** The push of a timer that comes due *)

(** X13. When the timer of a tracked file comes due, with a user signed in,
    no push of the file in flight and the file on disk, the timer fires and
    the read that follows calls [saveStudentAnswer] once, with the content of
    the file as it is then, the section under the lower-cased path, the
    course the timer was armed with, and the metrics consumed from the
    tracker; the timer is no longer armed. *)
Theorem due_timer_pushes_content st h p courseId due ms section u content :
  Sync.timers (Sync.env st) !! h
  = Some {| Sync.tm_path := p; Sync.tm_courseId := courseId; Sync.tm_due := due |} ->
  (0 <= ms)%Z -> (due <= Sync.clock (Sync.env st) + ms)%Z ->
  Sync.fileToSectionMap (Sync.mgr st) !! Js.toLowerCase p = Some section ->
  p ∉ Sync.syncInProgress (Sync.mgr st) ->
  Js.truthy (Sync.userId (Sync.env st)) = Some u ->
  Sync.files (Sync.env st) !! p = Some content ->
  exists st',
    Sync.run [Sync.Elapse ms; Sync.TimerFires h;
              Sync.ReadDone (length (Sync.tasks (Sync.env st)))] st = Some st'
    /\ Sync.upserts (Sync.env st')
       = (Sync.upserts (Sync.env st)
          ++ [{| Sync.up_path := p; Sync.up_sectionId := sec_id section;
                 Sync.up_userId := u; Sync.up_lessonId := sec_lessonId section;
                 Sync.up_content := content; Sync.up_courseId := courseId;
                 Sync.up_inputMetrics :=
                   (Metrics.getAndReset (Sync.clock (Sync.env st) + ms) p
                      (Z.of_nat (String.length content))
                      (Sync.metricsTracker (Sync.mgr st))).1;
                 Sync.up_at := Sync.clock (Sync.env st) + ms |}])%list
    /\ Sync.timers (Sync.env st') = delete h (Sync.timers (Sync.env st))
    /\ p ∈ Sync.syncInProgress (Sync.mgr st').
Proof.
  intros Hh Hms Hdue Hsec Hout Hu Hfile.
  cbn [Sync.run Sync.step].
  rewrite (proj2 (Z.leb_le 0 ms) Hms). cbn [Sync.env Sync.on_env Sync.timers
    Sync.set_clock Sync.clock]. rewrite Hh. cbn [Sync.tm_due Sync.tm_path
    Sync.tm_courseId]. rewrite (proj2 (Z.leb_le _ _) Hdue).
  unfold Sync.syncFile. cbn [Sync.mgr Sync.on_env]. rewrite Hsec.
  rewrite decide_False by exact Hout. cbv zeta.
  cbn [Sync.env Sync.on_mgr Sync.on_env Sync.userId Sync.set_timers
         Sync.set_clock]. rewrite Hu.
  unfold Sync.readDone.
  cbn [Sync.env Sync.mgr Sync.on_env Sync.on_mgr Sync.tasks Sync.set_tasks
         Sync.set_timers Sync.set_clock Sync.files Sync.clock
         Sync.metricsTracker Sync.set_syncInProgress].
  rewrite lookup_app_r by lia. rewrite Nat.sub_diag. cbn [lookup list_lookup].
  cbn [Sync.tk_stage Sync.tk_path]. rewrite Hfile.
  destruct (Metrics.getAndReset _ _ _ _) as [inputMetrics tracker] eqn:Hget.
  eexists. split; [reflexivity|]. cbn.
  split; [reflexivity|]. split; [reflexivity|].
  apply elem_of_union_l, elem_of_singleton. reflexivity.
Qed.

Lemma due_timer_pushes_content_witness :
  exists st',
    Sync.run [Sync.Elapse 2000; Sync.TimerFires 0; Sync.ReadDone 0]
      (Sync.queueSync Examples.intro_loops_path "algorithms" 2000 Examples.opened)
    = Some st'
    /\ Sync.up_content <$> Sync.upserts (Sync.env st') = ["a"].
Proof.
  destruct (due_timer_pushes_content
              (Sync.queueSync Examples.intro_loops_path "algorithms" 2000
                 Examples.opened)
              0%nat Examples.intro_loops_path "algorithms" 2000 2000
              Examples.intro_loops "ada" "a")
    as (st' & Hrun & Hups & _); try reflexivity; try lia.
  - cbn. apply not_elem_of_empty.
  - exists st'. split; [exact Hrun|]. rewrite Hups. reflexivity.
Defined.
